(** * PyMVPA: incremental feature search ([mvpa/incrsearch.py])

    A shallow embedding of the class [IncrementalFeatureSearch] and the
    properties of its greedy, cross-validated forward selection.

    Modelling conventions.
    - Python objects that are shared between calls (the candidate pool, the
      selected set, the mask and every array or list the merge functions
      build) live in a store, a [list pyobj] addressed by position; local
      names hold locations.  Lists that a method creates, fills by [append]
      and hands back ([best_ids], [cv_features], [cv_rois],
      [candidate_rating]) are kept as values.
    - A method is a function from a world (store and the fields of [self])
      to a world and an outcome: a value, a raised exception, or [Diverge]
      when the fuel of the [while] loop is used up (shown never to happen).
      What was written to the store or to [self] before a [raise] stays
      written, as in Python.
    - The dataset, the cross-validation module and the classifier are not
      part of the file under study; they are the fields of the class
      [Collaborators].  They take values and return a result or an
      exception, and do not write to the store.
    - Floating point accuracies are exact rationals ([Q]); rounding and NaN
      (the mean of an empty array) are outside the model.  Progress output
      ([verbose]) is not modelled. *)

From Stdlib Require Import ZArith QArith String List Lia Bool Sorting.Sorted Lqa.
From stdpp Require Import base list.
Import ListNotations.

Local Open Scope nat_scope.

(** ** Exceptions and results *)

Inductive exn := Exn (cls msg : string).

Definition ValueError (msg : string) : exn := Exn "ValueError" msg.
Definition TypeError (msg : string) : exn := Exn "TypeError" msg.
Definition IndexError (msg : string) : exn := Exn "IndexError" msg.
Definition AttributeError (msg : string) : exn := Exn "AttributeError" msg.

(** What a side-effect free call yields. *)
Inductive result (A : Type) :=
| Res (a : A)
| Err (e : exn).
Arguments Res {A} a.
Arguments Err {A} e.

Definition rbind {A B} (r : result A) (k : A -> result B) : result B :=
  match r with
  | Res a => k a
  | Err e => Err e
  end.

(** What a method call yields. *)
Inductive outcome (A : Type) :=
| Ok (a : A)
| Raise (e : exn)
| Diverge.
Arguments Ok {A} a.
Arguments Raise {A} e.
Arguments Diverge {A}.

(** ** Python and numpy values *)

Record ndarray (A : Type) := NdArray { shape : list nat; data : list A }.
Arguments NdArray {A} shape data.
Arguments shape {A} n.
Arguments data {A} n.

Inductive pyobj :=
| PyList (items : list Z)
| PyIntArray (a : ndarray Z)
| PyBoolArray (a : ndarray bool).

(** A location of the store. *)
Abbreviation loc := nat.

Definition Z_of_bool (b : bool) : Z := if b then 1%Z else 0%Z.

(** An array read as numbers; [True] is [1] and [False] is [0]. *)
Definition as_array (o : pyobj) : result (ndarray Z) :=
  match o with
  | PyIntArray a => Res a
  | PyBoolArray a => Res (NdArray (shape a) (map Z_of_bool (data a)))
  | PyList _ => Err (AttributeError "'list' object is not an array")
  end.

(** An array read as truth values; nonzero is [True]. *)
Definition as_bool_array (o : pyobj) : result (ndarray bool) :=
  match o with
  | PyIntArray a => Res (NdArray (shape a) (map (fun x => negb (x =? 0)%Z) (data a)))
  | PyBoolArray a => Res a
  | PyList _ => Err (TypeError "'list' object is not an array")
  end.

(** [selected + [candidate]] on a list. *)
Definition list_add (o : pyobj) (l : list Z) : result pyobj :=
  match o with
  | PyList items => Res (PyList (items ++ l))
  | _ => Err (TypeError "can only concatenate list to list")
  end.

(** [a == candidate], element by element. *)
Definition np_eq_scalar (o : pyobj) (candidate : Z) : result pyobj :=
  rbind (as_array o) (fun a =>
  Res (PyBoolArray (NdArray (shape a) (map (fun x => (x =? candidate)%Z) (data a))))).

Fixpoint zip_orb (l1 l2 : list bool) : list bool :=
  match l1, l2 with
  | b1 :: t1, b2 :: t2 => (b1 || b2) :: zip_orb t1 t2
  | _, _ => []
  end.

Definition shape_eqb (s1 s2 : list nat) : bool :=
  if decide (s1 = s2) then true else false.

(** [np.logical_or] on two arrays of one shape (no broadcasting). *)
Definition np_logical_or (o1 o2 : pyobj) : result pyobj :=
  rbind (as_bool_array o1) (fun a1 =>
  rbind (as_bool_array o2) (fun a2 =>
  if shape_eqb (shape a1) (shape a2)
  then Res (PyBoolArray (NdArray (shape a1) (zip_orb (data a1) (data a2))))
  else Err (ValueError "operands could not be broadcast together"))).

(** [np.zeros(shape, dtype='bool')]. *)
Definition np_zeros_bool (s : list nat) : pyobj :=
  PyBoolArray (NdArray s (repeat false (fold_right Nat.mul 1 s))).

(** [np.unique(a).tolist()]: the distinct values in increasing order. *)
Fixpoint insert_unique (x : Z) (l : list Z) : list Z :=
  match l with
  | [] => [x]
  | y :: t =>
      if (x <? y)%Z then x :: l
      else if (x =? y)%Z then l
      else y :: insert_unique x t
  end.

Definition np_unique (l : list Z) : list Z := fold_right insert_unique [] l.

(** [a.nonzero()] and [np.transpose]: the coordinates of the nonzero
    elements, in row-major order. *)
Fixpoint flatnonzero_from (i : nat) (l : list Z) : list nat :=
  match l with
  | [] => []
  | x :: t =>
      if (x =? 0)%Z then flatnonzero_from (S i) t
      else i :: flatnonzero_from (S i) t
  end.

Definition flatnonzero (l : list Z) : list nat := flatnonzero_from 0 l.

Definition unravel_index (s : list nat) (i : nat) : list nat :=
  snd (fold_right (fun d qa => (fst qa / d, (fst qa mod d) :: snd qa)) (i, []) s).

Definition np_transpose_nonzero (a : ndarray Z) : list (list nat) :=
  map (unravel_index (shape a)) (flatnonzero (data a)).

(** [np.mean] of a one-dimensional array. *)
Definition Qsum (l : list Q) : Q := fold_right Qplus 0%Q l.

Definition np_mean (l : list Q) : Q :=
  Qred (Qsum l / inject_Z (Z.of_nat (length l))).

(** Python's [<] on the ratings. *)
Definition Qltb (x y : Q) : bool := negb (Qle_bool y x).

(** [argmax] and [max] of a one-dimensional array: the first greatest
    element wins; an empty array is an error. *)
Fixpoint argmax_from (best : Q) (besti i : nat) (l : list Q) : nat :=
  match l with
  | [] => besti
  | x :: t =>
      if Qltb best x then argmax_from x i (S i) t
      else argmax_from best besti (S i) t
  end.

Fixpoint max_from (best : Q) (l : list Q) : Q :=
  match l with
  | [] => best
  | x :: t => if Qltb best x then max_from x t else max_from best t
  end.

Definition np_argmax (l : list Q) : result nat :=
  match l with
  | [] => Err (ValueError "attempt to get argmax of an empty sequence")
  | x :: t => Res (argmax_from x 0 1 t)
  end.

Definition np_max (l : list Q) : result Q :=
  match l with
  | [] => Err (ValueError "zero-size array to reduction operation maximum")
  | x :: t => Res (max_from x t)
  end.

(** [l[i]] *)
Definition list_getitem (l : list Z) (i : nat) : result Z :=
  match l !! i with
  | Some x => Res x
  | None => Err (IndexError "list index out of range")
  end.

(** [l.remove(x)]: drops the first item equal to [x]. *)
Fixpoint remove_first (x : Z) (l : list Z) : list Z :=
  match l with
  | [] => []
  | y :: t => if (x =? y)%Z then t else y :: remove_first x t
  end.

Definition list_remove (l : list Z) (x : Z) : result (list Z) :=
  if existsb (Z.eqb x) l then Res (remove_first x l)
  else Err (ValueError "list.remove(x): x not in list").

(** [(predictions == reg).mean()]: the fraction of equal entries of two
    label vectors of one length.  With different lengths the comparison
    is no array and has no [mean]. *)
Fixpoint zip_eqb (l1 l2 : list Z) : list bool :=
  match l1, l2 with
  | x1 :: t1, x2 :: t2 => (x1 =? x2)%Z :: zip_eqb t1 t2
  | _, _ => []
  end.

Definition Q_of_bool (b : bool) : Q := if b then 1%Q else 0%Q.

Definition np_eq_mean (predictions reg : list Z) : result Q :=
  if (length predictions =? length reg)%nat
  then Res (np_mean (map Q_of_bool (zip_eqb predictions reg)))
  else Err (AttributeError "'bool' object has no attribute 'mean'").

(** [np.array(masks).mean(axis=0)]: the element-wise mean of arrays of one
    shape. *)
Fixpoint columns (n : nat) (rows : list (list Q)) : list (list Q) :=
  match n with
  | 0 => []
  | S n' => map (fun r => hd 0%Q r) rows :: columns n' (map (@tl Q) rows)
  end.

Definition np_mean_axis0 (arrs : list (ndarray Z)) : result (ndarray Q) :=
  match arrs with
  | [] => Err (ValueError "mean of an empty stack")
  | a :: _ =>
      if forallb (fun b => shape_eqb (shape a) (shape b)) arrs
      then Res (NdArray (shape a)
                  (map np_mean
                     (columns (length (data a))
                        (map (fun b => map inject_Z (data b)) arrs))))
      else Err (ValueError "setting an array element with a sequence")
  end.

(** ** The collaborators

    The dataset ([MVPAPattern]), the [crossval] module and the classifier.
    [CrossValidation_run cvargs pattern clf cvtype clfargs] stands for
    [crossval.CrossValidation(pattern, **cvargs)] followed by
    [run(clf, cvtype=cvtype, **clfargs)] and yields the [perf] array of
    the run; [getClassification] yields the predictions. *)

Class Collaborators := {
  Pattern : Type;
  Classifier : Type;
  ClfArgs : Type;
  CvArgs : Type;
  origshape : Pattern -> list nat;
  originlabels : Pattern -> list Z;
  reg : Pattern -> list Z;
  getFeatureId : Pattern -> list nat -> result Z;
  pat_selectFeatures : Pattern -> pyobj -> result Pattern;
  features2origmask : Pattern -> pyobj -> result pyobj;
  getUniqueLengthNCombinations : list Z -> Z -> result (list (list Z));
  splitTrainTestData : Pattern -> list Z -> result (Pattern * Pattern);
  getClassification :
    Classifier -> Pattern -> Pattern -> ClfArgs -> result (list Z);
  CrossValidation_run :
    CvArgs -> Pattern -> Classifier -> Z -> ClfArgs -> result (list Q)
}.

Section Search.

Context {C : Collaborators}.

(** ** The object and the world *)

Record IncrementalFeatureSearch := IFS {
  __pattern : Pattern;
  __mask : loc;
  __cvtype : Z;
  __metacvtype : Z;
  __break_crit : Q;
  __cvargs : CvArgs;
  __perfs : list Q;
  __selection_masks : list loc;
  __metacv_origins : list (list Z)
}.

Record world := World { heap : list pyobj; this : IncrementalFeatureSearch }.

Definition M (A : Type) : Type := world -> world * outcome A.

Definition ret {A} (a : A) : M A := fun w => (w, Ok a).

Definition bind {A B} (m : M A) (k : A -> M B) : M B :=
  fun w =>
    match m w with
    | (w', Ok a) => k a w'
    | (w', Raise e) => (w', Raise e)
    | (w', Diverge) => (w', Diverge)
    end.

Notation "x <- m ;; k" := (bind m (fun x => k))
  (at level 100, m at next level, right associativity).
Notation "m ;;; k" := (bind m (fun _ => k))
  (at level 100, right associativity).

Definition raise {A} (e : exn) : M A := fun w => (w, Raise e).

Definition diverge {A} : M A := fun w => (w, Diverge).

Definition lift {A} (r : result A) : M A :=
  fun w => (w, match r with Res a => Ok a | Err e => Raise e end).

Definition get_self : M IncrementalFeatureSearch := fun w => (w, Ok (this w)).

Definition set_self (s : IncrementalFeatureSearch) : M unit :=
  fun w => (World (heap w) s, Ok tt).

Definition alloc (o : pyobj) : M loc :=
  fun w => (World (heap w ++ [o]) (this w), Ok (length (heap w))).

Definition deref (l : loc) : M pyobj :=
  fun w =>
    match heap w !! l with
    | Some o => (w, Ok o)
    | None => (w, Raise (Exn "ReferenceError" "no such object"))
    end.

Definition store (l : loc) (o : pyobj) : M unit :=
  fun w => (World (<[l:=o]> (heap w)) (this w), Ok tt).

Definition as_list (o : pyobj) : result (list Z) :=
  match o with
  | PyList items => Res items
  | _ => Err (TypeError "object is not a list")
  end.

Definition read_list (l : loc) : M (list Z) :=
  o <- deref l ;; lift (as_list o).

Definition read_array (l : loc) : M (ndarray Z) :=
  o <- deref l ;; lift (as_array o).

(** [copy.copy(x)] *)
Definition copy_copy (l : loc) : M loc :=
  o <- deref l ;; alloc o.

(** [len(x)] of a list *)
Definition len (l : loc) : M nat :=
  items <- read_list l ;; ret (length items).

(** ** [IncrementalFeatureSearch] *)

Definition clear_fields (self : IncrementalFeatureSearch)
  : IncrementalFeatureSearch :=
  IFS (__pattern self) (__mask self) (__cvtype self) (__metacvtype self)
      (__break_crit self) (__cvargs self) [] [] [].

Definition __clearResults : M unit :=
  self <- get_self ;; set_self (clear_fields self).

(** [mask.shape] at construction time *)
Definition mask_shape (h : list pyobj) (mask : loc) : result (list nat) :=
  match h !! mask with
  | Some o => rbind (as_array o) (fun a => Res (shape a))
  | None => Err (Exn "ReferenceError" "no such object")
  end.

Definition __init__ (pattern : Pattern) (mask : loc) (cvtype metacvtype : Z)
    (break_crit : Q) (kwargs : CvArgs) (h : list pyobj)
  : result IncrementalFeatureSearch :=
  let self := IFS pattern mask cvtype metacvtype break_crit kwargs [] [] [] in
  rbind (mask_shape h mask) (fun s =>
  if negb (shape_eqb s (origshape pattern))
  then Err (ValueError "Mask shape has to match the pattern origshape.")
  else Res (clear_fields self)).

Definition __doCrossValidation (pattern : Pattern) (clf : Classifier)
    (clfargs : ClfArgs) : M (list Q) :=
  self <- get_self ;;
  lift (CrossValidation_run (__cvargs self) pattern clf (__cvtype self) clfargs).

Definition __selectByFeatureId (selected : loc) (candidate : Z) : M loc :=
  s <- deref selected ;;
  r <- lift (list_add s [candidate]) ;;
  alloc r.

Definition __selectByMaskValue (selected : loc) (candidate : Z) : M loc :=
  s <- deref selected ;;
  self <- get_self ;;
  m <- deref (__mask self) ;;
  e <- lift (np_eq_scalar m candidate) ;;
  r <- lift (np_logical_or s e) ;;
  alloc r.

(** The variables of the [while] loop of [__doSelection]. *)
Record search_state := SearchState {
  st_selected : loc;
  st_best_ids : list Z;
  st_best_performance_ever : Q;
  st_selection_counter : nat
}.

Inductive step :=
| Break
| Continue (st : search_state).

(** Lines 182 to 203: the rating of every candidate of the pool. *)
Fixpoint rate_candidates (pattern : Pattern) (clf : Classifier)
    (clfargs : ClfArgs) (featureselector : loc -> Z -> M loc)
    (selected : loc) (cands : list Z) (candidate_rating : list Q)
  : M (list Q) :=
  match cands with
  | [] => ret candidate_rating
  | candidate :: rest =>
      features <- featureselector selected candidate ;;
      fobj <- deref features ;;
      temp_pat <- lift (pat_selectFeatures pattern fobj) ;;
      cv_perf <- __doCrossValidation temp_pat clf clfargs ;;
      rate_candidates pattern clf clfargs featureselector selected rest
        (candidate_rating ++ [np_mean cv_perf])
  end.

(** Lines 205 to 229: the winner of the round, the break test and the
    update of the loop variables. *)
Definition choose_best (featureselector : loc -> Z -> M loc)
    (feat_cand : loc) (candidate_rating : list Q) (st : search_state)
  : M step :=
  let rating_array := candidate_rating in
  k <- lift (np_argmax rating_array) ;;
  cands <- read_list feat_cand ;;
  best_id <- lift (list_getitem cands k) ;;
  mx <- lift (np_max rating_array) ;;
  self <- get_self ;;
  if Qltb (mx - st_best_performance_ever st) (__break_crit self)
  then ret Break
  else
    selected <- featureselector (st_selected st) best_id ;;
    let best_ids := st_best_ids st ++ [best_id] in
    cands <- read_list feat_cand ;;
    cands' <- lift (list_remove cands best_id) ;;
    store feat_cand (PyList cands') ;;;
    best_performance_ever <- lift (np_max rating_array) ;;
    ret (Continue (SearchState selected best_ids best_performance_ever
                     (st_selection_counter st + 1))).

(** Lines 177 to 229: the [while] loop.  [fuel] bounds the number of
    rounds; [__doSelection] passes the size of the pool. *)
Fixpoint while_candidates (fuel : nat) (pattern : Pattern)
    (clf : Classifier) (clfargs : ClfArgs)
    (featureselector : loc -> Z -> M loc) (feat_cand : loc)
    (st : search_state) {struct fuel} : M search_state :=
  cands <- read_list feat_cand ;;
  if (length cands =? 0)%nat then ret st
  else
    match fuel with
    | 0 => diverge
    | S fuel' =>
        candidate_rating <-
          rate_candidates pattern clf clfargs featureselector
            (st_selected st) cands [] ;;
        s <- choose_best featureselector feat_cand candidate_rating st ;;
        match s with
        | Break => ret st
        | Continue st' =>
            while_candidates fuel' pattern clf clfargs featureselector
              feat_cand st'
        end
    end.

Definition __doSelection (pattern : Pattern) (clf : Classifier)
    (clfargs : ClfArgs) (featureselector : loc -> Z -> M loc)
    (selected candidates : loc) : M (loc * list Z) :=
  feat_cand <- copy_copy candidates ;;
  n <- len feat_cand ;;
  st <- while_candidates n pattern clf clfargs featureselector feat_cand
          (SearchState selected [] 0%Q 0) ;;
  ret (st_selected st, st_best_ids st).

Definition add_perf (self : IncrementalFeatureSearch) (x : Q)
  : IncrementalFeatureSearch :=
  IFS (__pattern self) (__mask self) (__cvtype self) (__metacvtype self)
      (__break_crit self) (__cvargs self) (__perfs self ++ [x])
      (__selection_masks self) (__metacv_origins self).

Definition with_origins (self : IncrementalFeatureSearch)
    (o : list (list Z)) : IncrementalFeatureSearch :=
  IFS (__pattern self) (__mask self) (__cvtype self) (__metacvtype self)
      (__break_crit self) (__cvargs self) (__perfs self)
      (__selection_masks self) o.

Definition with_masks (self : IncrementalFeatureSearch) (m : list loc)
  : IncrementalFeatureSearch :=
  IFS (__pattern self) (__mask self) (__cvtype self) (__metacvtype self)
      (__break_crit self) (__cvargs self) (__perfs self) m
      (__metacv_origins self).

Definition set_metacv_origins (o : list (list Z)) : M unit :=
  self <- get_self ;; set_self (with_origins self o).

Definition set_selection_masks (m : list loc) : M unit :=
  self <- get_self ;; set_self (with_masks self m).

(** [self.perfs.append(x)] *)
Definition perfs_append (x : Q) : M unit :=
  self <- get_self ;; set_self (add_perf self x).

(** Lines 117 to 150: the loop over the meta folds. *)
Fixpoint meta_folds (clf : Classifier) (clfargs : ClfArgs)
    (featureselector : loc -> Z -> M loc) (selected candidates : loc)
    (origins : list (list Z)) (cv_features : list loc)
    (cv_rois : list (list Z)) : M (list loc * list (list Z)) :=
  match origins with
  | [] => ret (cv_features, cv_rois)
  | exclude :: rest =>
      self <- get_self ;;
      split <- lift (splitTrainTestData (__pattern self) exclude) ;;
      let '(meta_train, meta_test) := split in
      found <- __doSelection meta_train clf clfargs featureselector selected
                 candidates ;;
      let '(selected_features, selected_rois) := found in
      self <- get_self ;;
      sf <- deref selected_features ;;
      bestfeature_pat <- lift (pat_selectFeatures (__pattern self) sf) ;;
      sf' <- deref selected_features ;;
      test_pat <- lift (pat_selectFeatures meta_test sf') ;;
      predictions <-
        lift (getClassification clf bestfeature_pat test_pat clfargs) ;;
      acc <- lift (np_eq_mean predictions (reg meta_test)) ;;
      perfs_append acc ;;;
      meta_folds clf clfargs featureselector selected candidates rest
        (cv_features ++ [selected_features]) (cv_rois ++ [selected_rois])
  end.

Definition __doCVSelection (clf : Classifier) (clfargs : ClfArgs)
    (featureselector : loc -> Z -> M loc) (selected candidates : loc)
  : M (list loc * list (list Z)) :=
  self <- get_self ;;
  origins <- lift (getUniqueLengthNCombinations
                     (originlabels (__pattern self)) (__metacvtype self)) ;;
  set_metacv_origins origins ;;;
  self <- get_self ;;
  meta_folds clf clfargs featureselector selected candidates
    (__metacv_origins self) [] [].

Fixpoint mapM {A B} (f : A -> M B) (l : list A) : M (list B) :=
  match l with
  | [] => ret []
  | x :: t => y <- f x ;; ys <- mapM f t ;; ret (y :: ys)
  end.

Definition selectROIs (classifier : Classifier) (kwargs : ClfArgs)
  : M (list (list Z)) :=
  __clearResults ;;;
  self <- get_self ;;
  m <- read_array (__mask self) ;;
  mask_values <- alloc (PyList (np_unique (data m))) ;;
  self <- get_self ;;
  m <- read_array (__mask self) ;;
  selected_features <- alloc (np_zeros_bool (shape m)) ;;
  found <- __doCVSelection classifier kwargs __selectByMaskValue
             selected_features mask_values ;;
  let '(feature_mask, selected_rois) := found in
  set_selection_masks feature_mask ;;;
  ret selected_rois.

(** Lines 317 and 318: the candidate features of [selectFeatures]. *)
Definition cand_features_of : M (list Z) :=
  self <- get_self ;;
  m <- read_array (__mask self) ;;
  mapM (fun coord => lift (getFeatureId (__pattern self) coord))
    (np_transpose_nonzero m).

Definition selectFeatures (classifier : Classifier) (kwargs : ClfArgs)
  : M (list loc) :=
  __clearResults ;;;
  selected_features <- alloc (PyList []) ;;
  ids <- cand_features_of ;;
  cand_features <- alloc (PyList ids) ;;
  found <- __doCVSelection classifier kwargs __selectByFeatureId
             selected_features cand_features ;;
  let '(selected_features, dummy) := found in
  self <- get_self ;;
  masks <- mapM (fun f =>
                   fobj <- deref f ;;
                   m <- lift (features2origmask (__pattern self) fobj) ;;
                   alloc m)
             selected_features ;;
  set_selection_masks masks ;;;
  ret selected_features.

Definition getMeanSelectionMask : M (option (ndarray Q)) :=
  self <- get_self ;;
  if (length (__selection_masks self) <? 1)%nat then ret None
  else
    arrs <- mapM read_array (__selection_masks self) ;;
    r <- lift (np_mean_axis0 arrs) ;;
    ret (Some r).

End Search.

Arguments world {C}.
Arguments IncrementalFeatureSearch {C}.

(** ** A small dataset, cross-validation and classifier

    Concrete collaborators on which the search can be run: a dataset is a
    list of samples with a one-dimensional feature space, the folds leave
    out combinations of origins, and the classifier answers with the label
    of the first training sample that has the same feature vector (its
    parameter is the answer for a vector never seen); it refuses a
    training set in which all samples carry one label. *)

Module Toy.

Record sample := Sample { feats : list Z; label : Z; origin : Z }.

Definition dataset := list sample.

Definition nfeatures (d : dataset) : nat :=
  match d with
  | [] => 0
  | s :: _ => length (feats s)
  end.

Definition ids_of (n : nat) (o : pyobj) : list Z :=
  match o with
  | PyList ids => ids
  | PyIntArray a =>
      map Z.of_nat (flatnonzero (data a))
  | PyBoolArray a =>
      map Z.of_nat (flatnonzero (map Z_of_bool (data a)))
  end.

Definition select_columns (d : dataset) (o : pyobj) : result dataset :=
  let ids := ids_of (nfeatures d) o in
  if forallb (fun id => (0 <=? id)%Z && (id <? Z.of_nat (nfeatures d))%Z) ids
  then Res (map (fun s =>
                   Sample (map (fun id => nth (Z.to_nat id) (feats s) 0%Z) ids)
                     (label s) (origin s)) d)
  else Err (IndexError "feature id out of range").

Definition orig_mask (d : dataset) (o : pyobj) : result pyobj :=
  let ids := ids_of (nfeatures d) o in
  Res (PyBoolArray
         (NdArray [nfeatures d]
            (map (fun i => existsb (Z.eqb (Z.of_nat i)) ids)
               (seq 0 (nfeatures d))))).

Fixpoint combinations (l : list Z) (k : nat) : list (list Z) :=
  match k, l with
  | 0, _ => [[]]
  | S _, [] => []
  | S k', x :: t => map (cons x) (combinations t k') ++ combinations t k
  end.

Definition unique_combinations (labels : list Z) (n : Z)
  : result (list (list Z)) :=
  if (n <? 0)%Z then Err (ValueError "negative combination length")
  else Res (combinations (np_unique labels) (Z.to_nat n)).

Definition split (d : dataset) (exclude : list Z) : result (dataset * dataset) :=
  Res (filter (fun s => negb (existsb (Z.eqb (origin s)) exclude)) d,
       filter (fun s => existsb (Z.eqb (origin s)) exclude) d).

Definition same_vector (v1 v2 : list Z) : bool :=
  if decide (v1 = v2) then true else false.

Definition predict (unseen : Z) (train : dataset) (v : list Z) : Z :=
  match find (fun s => same_vector (feats s) v) train with
  | Some s => label s
  | None => unseen
  end.

Definition two_classes (train : dataset) : bool :=
  match map label train with
  | [] => false
  | l :: t => existsb (fun x => negb (x =? l)%Z) t
  end.

Definition classify (unseen : Z) (train test : dataset) (_ : unit)
  : result (list Z) :=
  if two_classes train
  then Res (map (fun s => predict unseen train (feats s)) test)
  else Err (ValueError "the training set holds a single class").

Fixpoint run_folds (unseen : Z) (d : dataset) (folds : list (list Z))
  : result (list Q) :=
  match folds with
  | [] => Res []
  | exclude :: rest =>
      rbind (split d exclude) (fun parts =>
      rbind (classify unseen (fst parts) (snd parts) tt) (fun p =>
      rbind (np_eq_mean p (map label (snd parts))) (fun a =>
      rbind (run_folds unseen d rest) (fun r => Res (a :: r)))))
  end.

Definition cross_validate (_ : unit) (d : dataset) (unseen : Z) (cvtype : Z)
    (_ : unit) : result (list Q) :=
  rbind (unique_combinations (map origin d) cvtype) (run_folds unseen d).

#[export] Instance collaborators : Collaborators := {|
  Pattern := dataset;
  Classifier := Z;
  ClfArgs := unit;
  CvArgs := unit;
  origshape := fun d => [nfeatures d];
  originlabels := map origin;
  reg := map label;
  getFeatureId := fun _ coord =>
    match coord with
    | [i] => Res (Z.of_nat i)
    | _ => Err (ValueError "one coordinate expected")
    end;
  pat_selectFeatures := select_columns;
  features2origmask := orig_mask;
  getUniqueLengthNCombinations := unique_combinations;
  splitTrainTestData := split;
  getClassification := classify;
  CrossValidation_run := cross_validate
|}.

(** Three origins; in each, one sample with vector [0] and label [0] and
    one sample with a vector of its own and label [1]. *)
Definition three_origins : dataset :=
  [ Sample [0%Z] 0 0; Sample [10%Z] 1 0;
    Sample [0%Z] 0 1; Sample [11%Z] 1 1;
    Sample [0%Z] 0 2; Sample [12%Z] 1 2 ]%Z.

(** The same, but every sample of origin [0] carries label [0]. *)
Definition one_class_origin : dataset :=
  [ Sample [0%Z] 0 0; Sample [5%Z] 0 0;
    Sample [0%Z] 0 1; Sample [11%Z] 1 1;
    Sample [0%Z] 0 2; Sample [12%Z] 1 2 ]%Z.

(** A mask with one element, nonzero. *)
Definition mask1 : list pyobj := [PyIntArray (NdArray [1] [1%Z])].

Definition searcher (d : dataset) (break_crit : Q) : IncrementalFeatureSearch :=
  IFS d 0 1 1 break_crit tt [] [] [].

(** Three origins with four samples each.  Feature [0] is the same in
    every sample; features [1] and [2] are the two bits of the label. *)
Definition two_bits : Toy.dataset :=
  [ Toy.Sample [0; 0; 0] 0 0; Toy.Sample [0; 0; 1] 1 0;
    Toy.Sample [0; 1; 0] 2 0; Toy.Sample [0; 1; 1] 3 0;
    Toy.Sample [0; 0; 0] 0 1; Toy.Sample [0; 0; 1] 1 1;
    Toy.Sample [0; 1; 0] 2 1; Toy.Sample [0; 1; 1] 3 1;
    Toy.Sample [0; 0; 0] 0 2; Toy.Sample [0; 0; 1] 1 2;
    Toy.Sample [0; 1; 0] 2 2; Toy.Sample [0; 1; 1] 3 2 ]%Z.

End Toy.

(** ** The vocabulary of the properties *)

Section Vocabulary.

Context {C : Collaborators}.

(** [h'] has every object of [h] below [n] as it was, and is no shorter. *)
Definition heap_frame (n : nat) (h h' : list pyobj) : Prop :=
  length h <= length h' /\ forall l, l < n -> h' !! l = h !! l.

(** A computation is framed when, started with at least [n] objects, it
    leaves the objects below [n] alone and moves [self] along [R]. *)
Definition framed {A} (R : relation IncrementalFeatureSearch) (n : nat)
    (m : M A) : Prop :=
  forall w w' out, n <= length (heap w) -> m w = (w', out) ->
    R (this w) (this w') /\ heap_frame n (heap w) (heap w').

(** ** The two merge functions *)

Inductive is_strategy : (loc -> Z -> M loc) -> Prop :=
| by_feature_id : is_strategy __selectByFeatureId
| by_mask_value : is_strategy __selectByMaskValue.

(** A merge function only reads, and on success puts one new object at
    the end of the store. *)
Definition allocates_only (featureselector : loc -> Z -> M loc) : Prop :=
  forall selected candidate w,
    (exists e, featureselector selected candidate w = (w, Raise e))
    \/ (exists o, featureselector selected candidate w
                  = (World (heap w ++ [o]) (this w), Ok (length (heap w)))).

(** A computation that never uses up the fuel. *)
Definition terminates {A} (m : M A) : Prop :=
  forall w, snd (m w) <> Diverge.

(** Lines 139 to 148 on values: the accuracy stored for a fold whose
    search selected [sf].  The classifier is fitted on [whole], the
    constructor's pattern, restricted to [sf]. *)
Definition fold_accuracy (whole meta_test : Pattern) (clf : Classifier)
    (clfargs : ClfArgs) (sf : pyobj) : result Q :=
  rbind (pat_selectFeatures whole sf) (fun bestfeature_pat =>
  rbind (pat_selectFeatures meta_test sf) (fun test_pat =>
  rbind (getClassification clf bestfeature_pat test_pat clfargs)
    (fun predictions => np_eq_mean predictions (reg meta_test)))).

(** The configuration of the object: what the constructor was given. *)
Definition same_config (s s' : IncrementalFeatureSearch) : Prop :=
  __pattern s' = __pattern s /\ __mask s' = __mask s
  /\ __cvtype s' = __cvtype s /\ __metacvtype s' = __metacvtype s
  /\ __break_crit s' = __break_crit s /\ __cvargs s' = __cvargs s.

(** [folds_trace ... w origins results w']: started in [w], the folds of
    [origins] all complete and end in [w']; [results] holds, for each
    fold in order, what its inner search returned. *)
Inductive folds_trace (clf : Classifier) (clfargs : ClfArgs)
    (featureselector : loc -> Z -> M loc) (selected candidates : loc)
  : world -> list (list Z) -> list (loc * list Z) -> world -> Prop :=
| trace_nil w :
    folds_trace clf clfargs featureselector selected candidates w [] [] w
| trace_cons w exclude rest meta_train meta_test w1 r ids sf acc results w' :
    splitTrainTestData (__pattern (this w)) exclude
      = Res (meta_train, meta_test) ->
    __doSelection meta_train clf clfargs featureselector selected candidates w
      = (w1, Ok (r, ids)) ->
    heap w1 !! r = Some sf ->
    fold_accuracy (__pattern (this w1)) meta_test clf clfargs sf = Res acc ->
    folds_trace clf clfargs featureselector selected candidates
      (World (heap w1) (add_perf (this w1) acc)) rest results w' ->
    folds_trace clf clfargs featureselector selected candidates
      w (exclude :: rest) ((r, ids) :: results) w'.

(** A fraction: a rational between 0 and 1. *)
Definition in_unit (q : Q) : Prop := (0 <= q)%Q /\ (q <= 1)%Q.

(** numpy's mean of no number is NaN, which the rationals do not have.
    The two conditions below keep a statement about the value of an
    accuracy to the runs in which every mean is taken over at least one
    number: the cross-validation of a feature subset of [pattern] reports
    at least one accuracy, and every fold of the outer cross-validation
    has a test sample. *)
Definition rates_every_subset (self : IncrementalFeatureSearch)
    (pattern : Pattern) (clf : Classifier) (clfargs : ClfArgs) : Prop :=
  forall features temp_pat perf,
    pat_selectFeatures pattern features = Res temp_pat ->
    CrossValidation_run (__cvargs self) temp_pat clf (__cvtype self) clfargs
      = Res perf ->
    perf <> [].

Definition folds_have_test_samples (self : IncrementalFeatureSearch) : Prop :=
  forall origins exclude meta_train meta_test,
    getUniqueLengthNCombinations (originlabels (__pattern self))
      (__metacvtype self) = Res origins ->
    In exclude origins ->
    splitTrainTestData (__pattern self) exclude
      = Res (meta_train, meta_test) ->
    reg meta_test <> [].

(** The boolean mask, shaped like [m], that is true where the value of
    [m] is one of [ids]. *)
Definition roi_mask (m : ndarray Z) (ids : list Z) : pyobj :=
  PyBoolArray
    (NdArray (shape m) (map (fun x => existsb (Z.eqb x) ids) (data m))).

(** An array with as many elements as its shape says. *)
Definition well_shaped {A} (a : ndarray A) : Prop :=
  length (data a) = fold_right Nat.mul 1 (shape a).

(** Lines 195 to 203 on values: the rating of the feature set [features]
    on [pattern], the mean of the accuracies of the cross-validation. *)
Definition rating_of (self : IncrementalFeatureSearch) (pattern : Pattern)
    (clf : Classifier) (clfargs : ClfArgs) (features : pyobj) : result Q :=
  rbind (pat_selectFeatures pattern features) (fun temp_pat =>
  rbind (CrossValidation_run (__cvargs self) temp_pat clf (__cvtype self)
           clfargs)
    (fun cv_perf => Res (np_mean cv_perf))).

(** ** The rounds of the search and the loop of the calls *)

(** Lines 97 and 102 on values: what a merge function builds from the
    selected set [s] and the candidate [c]. *)
Definition merge_by_id (s : pyobj) (c : Z) : result pyobj := list_add s [c].

Definition merge_by_mask (mask s : pyobj) (c : Z) : result pyobj :=
  rbind (np_eq_scalar mask c) (np_logical_or s).

(** [merges_as w featureselector merge]: in the world [w] the merge
    function [featureselector] builds the value [merge s c]. *)
Inductive merges_as (w : world)
  : (loc -> Z -> M loc) -> (pyobj -> Z -> result pyobj) -> Prop :=
| merges_by_id : merges_as w __selectByFeatureId merge_by_id
| merges_by_mask mask :
    heap w !! __mask (this w) = Some mask ->
    merges_as w __selectByMaskValue (merge_by_mask mask).

(** [mx] is the greatest of [rs] and [k] the first position that holds
    it. *)
Definition first_max (rs : list Q) (k : nat) (mx : Q) : Prop :=
  rs !! k = Some mx
  /\ (forall j q, rs !! j = Some q -> (q <= mx)%Q)
  /\ (forall j q, j < k -> rs !! j = Some q -> (q < mx)%Q).

(** The rounds of the greedy loop, as the specification words them.
    [greedy_rounds merge rate crit sel pool best chosen (sel', chosen')]:
    started with the selected set [sel], the remaining pool [pool], the
    best performance [best] and the ids [chosen], the loop ends with the
    selected set [sel'] and the ids [chosen'].  In a round on a pool that
    is not empty every candidate is rated by [rate] on its merge with
    [sel]; the winner [best_id] is the first candidate with the greatest
    rating [mx]; when [mx - best] is below [crit] the loop stops and the
    winner is not added; otherwise the winner is merged into [sel],
    appended to [chosen], its first occurrence leaves the pool, and [mx] is
    the new best performance. *)
Inductive greedy_rounds (merge : pyobj -> Z -> result pyobj)
    (rate : pyobj -> result Q) (crit : Q)
  : pyobj -> list Z -> Q -> list Z -> pyobj * list Z -> Prop :=
| greedy_done sel best chosen :
    greedy_rounds merge rate crit sel [] best chosen (sel, chosen)
| greedy_break sel pool best chosen rs k best_id mx :
    pool <> [] ->
    Forall2 (fun c q =>
               exists features,
                 merge sel c = Res features /\ rate features = Res q)
      pool rs ->
    first_max rs k mx -> pool !! k = Some best_id ->
    (mx - best < crit)%Q ->
    greedy_rounds merge rate crit sel pool best chosen (sel, chosen)
| greedy_accept sel pool best chosen rs k best_id mx sel' pre post out :
    pool <> [] ->
    Forall2 (fun c q =>
               exists features,
                 merge sel c = Res features /\ rate features = Res q)
      pool rs ->
    first_max rs k mx -> pool !! k = Some best_id ->
    ~ (mx - best < crit)%Q ->
    merge sel best_id = Res sel' ->
    pool = pre ++ best_id :: post -> ~ In best_id pre ->
    greedy_rounds merge rate crit sel' (pre ++ post) mx
      (chosen ++ [best_id]) out ->
    greedy_rounds merge rate crit sel pool best chosen out.

(** Lines 283 and 285: what [selectROIs] does with the result of the
    loop over the folds. *)
Definition selectROIs_end (found : list loc * list (list Z))
  : M (list (list Z)) :=
  bind (set_selection_masks (fst found)) (fun _ => ret (snd found)).

(** Lines 331 to 334: what [selectFeatures] does with it. *)
Definition selectFeatures_end (found : list loc * list (list Z))
  : M (list loc) :=
  bind get_self (fun self =>
  bind (mapM (fun f =>
                bind (deref f) (fun fobj =>
                bind (lift (features2origmask (__pattern self) fobj))
                  (fun m => alloc m)))
          (fst found)) (fun masks =>
  bind (set_selection_masks masks) (fun _ => ret (fst found)))).

(** The world in which [selectROIs] enters the loop over the folds
    [origins]: the results are cleared, and two new objects follow the
    store of the caller, the pool of distinct mask values and the all-false
    selected mask. *)
Definition rois_loop_start (w : world) (m : ndarray Z)
    (origins : list (list Z)) : world :=
  World (heap w ++ [PyList (np_unique (data m)); np_zeros_bool (shape m)])
    (with_origins (clear_fields (this w)) origins).

(** The world in which [selectFeatures] enters the loop: the new objects
    are the empty selected list and the pool of feature ids. *)
Definition features_loop_start (w : world) (pool : list Z)
    (origins : list (list Z)) : world :=
  World (heap w ++ [PyList []; PyList pool])
    (with_origins (clear_fields (this w)) origins).

(** [inner_run ... w0 origins wk meta_train]: in the loop over the folds
    [origins] started in [w0], some folds complete and the next one calls
    the inner search in the world [wk] on the training part
    [meta_train]. *)
Inductive inner_run (clf : Classifier) (clfargs : ClfArgs)
    (featureselector : loc -> Z -> M loc) (selected candidates : loc)
    (w0 : world) (origins : list (list Z)) : world -> Pattern -> Prop :=
| inner_run_at finished exclude rest found wk meta_train meta_test :
    origins = finished ++ exclude :: rest ->
    meta_folds clf clfargs featureselector selected candidates finished
      [] [] w0 = (wk, Ok found) ->
    splitTrainTestData (__pattern (this wk)) exclude
      = Res (meta_train, meta_test) ->
    inner_run clf clfargs featureselector selected candidates w0 origins
      wk meta_train.

(** [folds_scores ... w origins accs w']: started in [w], the folds of
    [origins] all complete and end in [w']; [accs] holds, fold by fold,
    the accuracy of the fold. *)
Inductive folds_scores (clf : Classifier) (clfargs : ClfArgs)
    (featureselector : loc -> Z -> M loc) (selected candidates : loc)
  : world -> list (list Z) -> list Q -> world -> Prop :=
| scores_nil w :
    folds_scores clf clfargs featureselector selected candidates w [] [] w
| scores_cons w exclude rest meta_train meta_test w1 r ids sf acc accs w' :
    splitTrainTestData (__pattern (this w)) exclude
      = Res (meta_train, meta_test) ->
    __doSelection meta_train clf clfargs featureselector selected candidates w
      = (w1, Ok (r, ids)) ->
    heap w1 !! r = Some sf ->
    fold_accuracy (__pattern (this w1)) meta_test clf clfargs sf = Res acc ->
    folds_scores clf clfargs featureselector selected candidates
      (World (heap w1) (add_perf (this w1) acc)) rest accs w' ->
    folds_scores clf clfargs featureselector selected candidates
      w (exclude :: rest) (acc :: accs) w'.

(** [greedy_raises merge rate crit sel pool best e]: in the rounds of the
    greedy loop, worded as in [greedy_rounds], some round is reached in
    which the rating of a candidate fails with [e], the candidates before
    it in the pool having been rated. *)
Inductive greedy_raises (merge : pyobj -> Z -> result pyobj)
    (rate : pyobj -> result Q) (crit : Q)
  : pyobj -> list Z -> Q -> exn -> Prop :=
| raises_rating sel pool best pre c post rs features e :
    pool = pre ++ c :: post ->
    Forall2 (fun c q =>
               exists features,
                 merge sel c = Res features /\ rate features = Res q)
      pre rs ->
    merge sel c = Res features -> rate features = Err e ->
    greedy_raises merge rate crit sel pool best e
| raises_later sel pool best rs k best_id mx sel' pre post e :
    pool <> [] ->
    Forall2 (fun c q =>
               exists features,
                 merge sel c = Res features /\ rate features = Res q)
      pool rs ->
    first_max rs k mx -> pool !! k = Some best_id ->
    ~ (mx - best < crit)%Q ->
    merge sel best_id = Res sel' ->
    pool = pre ++ best_id :: post -> ~ In best_id pre ->
    greedy_raises merge rate crit sel' (pre ++ post) mx e ->
    greedy_raises merge rate crit sel pool best e.

(** The row-major position of the coordinate [c] in an array of shape
    [s]. *)
Fixpoint ravel_index (s c : list nat) : nat :=
  match s, c with
  | d :: s', x :: c' => x * fold_right Nat.mul 1 s' + ravel_index s' c'
  | _, _ => 0
  end.

(** Row-major order is the lexicographic order of the coordinates. *)
Inductive lex_lt : list nat -> list nat -> Prop :=
| lex_head x y c1 c2 : x < y -> length c1 = length c2 ->
    lex_lt (x :: c1) (y :: c2)
| lex_tail x c1 c2 : lex_lt c1 c2 -> lex_lt (x :: c1) (x :: c2).

End Vocabulary.

(** ** Worlds on the small dataset *)

Module Runs.

(** The object built on [three_origins] with the default break criterion,
    and a store that holds its mask. *)
Definition w_three : world (C:=Toy.collaborators) :=
  World Toy.mask1 (Toy.searcher Toy.three_origins (1 # 1000)).

Definition w_one_class : world (C:=Toy.collaborators) :=
  World Toy.mask1 (Toy.searcher Toy.one_class_origin (1 # 1000)).

(** The same store with, in addition, an empty selected list at [1] and
    a pool at [2]. *)
Definition w_pool (pool : list Z) (break_crit : Q)
  : world (C:=Toy.collaborators) :=
  World (Toy.mask1 ++ [PyList []; PyList pool])
    (Toy.searcher Toy.three_origins break_crit).

(** The world in which [selectFeatures] enters the loop over the folds. *)
Definition w_loop : world (C:=Toy.collaborators) :=
  World (Toy.mask1 ++ [PyList []; PyList [0%Z]])
    (with_origins (clear_fields (Toy.searcher Toy.one_class_origin (1 # 1000)))
       [[0%Z]; [1%Z]; [2%Z]]).

(** The object built on [two_bits] and a store that holds its mask. *)
Definition w_bits (mask : list Z) : world (C:=Toy.collaborators) :=
  World [PyIntArray (NdArray [3] mask)]
    (Toy.searcher Toy.two_bits (1 # 1000)).

(** The same store with, in addition, an empty selected list at [1] and
    a pool at [2]. *)
Definition w_bits_pool (mask pool : list Z) : world (C:=Toy.collaborators) :=
  World [PyIntArray (NdArray [3] mask); PyList []; PyList pool]
    (Toy.searcher Toy.two_bits (1 # 1000)).

End Runs.

(** ** Arithmetic of the ratings *)

Lemma Qltb_lt (x y : Q) : Qltb x y = true <-> (x < y)%Q.
Proof.
  unfold Qltb. rewrite negb_true_iff. split.
  - intros H. apply Qnot_le_lt. intros Hle.
    apply Qle_bool_iff in Hle. congruence.
  - intros H. destruct (Qle_bool y x) eqn:E; [|reflexivity].
    apply Qle_bool_iff in E. exfalso. exact (Qlt_not_le _ _ H E).
Qed.

Lemma Qltb_ge (x y : Q) : Qltb x y = false <-> (y <= x)%Q.
Proof.
  unfold Qltb. rewrite negb_false_iff. apply Qle_bool_iff.
Qed.

(** The scan of [argmax] and [max]: with [pre] already seen and [best] its
    first greatest element, at position [besti]. *)
Lemma argmax_from_scan (l pre : list Q) (best : Q) (besti : nat) :
  pre !! besti = Some best ->
  (forall j q, pre !! j = Some q -> (q <= best)%Q) ->
  (forall j q, j < besti -> pre !! j = Some q -> (q < best)%Q) ->
  (pre ++ l) !! argmax_from best besti (length pre) l = Some (max_from best l)
  /\ (forall j q, (pre ++ l) !! j = Some q -> (q <= max_from best l)%Q)
  /\ (forall j q, j < argmax_from best besti (length pre) l ->
        (pre ++ l) !! j = Some q -> (q < max_from best l)%Q).
Proof.
  revert pre best besti.
  induction l as [|x t IH]; intros pre best besti Hb Hle Hlt; simpl.
  - rewrite app_nil_r. auto.
  - assert (Hlen : length (pre ++ [x]) = S (length pre))
      by (rewrite length_app; simpl; lia).
    replace (pre ++ x :: t) with ((pre ++ [x]) ++ t)
      by (rewrite <- app_assoc; reflexivity).
    destruct (Qltb best x) eqn:E; rewrite <- Hlen.
    + apply Qltb_lt in E. apply IH.
      * rewrite lookup_app_r by lia. now rewrite Nat.sub_diag.
      * intros j q Hj. destruct (decide (j < length pre)) as [Hjl|Hjl].
        -- rewrite lookup_app_l in Hj by exact Hjl.
           apply Qle_trans with best; [eauto | now apply Qlt_le_weak].
        -- rewrite lookup_app_r in Hj by lia.
           destruct (j - length pre) as [|n]; simpl in Hj; [|discriminate].
           injection Hj as <-. apply Qle_refl.
      * intros j q Hjl Hj. rewrite lookup_app_l in Hj by exact Hjl.
        apply Qle_lt_trans with best; eauto.
    + apply Qltb_ge in E.
      assert (Hbi : besti < length pre) by (eapply lookup_lt_Some; eauto).
      apply IH.
      * now rewrite lookup_app_l.
      * intros j q Hj. destruct (decide (j < length pre)) as [Hjl|Hjl].
        -- rewrite lookup_app_l in Hj by exact Hjl. eauto.
        -- rewrite lookup_app_r in Hj by lia.
           destruct (j - length pre) as [|n]; simpl in Hj; [|discriminate].
           now injection Hj as <-.
      * intros j q Hjl Hj. rewrite lookup_app_l in Hj by lia. eauto.
Qed.

(** [argmax] is the first position of the greatest rating, and [max] is
    the rating found there. *)
Lemma np_argmax_first_max (rs : list Q) :
  rs <> [] ->
  exists k r,
    np_argmax rs = Res k /\ np_max rs = Res r /\ rs !! k = Some r
    /\ (forall j q, rs !! j = Some q -> (q <= r)%Q)
    /\ (forall j q, j < k -> rs !! j = Some q -> (q < r)%Q).
Proof.
  destruct rs as [|x t]; [congruence|]. intros _.
  exists (argmax_from x 0 1 t), (max_from x t).
  split; [reflexivity|]. split; [reflexivity|].
  apply (argmax_from_scan t [x] x 0).
  - reflexivity.
  - intros [|j] q Hj; simpl in Hj; [|discriminate].
    injection Hj as <-. apply Qle_refl.
  - intros j q Hj. lia.
Qed.

(** ** [list.remove] *)

Lemma existsb_eqb_In (x : Z) (l : list Z) :
  existsb (Z.eqb x) l = true <-> In x l.
Proof.
  rewrite existsb_exists. split.
  - intros (y & Hy & E). apply Z.eqb_eq in E. now subst.
  - intros H. exists x. split; [exact H | apply Z.eqb_refl].
Qed.

Lemma remove_first_perm (x : Z) (l : list Z) :
  In x l -> Permutation (x :: remove_first x l) l.
Proof.
  induction l as [|y t IH]; simpl; [tauto|].
  intros H. destruct (x =? y)%Z eqn:E.
  - apply Z.eqb_eq in E. now subst.
  - apply Z.eqb_neq in E. destruct H as [H|H]; [congruence|].
    rewrite perm_swap. constructor. auto.
Qed.

Lemma remove_first_length (x : Z) (l : list Z) :
  In x l -> S (length (remove_first x l)) = length l.
Proof.
  intros H. apply remove_first_perm in H.
  apply Permutation_length in H. exact H.
Qed.

Section Frames.

Context {C : Collaborators}.

(** ** Reasoning about computations *)

Lemma bind_inv {A B} (m : M A) (k : A -> M B) (w w' : world) (out : outcome B) :
  bind m k w = (w', out) ->
  (exists w1 a, m w = (w1, Ok a) /\ k a w1 = (w', out))
  \/ (exists e, m w = (w', Raise e) /\ out = Raise e)
  \/ (m w = (w', Diverge) /\ out = Diverge).
Proof.
  unfold bind. destruct (m w) as [w1 [a|e|]]; intros H.
  - left. eauto.
  - right. left. injection H as <- <-. eauto.
  - right. right. injection H as <- <-. eauto.
Qed.

Lemma bind_ok_inv {A B} (m : M A) (k : A -> M B) (w w' : world) (b : B) :
  bind m k w = (w', Ok b) ->
  exists w1 a, m w = (w1, Ok a) /\ k a w1 = (w', Ok b).
Proof.
  intros H. apply bind_inv in H as [H | [(e & _ & H) | (_ & H)]];
    [exact H | discriminate | discriminate].
Qed.

Lemma bind_ok {A B} (m : M A) (k : A -> M B) (w w1 : world) (a : A) :
  m w = (w1, Ok a) -> bind m k w = k a w1.
Proof. unfold bind. now intros ->. Qed.

Lemma bind_raise {A B} (m : M A) (k : A -> M B) (w w1 : world) (e : exn) :
  m w = (w1, Raise e) -> bind m k w = (w1, Raise e).
Proof. unfold bind. now intros ->. Qed.

Lemma heap_frame_refl (n : nat) (h : list pyobj) : heap_frame n h h.
Proof. split; auto. Qed.

Lemma heap_frame_trans (n : nat) (h1 h2 h3 : list pyobj) :
  heap_frame n h1 h2 -> heap_frame n h2 h3 -> heap_frame n h1 h3.
Proof.
  intros [L1 F1] [L2 F2]. split; [lia|].
  intros l Hl. rewrite F2, F1; auto.
Qed.

Lemma heap_frame_le (n n' : nat) (h h' : list pyobj) :
  n' <= n -> heap_frame n h h' -> heap_frame n' h h'.
Proof. intros Hn [L F]. split; [exact L|]. intros l Hl. apply F. lia. Qed.

Lemma heap_frame_app (n : nat) (h ext : list pyobj) :
  n <= length h -> heap_frame n h (h ++ ext).
Proof.
  intros Hn. split; [rewrite length_app; lia|].
  intros l Hl. apply lookup_app_l. lia.
Qed.

Lemma heap_frame_insert (n l : nat) (o : pyobj) (h : list pyobj) :
  n <= l -> heap_frame n h (<[l:=o]> h).
Proof.
  intros Hn. split; [rewrite length_insert; lia|].
  intros l' Hl. apply list_lookup_insert_ne. lia.
Qed.

Lemma heap_frame_lookup (h h' : list pyobj) (l : nat) (o : pyobj) :
  heap_frame (length h) h h' -> h !! l = Some o -> h' !! l = Some o.
Proof.
  intros [_ F] H. rewrite F; [exact H|]. eapply lookup_lt_Some; eauto.
Qed.

Section Rules.

Variable R : relation IncrementalFeatureSearch.
Hypothesis R_pre : PreOrder R.
Variable n : nat.

Lemma framed_same {A} (m : M A) :
  (forall w w' out, m w = (w', out) -> w' = w) -> framed R n m.
Proof.
  intros H w w' out _ E. apply H in E as ->.
  split; [reflexivity | apply heap_frame_refl].
Qed.

Lemma framed_ret {A} (a : A) : framed R n (ret a).
Proof. apply framed_same. unfold ret. now intros w w' out [= <- _]. Qed.

Lemma framed_raise {A} (e : exn) : framed R n (@raise _ A e).
Proof. apply framed_same. unfold raise. now intros w w' out [= <- _]. Qed.

Lemma framed_diverge {A} : framed R n (@diverge _ A).
Proof. apply framed_same. unfold diverge. now intros w w' out [= <- _]. Qed.

Lemma framed_lift {A} (r : result A) : framed R n (lift r).
Proof. apply framed_same. unfold lift. now intros w w' out [= <- _]. Qed.

Lemma framed_get_self : framed R n get_self.
Proof. apply framed_same. unfold get_self. now intros w w' out [= <- _]. Qed.

Lemma framed_deref (l : loc) : framed R n (deref l).
Proof.
  apply framed_same. unfold deref. intros w w' out.
  destruct (heap w !! l); now intros [= <- _].
Qed.

Lemma framed_alloc (o : pyobj) : framed R n (alloc o).
Proof.
  intros w w' out Hn. unfold alloc. intros [= <- _]. simpl.
  split; [reflexivity | now apply heap_frame_app].
Qed.

Lemma framed_store (l : loc) (o : pyobj) : n <= l -> framed R n (store l o).
Proof.
  intros Hl w w' out Hn. unfold store. intros [= <- _]. simpl.
  split; [reflexivity | now apply heap_frame_insert].
Qed.

Lemma framed_bind_post {A B} (P : A -> Prop) (m : M A) (k : A -> M B) :
  (forall w w1 a, n <= length (heap w) -> m w = (w1, Ok a) -> P a) ->
  framed R n m -> (forall a, P a -> framed R n (k a)) ->
  framed R n (bind m k).
Proof.
  intros HP Hm Hk w w' out Hn E.
  apply bind_inv in E as [(w1 & a & E1 & E2) | [(e & E1 & _) | (E1 & _)]].
  - destruct (Hm _ _ _ Hn E1) as [R1 F1].
    assert (Hn1 : n <= length (heap w1)) by (destruct F1; lia).
    destruct (Hk a (HP _ _ _ Hn E1) _ _ _ Hn1 E2) as [R2 F2].
    split; [etransitivity; eauto | eapply heap_frame_trans; eauto].
  - eapply Hm; eauto.
  - eapply Hm; eauto.
Qed.

Lemma framed_bind {A B} (m : M A) (k : A -> M B) :
  framed R n m -> (forall a, framed R n (k a)) -> framed R n (bind m k).
Proof.
  intros Hm Hk. apply (framed_bind_post (fun _ => True)); auto.
Qed.

Lemma framed_modify (f : IncrementalFeatureSearch -> IncrementalFeatureSearch) :
  (forall s, R s (f s)) ->
  framed R n (bind get_self (fun self => set_self (f self))).
Proof.
  intros Hf w w' out _. unfold bind, get_self, set_self. intros [= <- _].
  simpl. split; [apply Hf | apply heap_frame_refl].
Qed.

Lemma framed_mapM {A B} (f : A -> M B) (l : list A) :
  (forall a, framed R n (f a)) -> framed R n (mapM f l).
Proof.
  intros Hf. induction l as [|x t IH]; simpl.
  - apply framed_ret.
  - apply framed_bind; [apply Hf|]. intros y.
    apply framed_bind; [exact IH|]. intros ys. apply framed_ret.
Qed.

End Rules.

Lemma framed_weaken {A} (R : relation IncrementalFeatureSearch) (n : nat)
    (m : M A) :
  Reflexive R -> framed eq n m -> framed R n m.
Proof.
  intros HR Hm w w' out Hn E. destruct (Hm _ _ _ Hn E) as [<- F].
  split; [reflexivity | exact F].
Qed.

End Frames.

Section Selection.

Context {C : Collaborators}.

Lemma selectByFeatureId_run (selected : loc) (candidate : Z) (w : world) :
  __selectByFeatureId selected candidate w =
  match heap w !! selected with
  | Some (PyList items) =>
      (World (heap w ++ [PyList (items ++ [candidate])]) (this w),
       Ok (length (heap w)))
  | Some _ => (w, Raise (TypeError "can only concatenate list to list"))
  | None => (w, Raise (Exn "ReferenceError" "no such object"))
  end.
Proof.
  unfold __selectByFeatureId, bind, deref, lift, alloc.
  destruct (heap w !! selected) as [[items|a|a]|]; reflexivity.
Qed.

Lemma selectByMaskValue_run (selected : loc) (candidate : Z) (w : world) :
  __selectByMaskValue selected candidate w =
  match heap w !! selected, heap w !! __mask (this w) with
  | Some s, Some m =>
      match rbind (np_eq_scalar m candidate) (np_logical_or s) with
      | Res r => (World (heap w ++ [r]) (this w), Ok (length (heap w)))
      | Err e => (w, Raise e)
      end
  | _, _ => (w, Raise (Exn "ReferenceError" "no such object"))
  end.
Proof.
  unfold __selectByMaskValue, bind, deref, lift, alloc, get_self.
  destruct (heap w !! selected) as [s|]; [|reflexivity].
  destruct (heap w !! __mask (this w)) as [m|]; [|reflexivity].
  unfold rbind. destruct (np_eq_scalar m candidate) as [e|e]; [|reflexivity].
  destruct (np_logical_or s e); reflexivity.
Qed.

Lemma strategy_allocates (featureselector : loc -> Z -> M loc) :
  is_strategy featureselector -> allocates_only featureselector.
Proof.
  intros [|] selected candidate w.
  - rewrite selectByFeatureId_run.
    destruct (heap w !! selected) as [[items|a|a]|]; eauto.
  - rewrite selectByMaskValue_run.
    destruct (heap w !! selected) as [s|]; [|eauto].
    destruct (heap w !! __mask (this w)) as [m|]; [|eauto].
    destruct (rbind (np_eq_scalar m candidate) (np_logical_or s)); eauto.
Qed.

Lemma allocates_framed (featureselector : loc -> Z -> M loc) (n : nat)
    (selected : loc) (candidate : Z) :
  allocates_only featureselector ->
  framed eq n (featureselector selected candidate).
Proof.
  intros H w w' out Hn E.
  destruct (H selected candidate w) as [(e & E') | (o & E')];
    rewrite E' in E; injection E as <- _; simpl.
  - split; [reflexivity | apply heap_frame_refl].
  - split; [reflexivity | now apply heap_frame_app].
Qed.

(** ** Frames of the inner search *)

Lemma framed_read_list (R : relation IncrementalFeatureSearch) (n : nat)
    (l : loc) :
  PreOrder R -> framed R n (read_list l).
Proof.
  intros HR. unfold read_list.
  apply framed_bind; [exact HR | apply framed_deref; exact HR|].
  intros o. apply framed_lift; exact HR.
Qed.

Lemma framed_read_array (R : relation IncrementalFeatureSearch) (n : nat)
    (l : loc) :
  PreOrder R -> framed R n (read_array l).
Proof.
  intros HR. unfold read_array.
  apply framed_bind; [exact HR | apply framed_deref; exact HR|].
  intros o. apply framed_lift; exact HR.
Qed.

End Selection.

Ltac framed_step :=
  lazymatch goal with
  | |- framed _ _ (bind _ _) => apply framed_bind; [exact _ | | intros ?]
  | |- framed _ _ (ret _) => apply framed_ret; exact _
  | |- framed _ _ (raise _) => apply framed_raise; exact _
  | |- framed _ _ diverge => apply framed_diverge; exact _
  | |- framed _ _ (lift _) => apply framed_lift; exact _
  | |- framed _ _ get_self => apply framed_get_self; exact _
  | |- framed _ _ (deref _) => apply framed_deref; exact _
  | |- framed _ _ (alloc _) => apply framed_alloc; exact _
  | |- framed _ _ (read_list _) => apply framed_read_list; exact _
  | |- framed _ _ (read_array _) => apply framed_read_array; exact _
  end.

Section InnerFrames.

Context {C : Collaborators}.

Lemma framed_doCrossValidation (n : nat) (pattern : Pattern)
    (clf : Classifier) (clfargs : ClfArgs) :
  framed eq n (__doCrossValidation pattern clf clfargs).
Proof. unfold __doCrossValidation. repeat framed_step. Qed.

Lemma framed_rate_candidates (n : nat) (pattern : Pattern) (clf : Classifier)
    (clfargs : ClfArgs) (featureselector : loc -> Z -> M loc)
    (selected : loc) (cands : list Z) (candidate_rating : list Q) :
  allocates_only featureselector ->
  framed eq n (rate_candidates pattern clf clfargs featureselector selected
                 cands candidate_rating).
Proof.
  intros Hfs. revert candidate_rating.
  induction cands as [|c rest IH]; intros acc; simpl.
  - framed_step.
  - apply framed_bind; [exact _ | now apply allocates_framed |]. intros features.
    repeat framed_step; [apply framed_doCrossValidation | apply IH].
Qed.

Lemma framed_choose_best (n : nat) (featureselector : loc -> Z -> M loc)
    (feat_cand : loc) (candidate_rating : list Q) (st : search_state) :
  allocates_only featureselector -> n <= feat_cand ->
  framed eq n (choose_best featureselector feat_cand candidate_rating st).
Proof.
  intros Hfs Hn. unfold choose_best. repeat framed_step.
  destruct (Qltb _ _); [framed_step|].
  apply framed_bind; [exact _ | now apply allocates_framed |]. intros sel.
  repeat framed_step. apply framed_store; [exact _ | exact Hn].
Qed.

Lemma framed_while_candidates (n fuel : nat) (pattern : Pattern)
    (clf : Classifier) (clfargs : ClfArgs)
    (featureselector : loc -> Z -> M loc) (feat_cand : loc)
    (st : search_state) :
  allocates_only featureselector -> n <= feat_cand ->
  framed eq n (while_candidates fuel pattern clf clfargs featureselector
                 feat_cand st).
Proof.
  intros Hfs Hn. revert st. induction fuel as [|fuel IH]; intros st; simpl.
  - repeat framed_step. destruct (_ =? _); framed_step.
  - repeat framed_step. destruct (_ =? _); [framed_step|].
    apply framed_bind; [exact _ | now apply framed_rate_candidates |].
    intros rs.
    apply framed_bind; [exact _ | now apply framed_choose_best |].
    intros [|st']; [framed_step | apply IH].
Qed.

Lemma copy_copy_fresh (l : loc) (w w1 : world) (a : loc) :
  copy_copy l w = (w1, Ok a) ->
  a = length (heap w) /\ exists o, heap w !! l = Some o
    /\ w1 = World (heap w ++ [o]) (this w).
Proof.
  unfold copy_copy, bind, deref, alloc.
  destruct (heap w !! l) as [o|]; [|discriminate].
  intros [= <- <-]. eauto.
Qed.

Lemma framed_copy_copy (n : nat) (l : loc) : framed eq n (copy_copy l).
Proof. unfold copy_copy. repeat framed_step. Qed.

(** The inner search leaves every object that exists at its start as it
    is, and does not touch [self]. *)
Lemma framed_doSelection (pattern : Pattern) (clf : Classifier)
    (clfargs : ClfArgs) (featureselector : loc -> Z -> M loc)
    (selected candidates : loc) (w w' : world) (out : outcome (loc * list Z)) :
  allocates_only featureselector ->
  __doSelection pattern clf clfargs featureselector selected candidates w
    = (w', out) ->
  this w' = this w /\ heap_frame (length (heap w)) (heap w) (heap w').
Proof.
  intros Hfs E.
  assert (F : framed eq (length (heap w))
                (__doSelection pattern clf clfargs featureselector selected
                   candidates)).
  { unfold __doSelection.
    apply (framed_bind_post eq _ (length (heap w))
             (fun a => length (heap w) <= a)).
    - intros w0 w1 a Hn E1. apply copy_copy_fresh in E1 as [-> _]. exact Hn.
    - apply framed_copy_copy.
    - intros fc Hfc. unfold len. repeat framed_step.
      { now apply framed_while_candidates. } }
  destruct (F w w' out) as [Hs Hf]; auto.
Qed.

End InnerFrames.

Section Rounds.

Context {C : Collaborators}.

Lemma read_list_run (l : loc) (w : world) :
  read_list l w =
  match heap w !! l with
  | Some (PyList items) => (w, Ok items)
  | Some _ => (w, Raise (TypeError "object is not a list"))
  | None => (w, Raise (Exn "ReferenceError" "no such object"))
  end.
Proof.
  unfold read_list, bind, deref, lift.
  destruct (heap w !! l) as [[items|a|a]|]; reflexivity.
Qed.

(** ** One round of the greedy search *)

(** What lines 205 to 229 compute, given the winner [b] at position [k]
    and its rating [r]. *)
Lemma choose_best_run (featureselector : loc -> Z -> M loc) (feat_cand : loc)
    (rs : list Q) (st : search_state) (w : world) (pool : list Z)
    (k : nat) (b : Z) (r : Q) :
  heap w !! feat_cand = Some (PyList pool) ->
  np_argmax rs = Res k -> np_max rs = Res r -> pool !! k = Some b ->
  choose_best featureselector feat_cand rs st w =
  if Qltb (r - st_best_performance_ever st) (__break_crit (this w))
  then (w, Ok Break)
  else
    match featureselector (st_selected st) b w with
    | (w1, Ok sel) =>
        match read_list feat_cand w1 with
        | (_, Ok pool1) =>
            if existsb (Z.eqb b) pool1
            then (World (<[feat_cand:=PyList (remove_first b pool1)]> (heap w1))
                    (this w1),
                  Ok (Continue (SearchState sel (st_best_ids st ++ [b]) r
                                  (st_selection_counter st + 1))))
            else (w1, Raise (ValueError "list.remove(x): x not in list"))
        | (_, Raise e) => (w1, Raise e)
        | (_, Diverge) => (w1, Diverge)
        end
    | (w1, Raise e) => (w1, Raise e)
    | (w1, Diverge) => (w1, Diverge)
    end.
Proof.
  intros Hfc Hk Hr Hb.
  unfold choose_best, bind at 1, lift at 1. rewrite Hk.
  unfold bind at 1. rewrite read_list_run, Hfc.
  unfold bind at 1, lift at 1, list_getitem. rewrite Hb.
  unfold bind at 1, lift at 1. rewrite Hr.
  unfold bind at 1, get_self.
  destruct (Qltb _ _); [reflexivity|].
  unfold bind at 1.
  destruct (featureselector (st_selected st) b w) as [w1 [sel|e|]];
    [|reflexivity|reflexivity].
  unfold bind at 1. rewrite read_list_run.
  destruct (heap w1 !! feat_cand) as [[pool1|a|a]|]; try reflexivity.
  unfold bind at 1, lift at 1, list_remove.
  destruct (existsb (Z.eqb b) pool1); [|reflexivity].
  reflexivity.
Qed.

Lemma rate_candidates_length (pattern : Pattern) (clf : Classifier)
    (clfargs : ClfArgs) (featureselector : loc -> Z -> M loc)
    (selected : loc) (cands : list Z) (acc rs : list Q) (w w' : world) :
  rate_candidates pattern clf clfargs featureselector selected cands acc w
    = (w', Ok rs) ->
  length rs = length acc + length cands.
Proof.
  revert acc w. induction cands as [|c rest IH]; intros acc w; simpl.
  - unfold ret. intros [= _ <-]. lia.
  - intros E.
    apply bind_ok_inv in E as (w1 & features & _ & E).
    apply bind_ok_inv in E as (w2 & fobj & _ & E).
    apply bind_ok_inv in E as (w3 & temp_pat & _ & E).
    apply bind_ok_inv in E as (w4 & cv_perf & _ & E).
    apply IH in E. rewrite length_app in E. simpl in E. lia.
Qed.

(** ** Termination *)

Lemma terminates_bind {A B} (m : M A) (k : A -> M B) :
  terminates m -> (forall a, terminates (k a)) -> terminates (bind m k).
Proof.
  intros Hm Hk w. unfold bind. specialize (Hm w).
  destruct (m w) as [w1 [a|e|]]; simpl in *; [apply Hk | discriminate | congruence].
Qed.

Lemma terminates_ret {A} (a : A) : terminates (ret a).
Proof. intros w. discriminate. Qed.

Lemma terminates_lift {A} (r : result A) : terminates (lift r).
Proof. intros w. unfold lift. simpl. destruct r; discriminate. Qed.

Lemma terminates_get_self : terminates get_self.
Proof. intros w. discriminate. Qed.

Lemma terminates_alloc (o : pyobj) : terminates (alloc o).
Proof. intros w. discriminate. Qed.

Lemma terminates_store (l : loc) (o : pyobj) : terminates (store l o).
Proof. intros w. discriminate. Qed.

Lemma terminates_deref (l : loc) : terminates (deref l).
Proof. intros w. unfold deref. destruct (heap w !! l); discriminate. Qed.

Lemma terminates_modify (f : IncrementalFeatureSearch -> IncrementalFeatureSearch) :
  terminates (bind get_self (fun self => set_self (f self))).
Proof. intros w. discriminate. Qed.

Lemma terminates_mapM {A B} (f : A -> M B) (l : list A) :
  (forall a, terminates (f a)) -> terminates (mapM f l).
Proof.
  intros Hf. induction l as [|x t IH]; simpl.
  - apply terminates_ret.
  - apply terminates_bind; [apply Hf|]. intros y.
    apply terminates_bind; [exact IH|]. intros ys. apply terminates_ret.
Qed.

End Rounds.

Ltac terminates_step :=
  lazymatch goal with
  | |- terminates (bind get_self (fun self => set_self _)) =>
      apply terminates_modify
  | |- terminates (bind _ _) => apply terminates_bind; [|intros ?]
  | |- terminates (ret _) => apply terminates_ret
  | |- terminates (lift _) => apply terminates_lift
  | |- terminates get_self => apply terminates_get_self
  | |- terminates (deref _) => apply terminates_deref
  | |- terminates (alloc _) => apply terminates_alloc
  | |- terminates (store _ _) => apply terminates_store
  | |- terminates (read_list _) => unfold read_list
  | |- terminates (read_array _) => unfold read_array
  | |- terminates (copy_copy _) => unfold copy_copy
  | |- terminates (len _) => unfold len
  | |- terminates (__doCrossValidation _ _ _) => unfold __doCrossValidation
  end.

Section RoundsEnd.

Context {C : Collaborators}.

Lemma allocates_terminates (featureselector : loc -> Z -> M loc)
    (selected : loc) (candidate : Z) :
  allocates_only featureselector ->
  terminates (featureselector selected candidate).
Proof.
  intros H w. destruct (H selected candidate w) as [(e & ->) | (o & ->)];
    discriminate.
Qed.

Lemma terminates_rate_candidates (pattern : Pattern) (clf : Classifier)
    (clfargs : ClfArgs) (featureselector : loc -> Z -> M loc)
    (selected : loc) (cands : list Z) (acc : list Q) :
  allocates_only featureselector ->
  terminates (rate_candidates pattern clf clfargs featureselector selected
                cands acc).
Proof.
  intros Hfs. revert acc. induction cands as [|c rest IH]; intros acc; simpl.
  - terminates_step.
  - apply terminates_bind; [now apply allocates_terminates|]. intros features.
    repeat terminates_step. apply IH.
Qed.

Lemma terminates_choose_best (featureselector : loc -> Z -> M loc)
    (feat_cand : loc) (rs : list Q) (st : search_state) :
  allocates_only featureselector ->
  terminates (choose_best featureselector feat_cand rs st).
Proof.
  intros Hfs. unfold choose_best. repeat terminates_step.
  destruct (Qltb _ _); [terminates_step|].
  apply terminates_bind; [now apply allocates_terminates|]. intros sel.
  repeat terminates_step.
Qed.

End RoundsEnd.

Section Loop.

Context {C : Collaborators}.

Lemma lookup_In (l : list Z) (k : nat) (x : Z) : l !! k = Some x -> In x l.
Proof.
  intros H. apply list_elem_of_In. eapply list_elem_of_lookup_2; eauto.
Qed.

(** The three ways a round can end, for a merge function that only
    allocates. *)
Lemma choose_best_cases (featureselector : loc -> Z -> M loc)
    (feat_cand : loc) (rs : list Q) (st : search_state) (w : world)
    (pool : list Z) :
  allocates_only featureselector ->
  heap w !! feat_cand = Some (PyList pool) -> pool <> [] ->
  length rs = length pool ->
  choose_best featureselector feat_cand rs st w = (w, Ok Break)
  \/ (exists e, choose_best featureselector feat_cand rs st w = (w, Raise e))
  \/ (exists b o r,
        In b pool
        /\ featureselector (st_selected st) b w
           = (World (heap w ++ [o]) (this w), Ok (length (heap w)))
        /\ choose_best featureselector feat_cand rs st w
           = (World (<[feat_cand:=PyList (remove_first b pool)]> (heap w ++ [o]))
                (this w),
              Ok (Continue (SearchState (length (heap w)) (st_best_ids st ++ [b])
                              r (st_selection_counter st + 1))))).
Proof.
  intros Hfs Hfc Hne Hlen.
  destruct (np_argmax_first_max rs) as (k & r & Hk & Hr & Hkr & _).
  { intros ->. destruct pool; [congruence | discriminate]. }
  assert (Hkl : k < length pool).
  { rewrite <- Hlen. eapply lookup_lt_Some; eauto. }
  destruct (lookup_lt_is_Some_2 pool k Hkl) as [b Hb].
  rewrite (choose_best_run _ _ _ _ _ pool k b r Hfc Hk Hr Hb).
  destruct (Qltb _ _); [now left|]. right.
  destruct (Hfs (st_selected st) b w) as [(e & ->) | (o & E)].
  - left. eauto.
  - right. exists b, o, r. rewrite E.
    assert (Hin : In b pool) by (eapply lookup_In; eauto).
    split; [exact Hin|]. split; [reflexivity|].
    rewrite read_list_run. cbn [heap this].
    rewrite lookup_app_l by (eapply lookup_lt_Some; eauto). rewrite Hfc.
    apply existsb_eqb_In in Hin. now rewrite Hin.
Qed.

Lemma while_candidates_step (fuel : nat) (pattern : Pattern)
    (clf : Classifier) (clfargs : ClfArgs)
    (featureselector : loc -> Z -> M loc) (feat_cand : loc)
    (st : search_state) (w : world) (pool : list Z) :
  heap w !! feat_cand = Some (PyList pool) ->
  while_candidates fuel pattern clf clfargs featureselector feat_cand st w =
  match pool, fuel with
  | [], _ => (w, Ok st)
  | _ :: _, 0 => (w, Diverge)
  | _ :: _, S fuel' =>
      bind (rate_candidates pattern clf clfargs featureselector
              (st_selected st) pool [])
        (fun rs =>
           bind (choose_best featureselector feat_cand rs st)
             (fun s =>
                match s with
                | Break => ret st
                | Continue st' =>
                    while_candidates fuel' pattern clf clfargs
                      featureselector feat_cand st'
                end)) w
  end.
Proof.
  intros Hfc.
  destruct fuel; simpl; unfold bind at 1; rewrite read_list_run, Hfc;
    destruct pool; reflexivity.
Qed.

(** A rule for the [while] loop: a property of the loop variables and
    the local pool that survives the allocation of trial objects and
    every accepted candidate holds when the loop returns. *)
Lemma while_candidates_invariant
    (I : world -> search_state -> list Z -> Prop)
    (pattern : Pattern) (clf : Classifier) (clfargs : ClfArgs)
    (featureselector : loc -> Z -> M loc) (feat_cand : loc) :
  allocates_only featureselector ->
  (forall w w' st pool,
      I w st pool -> this w' = this w ->
      heap_frame (length (heap w)) (heap w) (heap w') -> I w' st pool) ->
  (forall w st pool b o r,
      heap w !! feat_cand = Some (PyList pool) -> I w st pool -> In b pool ->
      featureselector (st_selected st) b w
        = (World (heap w ++ [o]) (this w), Ok (length (heap w))) ->
      I (World (<[feat_cand:=PyList (remove_first b pool)]> (heap w ++ [o]))
           (this w))
        (SearchState (length (heap w)) (st_best_ids st ++ [b]) r
           (st_selection_counter st + 1))
        (remove_first b pool)) ->
  forall fuel w st pool w' st',
    heap w !! feat_cand = Some (PyList pool) -> I w st pool ->
    while_candidates fuel pattern clf clfargs featureselector feat_cand st w
      = (w', Ok st') ->
    exists pool', heap w' !! feat_cand = Some (PyList pool') /\ I w' st' pool'.
Proof.
  intros Hfs Hstable Haccept.
  induction fuel as [|fuel IH]; intros w st pool w' st' Hfc HI E;
    rewrite (while_candidates_step _ _ _ _ _ _ _ _ pool Hfc) in E;
    destruct pool as [|c pool0] eqn:Epool.
  - injection E as <- <-. eauto.
  - discriminate.
  - injection E as <- <-. eauto.
  - rewrite <- Epool in *.
    apply bind_ok_inv in E as (w1 & rs & E1 & E).
    apply bind_ok_inv in E as (w2 & s & E2 & E).
    destruct (framed_rate_candidates (length (heap w)) _ _ _ _ _ _ _ Hfs
                _ _ _ (le_n _) E1) as [Hs1 Hf1].
    pose proof (heap_frame_lookup _ _ _ _ Hf1 Hfc) as Hfc1.
    apply rate_candidates_length in E1. simpl in E1.
    assert (HI1 : I w1 st pool) by (apply (Hstable w); auto).
    destruct (choose_best_cases featureselector feat_cand rs st w1 pool)
      as [Eb | [(e & Ee) | (b & o & r & Hin & Efs & Ec)]]; auto.
    + subst pool. discriminate.
    + rewrite Eb in E2. injection E2 as <- <-.
      unfold ret in E. injection E as <- <-. eauto.
    + rewrite Ee in E2. discriminate.
    + rewrite Ec in E2. injection E2 as <- <-.
      apply (IH _ _ (remove_first b pool) _ _) in E; [exact E| |].
      * simpl. apply list_lookup_insert_eq. rewrite length_app.
        apply lookup_lt_Some in Hfc1. lia.
      * now apply Haccept.
Qed.

(** With as much fuel as the pool has candidates the loop comes to an
    end. *)
Lemma while_candidates_terminates (pattern : Pattern) (clf : Classifier)
    (clfargs : ClfArgs) (featureselector : loc -> Z -> M loc)
    (feat_cand : loc) :
  allocates_only featureselector ->
  forall fuel w st pool,
    heap w !! feat_cand = Some (PyList pool) -> length pool <= fuel ->
    snd (while_candidates fuel pattern clf clfargs featureselector feat_cand
           st w) <> Diverge.
Proof.
  intros Hfs.
  induction fuel as [|fuel IH]; intros w st pool Hfc Hlen;
    rewrite (while_candidates_step _ _ _ _ _ _ _ _ pool Hfc);
    destruct pool as [|c pool0] eqn:Epool; try discriminate.
  - simpl in Hlen. lia.
  - rewrite <- Epool in *. unfold bind at 1.
    pose proof (terminates_rate_candidates pattern clf clfargs featureselector
                  (st_selected st) pool [] Hfs w) as T1.
    destruct (rate_candidates _ _ _ _ _ pool [] w) as [w1 [rs|e|]] eqn:E1;
      [|discriminate|simpl in T1; congruence].
    destruct (framed_rate_candidates (length (heap w)) _ _ _ _ _ _ _ Hfs
                _ _ _ (le_n _) E1) as [Hs1 Hf1].
    pose proof (heap_frame_lookup _ _ _ _ Hf1 Hfc) as Hfc1.
    apply rate_candidates_length in E1. simpl in E1.
    unfold bind at 1.
    destruct (choose_best_cases featureselector feat_cand rs st w1 pool)
      as [Eb | [(e & Ee) | (b & o & r & Hin & Efs & Ec)]]; auto.
    + subst pool. discriminate.
    + rewrite Eb. discriminate.
    + rewrite Ee. discriminate.
    + rewrite Ec. apply IH with (pool := remove_first b pool).
      * simpl. apply list_lookup_insert_eq. rewrite length_app.
        apply lookup_lt_Some in Hfc1. lia.
      * apply remove_first_length in Hin. subst pool. simpl in *. lia.
Qed.

(** What [__doSelection] does before the loop: the pool is copied to a
    new object, which the loop then works on. *)
Lemma doSelection_run (pattern : Pattern) (clf : Classifier)
    (clfargs : ClfArgs) (featureselector : loc -> Z -> M loc)
    (selected candidates : loc) (w : world) :
  __doSelection pattern clf clfargs featureselector selected candidates w =
  match heap w !! candidates with
  | Some (PyList pool) =>
      bind (while_candidates (length pool) pattern clf clfargs featureselector
              (length (heap w)) (SearchState selected [] 0%Q 0))
        (fun st => ret (st_selected st, st_best_ids st))
        (World (heap w ++ [PyList pool]) (this w))
  | Some o =>
      (World (heap w ++ [o]) (this w),
       Raise (TypeError "object is not a list"))
  | None => (w, Raise (Exn "ReferenceError" "no such object"))
  end.
Proof.
  unfold __doSelection, bind at 1, copy_copy, bind at 1, deref.
  destruct (heap w !! candidates) as [o|]; [|reflexivity].
  unfold alloc, bind at 1, len, bind at 1. rewrite read_list_run. simpl.
  rewrite lookup_app_r by lia. rewrite Nat.sub_diag. simpl.
  destruct o; reflexivity.
Qed.

Lemma doSelection_terminates (pattern : Pattern) (clf : Classifier)
    (clfargs : ClfArgs) (featureselector : loc -> Z -> M loc)
    (selected candidates : loc) :
  allocates_only featureselector ->
  terminates (__doSelection pattern clf clfargs featureselector selected
                candidates).
Proof.
  intros Hfs w. rewrite doSelection_run.
  destruct (heap w !! candidates) as [[pool|a|a]|]; try discriminate.
  unfold bind.
  pose proof (while_candidates_terminates pattern clf clfargs featureselector
                (length (heap w)) Hfs (length pool)
                (World (heap w ++ [PyList pool]) (this w))
                (SearchState selected [] 0%Q 0) pool) as T.
  destruct (while_candidates _ _ _ _ _ _ _ _) as [w1 [st|e|]];
    try discriminate.
  exfalso. apply T; [|lia|reflexivity]. simpl. rewrite lookup_app_r by lia.
  now rewrite Nat.sub_diag.
Qed.

(** The rule of the loop, for a whole inner search that returns. *)
Lemma doSelection_invariant
    (I : world -> search_state -> list Z -> Prop)
    (pattern : Pattern) (clf : Classifier) (clfargs : ClfArgs)
    (featureselector : loc -> Z -> M loc) (selected candidates : loc)
    (w w' : world) (pool : list Z) (r : loc) (ids : list Z) :
  allocates_only featureselector ->
  (forall w w' st pool,
      I w st pool -> this w' = this w ->
      heap_frame (length (heap w)) (heap w) (heap w') -> I w' st pool) ->
  (forall w0 st pool b o q,
      heap w0 !! length (heap w) = Some (PyList pool) -> I w0 st pool ->
      In b pool ->
      featureselector (st_selected st) b w0
        = (World (heap w0 ++ [o]) (this w0), Ok (length (heap w0))) ->
      I (World (<[length (heap w):=PyList (remove_first b pool)]>
                  (heap w0 ++ [o])) (this w0))
        (SearchState (length (heap w0)) (st_best_ids st ++ [b]) q
           (st_selection_counter st + 1))
        (remove_first b pool)) ->
  heap w !! candidates = Some (PyList pool) ->
  I (World (heap w ++ [PyList pool]) (this w)) (SearchState selected [] 0%Q 0)
    pool ->
  __doSelection pattern clf clfargs featureselector selected candidates w
    = (w', Ok (r, ids)) ->
  exists st' pool',
    I w' st' pool' /\ st_selected st' = r /\ st_best_ids st' = ids.
Proof.
  intros Hfs Hstable Haccept Hc HI E.
  rewrite doSelection_run, Hc in E.
  apply bind_ok_inv in E as (w1 & st' & E & Er).
  unfold ret in Er. injection Er as <- <- <-.
  eapply while_candidates_invariant in E as (pool' & _ & HI'); eauto.
  simpl. rewrite lookup_app_r by lia. now rewrite Nat.sub_diag.
Qed.

End Loop.

Section Folds.

Context {C : Collaborators}.

(** ** The meta folds *)

(** One fold of the loop. *)
Lemma meta_folds_cons (clf : Classifier) (clfargs : ClfArgs)
    (featureselector : loc -> Z -> M loc) (selected candidates : loc)
    (exclude : list Z) (rest : list (list Z)) (cv_features : list loc)
    (cv_rois : list (list Z)) (w : world) :
  meta_folds clf clfargs featureselector selected candidates
    (exclude :: rest) cv_features cv_rois w =
  match splitTrainTestData (__pattern (this w)) exclude with
  | Err e => (w, Raise e)
  | Res (meta_train, meta_test) =>
      match __doSelection meta_train clf clfargs featureselector selected
              candidates w with
      | (w1, Ok (r, ids)) =>
          match heap w1 !! r with
          | None => (w1, Raise (Exn "ReferenceError" "no such object"))
          | Some sf =>
              match fold_accuracy (__pattern (this w1)) meta_test clf
                      clfargs sf with
              | Err e => (w1, Raise e)
              | Res acc =>
                  meta_folds clf clfargs featureselector selected candidates
                    rest (cv_features ++ [r]) (cv_rois ++ [ids])
                    (World (heap w1) (add_perf (this w1) acc))
              end
          end
      | (w1, Raise e) => (w1, Raise e)
      | (w1, Diverge) => (w1, Diverge)
      end
  end.
Proof.
  simpl. unfold bind at 1, get_self. unfold bind at 1, lift at 1.
  destruct (splitTrainTestData (__pattern (this w)) exclude)
    as [[meta_train meta_test]|e]; [|reflexivity].
  unfold bind at 1.
  destruct (__doSelection meta_train clf clfargs featureselector selected
              candidates w) as [w1 [[r ids]|e|]]; [|reflexivity|reflexivity].
  unfold bind at 1, get_self. unfold bind at 1, deref at 1.
  destruct (heap w1 !! r) as [sf|] eqn:Er; [|reflexivity].
  unfold fold_accuracy, rbind.
  unfold bind at 1, lift at 1.
  destruct (pat_selectFeatures (__pattern (this w1)) sf) as [bp|e];
    [|reflexivity].
  unfold bind at 1, deref at 1. rewrite Er.
  unfold bind at 1, lift at 1.
  destruct (pat_selectFeatures meta_test sf) as [tp|e]; [|reflexivity].
  unfold bind at 1, lift at 1.
  destruct (getClassification clf bp tp clfargs) as [p|e]; [|reflexivity].
  unfold bind at 1, lift at 1.
  destruct (np_eq_mean p (reg meta_test)) as [acc|e]; reflexivity.
Qed.

(** The folds run one after the other. *)
Lemma meta_folds_app (clf : Classifier) (clfargs : ClfArgs)
    (featureselector : loc -> Z -> M loc) (selected candidates : loc)
    (finished rest : list (list Z)) (cv_features : list loc)
    (cv_rois : list (list Z)) (w : world) :
  meta_folds clf clfargs featureselector selected candidates (finished ++ rest)
    cv_features cv_rois w =
  bind (meta_folds clf clfargs featureselector selected candidates finished
          cv_features cv_rois)
    (fun found =>
       meta_folds clf clfargs featureselector selected candidates rest
         (fst found) (snd found)) w.
Proof.
  revert cv_features cv_rois w.
  induction finished as [|exclude finished IH]; intros cvf cvr w.
  - reflexivity.
  - change ((exclude :: finished) ++ rest) with (exclude :: (finished ++ rest)).
    unfold bind. rewrite !meta_folds_cons.
    destruct (splitTrainTestData _ _) as [[mtr mte]|e]; [|reflexivity].
    destruct (__doSelection _ _ _ _ _ _ _) as [w1 [[r ids]|e|]];
      [|reflexivity|reflexivity].
    destruct (heap w1 !! r) as [sf|]; [|reflexivity].
    destruct (fold_accuracy _ _ _ _ _) as [acc|e]; [|reflexivity].
    rewrite IH. reflexivity.
Qed.

#[local] Instance same_config_preorder : PreOrder same_config.
Proof.
  split.
  - intros s. repeat split.
  - intros s1 s2 s3 (A1 & A2 & A3 & A4 & A5 & A6) (B1 & B2 & B3 & B4 & B5 & B6).
    repeat split; congruence.
Qed.

Lemma framed_doSelection_any (n : nat) (pattern : Pattern) (clf : Classifier)
    (clfargs : ClfArgs) (featureselector : loc -> Z -> M loc)
    (selected candidates : loc) :
  allocates_only featureselector ->
  framed eq n (__doSelection pattern clf clfargs featureselector selected
                 candidates).
Proof.
  intros Hfs w w' out Hn E.
  apply framed_doSelection in E as [Hs Hf]; [|exact Hfs].
  split; [now symmetry | eapply heap_frame_le; eauto].
Qed.

Lemma framed_meta_folds (n : nat) (clf : Classifier) (clfargs : ClfArgs)
    (featureselector : loc -> Z -> M loc) (selected candidates : loc)
    (origins : list (list Z)) (cv_features : list loc)
    (cv_rois : list (list Z)) :
  allocates_only featureselector ->
  framed same_config n
    (meta_folds clf clfargs featureselector selected candidates origins
       cv_features cv_rois).
Proof.
  intros Hfs. revert cv_features cv_rois.
  induction origins as [|exclude rest IH]; intros cvf cvr; simpl.
  - apply framed_ret; exact _.
  - apply framed_bind; [exact _ | apply framed_get_self; exact _ |].
    intros self.
    apply framed_bind; [exact _ | apply framed_lift; exact _ |].
    intros [meta_train meta_test].
    apply framed_bind; [exact _ | |].
    { apply framed_weaken; [exact _|]. now apply framed_doSelection_any. }
    intros [r ids].
    apply framed_bind; [exact _ | apply framed_get_self; exact _ |].
    intros self'.
    apply framed_bind; [exact _ | apply framed_deref; exact _ |]. intros sf.
    apply framed_bind; [exact _ | apply framed_lift; exact _ |]. intros bp.
    apply framed_bind; [exact _ | apply framed_deref; exact _ |]. intros sf'.
    apply framed_bind; [exact _ | apply framed_lift; exact _ |]. intros tp.
    apply framed_bind; [exact _ | apply framed_lift; exact _ |]. intros p.
    apply framed_bind; [exact _ | apply framed_lift; exact _ |]. intros acc.
    apply framed_bind; [exact _ | |].
    { apply framed_modify. intros s. repeat split. }
    intros _. apply IH.
Qed.

Lemma framed_doCVSelection (n : nat) (clf : Classifier) (clfargs : ClfArgs)
    (featureselector : loc -> Z -> M loc) (selected candidates : loc) :
  allocates_only featureselector ->
  framed same_config n
    (__doCVSelection clf clfargs featureselector selected candidates).
Proof.
  intros Hfs. unfold __doCVSelection.
  apply framed_bind; [exact _ | apply framed_get_self; exact _ |].
  intros self.
  apply framed_bind; [exact _ | apply framed_lift; exact _ |].
  intros origins.
  apply framed_bind; [exact _ | |].
  { apply framed_modify. intros s. repeat split. }
  intros _.
  apply framed_bind; [exact _ | apply framed_get_self; exact _ |].
  intros self'. now apply framed_meta_folds.
Qed.

Lemma framed_clearResults (n : nat) : framed same_config n __clearResults.
Proof. apply framed_modify. intros s. repeat split. Qed.

Lemma framed_set_selection_masks (n : nat) (m : list loc) :
  framed same_config n (set_selection_masks m).
Proof. apply framed_modify. intros s. repeat split. Qed.

Lemma framed_selectROIs (n : nat) (clf : Classifier) (kwargs : ClfArgs) :
  framed same_config n (selectROIs clf kwargs).
Proof.
  unfold selectROIs.
  apply framed_bind; [exact _ | apply framed_clearResults |]. intros _.
  apply framed_bind; [exact _ | apply framed_get_self; exact _ |].
  intros self.
  apply framed_bind; [exact _ | apply framed_read_array; exact _ |].
  intros m.
  apply framed_bind; [exact _ | apply framed_alloc; exact _ |].
  intros mask_values.
  apply framed_bind; [exact _ | apply framed_get_self; exact _ |].
  intros self'.
  apply framed_bind; [exact _ | apply framed_read_array; exact _ |].
  intros m'.
  apply framed_bind; [exact _ | apply framed_alloc; exact _ |].
  intros selected_features.
  apply framed_bind; [exact _ | |].
  { apply framed_doCVSelection, strategy_allocates. constructor. }
  intros [feature_mask selected_rois].
  apply framed_bind; [exact _ | apply framed_set_selection_masks |].
  intros _. apply framed_ret; exact _.
Qed.

Lemma framed_cand_features_of (n : nat) : framed same_config n cand_features_of.
Proof.
  unfold cand_features_of.
  apply framed_bind; [exact _ | apply framed_get_self; exact _ |].
  intros self.
  apply framed_bind; [exact _ | apply framed_read_array; exact _ |].
  intros m. apply framed_mapM; [exact _|]. intros coord.
  apply framed_lift; exact _.
Qed.

Lemma framed_selectFeatures (n : nat) (clf : Classifier) (kwargs : ClfArgs) :
  framed same_config n (selectFeatures clf kwargs).
Proof.
  unfold selectFeatures.
  apply framed_bind; [exact _ | apply framed_clearResults |]. intros _.
  apply framed_bind; [exact _ | apply framed_alloc; exact _ |].
  intros selected_features.
  apply framed_bind; [exact _ | apply framed_cand_features_of |].
  intros ids.
  apply framed_bind; [exact _ | apply framed_alloc; exact _ |].
  intros cand_features.
  apply framed_bind; [exact _ | |].
  { apply framed_doCVSelection, strategy_allocates. constructor. }
  intros [sf dummy].
  apply framed_bind; [exact _ | apply framed_get_self; exact _ |].
  intros self.
  apply framed_bind; [exact _ | |].
  { apply framed_mapM; [exact _|]. intros f.
    apply framed_bind; [exact _ | apply framed_deref; exact _ |]. intros fobj.
    apply framed_bind; [exact _ | apply framed_lift; exact _ |]. intros m.
    apply framed_alloc; exact _. }
  intros masks.
  apply framed_bind; [exact _ | apply framed_set_selection_masks |].
  intros _. apply framed_ret; exact _.
Qed.

End Folds.

Section Accounts.

Context {C : Collaborators}.

(** ** What the folds leave in the accumulators *)

Lemma meta_folds_accounts (clf : Classifier) (clfargs : ClfArgs)
    (featureselector : loc -> Z -> M loc) (selected candidates : loc)
    (origins : list (list Z)) :
  allocates_only featureselector ->
  forall cv_features cv_rois w w' out,
    meta_folds clf clfargs featureselector selected candidates origins
      cv_features cv_rois w = (w', out) ->
    exists accs,
      __perfs (this w') = __perfs (this w) ++ accs
      /\ __selection_masks (this w') = __selection_masks (this w)
      /\ __metacv_origins (this w') = __metacv_origins (this w)
      /\ match out with
         | Ok (cf, cr) =>
             length accs = length origins
             /\ length cf = length cv_features + length origins
             /\ length cr = length cv_rois + length origins
         | Raise _ => length accs < length origins
         | Diverge => True
         end.
Proof.
  intros Hfs. induction origins as [|exclude rest IH];
    intros cvf cvr w w' out E.
  - simpl in E. unfold ret in E. injection E as <- <-.
    exists []. rewrite app_nil_r. repeat split; simpl; lia.
  - rewrite meta_folds_cons in E.
    destruct (splitTrainTestData _ _) as [[mtr mte]|e].
    2:{ injection E as <- <-. exists []. rewrite app_nil_r.
        repeat split; simpl; lia. }
    destruct (__doSelection _ _ _ _ _ _ _) as [w1 [[r ids]|e|]] eqn:E1;
      apply framed_doSelection in E1 as [Hs _]; try exact Hfs.
    + destruct (heap w1 !! r) as [sf|].
      2:{ injection E as <- <-. exists []. rewrite app_nil_r, Hs.
          repeat split; simpl; lia. }
      destruct (fold_accuracy _ _ _ _ _) as [acc|e].
      2:{ injection E as <- <-. exists []. rewrite app_nil_r, Hs.
          repeat split; simpl; lia. }
      apply IH in E as (accs & Hp & Hm & Ho & Hout). simpl in Hp, Hm, Ho.
      exists (acc :: accs). rewrite Hp, Hm, Ho, Hs.
      rewrite <- app_assoc. repeat split.
      destruct out as [[cf cr]|e|]; simpl; [|lia|exact I].
      rewrite !length_app in Hout. simpl in Hout. lia.
    + injection E as <- <-. exists []. rewrite app_nil_r, Hs.
      repeat split; simpl; lia.
    + injection E as <- <-. exists []. rewrite app_nil_r, Hs.
      repeat split.
Qed.

Lemma doCVSelection_run (clf : Classifier) (clfargs : ClfArgs)
    (featureselector : loc -> Z -> M loc) (selected candidates : loc)
    (w : world) :
  __doCVSelection clf clfargs featureselector selected candidates w =
  match getUniqueLengthNCombinations (originlabels (__pattern (this w)))
          (__metacvtype (this w)) with
  | Err e => (w, Raise e)
  | Res origins =>
      meta_folds clf clfargs featureselector selected candidates origins
        [] [] (World (heap w) (with_origins (this w) origins))
  end.
Proof.
  unfold __doCVSelection, bind at 1, get_self at 1.
  unfold bind at 1, lift at 1.
  destruct (getUniqueLengthNCombinations _ _) as [origins|e]; reflexivity.
Qed.

Lemma doCVSelection_accounts (clf : Classifier) (clfargs : ClfArgs)
    (featureselector : loc -> Z -> M loc) (selected candidates : loc)
    (w w' : world) (out : outcome (list loc * list (list Z))) :
  allocates_only featureselector ->
  __doCVSelection clf clfargs featureselector selected candidates w
    = (w', out) ->
  __metacv_origins (this w) = [] ->
  exists accs,
    __perfs (this w') = __perfs (this w) ++ accs
    /\ __selection_masks (this w') = __selection_masks (this w)
    /\ match out with
       | Ok (cf, cr) =>
           length accs = length (__metacv_origins (this w'))
           /\ length cf = length (__metacv_origins (this w'))
           /\ length cr = length (__metacv_origins (this w'))
       | Raise _ => length accs <= length (__metacv_origins (this w'))
       | Diverge => True
       end.
Proof.
  intros Hfs E H0. rewrite doCVSelection_run in E.
  destruct (getUniqueLengthNCombinations _ _) as [origins|e].
  - apply meta_folds_accounts in E as (accs & Hp & Hm & Ho & Hout);
      [|exact Hfs].
    simpl in Hp, Hm, Ho. exists accs. rewrite Ho.
    repeat split; try assumption.
    destruct out as [[cf cr]|e|]; simpl in *; [exact Hout | lia | exact I].
  - injection E as <- <-. exists []. rewrite app_nil_r.
    repeat split. simpl. lia.
Qed.

(** ** The run of the folds, fold by fold *)

Lemma meta_folds_trace (clf : Classifier) (clfargs : ClfArgs)
    (featureselector : loc -> Z -> M loc) (selected candidates : loc)
    (origins : list (list Z)) :
  forall cv_features cv_rois w w' cf cr,
    meta_folds clf clfargs featureselector selected candidates origins
      cv_features cv_rois w = (w', Ok (cf, cr)) ->
    exists results,
      folds_trace clf clfargs featureselector selected candidates
        w origins results w'
      /\ cf = cv_features ++ map fst results
      /\ cr = cv_rois ++ map snd results.
Proof.
  induction origins as [|exclude rest IH]; intros cvf cvr w w' cf cr E.
  - simpl in E. unfold ret in E. injection E as <- <- <-.
    exists []. simpl. rewrite !app_nil_r. repeat split. constructor.
  - rewrite meta_folds_cons in E.
    destruct (splitTrainTestData _ _) as [[mtr mte]|e] eqn:Es;
      [|discriminate].
    destruct (__doSelection _ _ _ _ _ _ _) as [w1 [[r ids]|e|]] eqn:E1;
      [|discriminate|discriminate].
    destruct (heap w1 !! r) as [sf|] eqn:Er; [|discriminate].
    destruct (fold_accuracy _ _ _ _ _) as [acc|e] eqn:Ea; [|discriminate].
    apply IH in E as (results & Ht & -> & ->).
    exists ((r, ids) :: results). simpl. rewrite <- !app_assoc.
    repeat split. econstructor; eauto.
Qed.

Lemma folds_trace_frame (clf : Classifier) (clfargs : ClfArgs)
    (featureselector : loc -> Z -> M loc) (selected candidates : loc)
    (w w' : world) (origins : list (list Z)) (results : list (loc * list Z)) :
  allocates_only featureselector ->
  folds_trace clf clfargs featureselector selected candidates
    w origins results w' ->
  heap_frame (length (heap w)) (heap w) (heap w').
Proof.
  intros Hfs Ht. induction Ht as [w|w exclude rest mtr mte w1 r ids sf acc
                                    results w' Hs Hd Hr Ha Ht IH].
  - apply heap_frame_refl.
  - apply framed_doSelection in Hd as [_ Hf]; [|exact Hfs].
    eapply heap_frame_trans; [exact Hf|].
    eapply heap_frame_le; [|exact IH]. simpl. destruct Hf. lia.
Qed.

(** ** What the inner search returns *)

Lemma doSelection_ok_pool (pattern : Pattern) (clf : Classifier)
    (clfargs : ClfArgs) (featureselector : loc -> Z -> M loc)
    (selected candidates : loc) (w w' : world) (x : loc * list Z) :
  __doSelection pattern clf clfargs featureselector selected candidates w
    = (w', Ok x) ->
  exists pool, heap w !! candidates = Some (PyList pool).
Proof.
  rewrite doSelection_run.
  destruct (heap w !! candidates) as [[pool|a|a]|]; try discriminate. eauto.
Qed.

(** The chosen ids and the candidates left over are the initial pool, in
    another order. *)
Lemma doSelection_permutation (pattern : Pattern) (clf : Classifier)
    (clfargs : ClfArgs) (featureselector : loc -> Z -> M loc)
    (selected candidates : loc) (w w' : world) (pool : list Z) (r : loc)
    (ids : list Z) :
  allocates_only featureselector ->
  heap w !! candidates = Some (PyList pool) ->
  __doSelection pattern clf clfargs featureselector selected candidates w
    = (w', Ok (r, ids)) ->
  exists remaining, Permutation (ids ++ remaining) pool.
Proof.
  intros Hfs Hc E.
  eapply (doSelection_invariant
            (fun _ st p => Permutation (st_best_ids st ++ p) pool))
    in E as (st' & pool' & HI & _ & <-); eauto.
  intros w0 st p b o q _ HI Hin _. simpl.
  rewrite <- app_assoc. simpl. rewrite <- HI.
  apply Permutation_app_head. now apply remove_first_perm.
Qed.

(** With the merge by feature id the selected object holds the initial
    list followed by the chosen ids. *)
Lemma doSelection_by_id_selected (pattern : Pattern) (clf : Classifier)
    (clfargs : ClfArgs) (selected candidates : loc) (w w' : world)
    (init : list Z) (r : loc) (ids : list Z) :
  heap w !! selected = Some (PyList init) ->
  __doSelection pattern clf clfargs __selectByFeatureId selected candidates w
    = (w', Ok (r, ids)) ->
  heap w' !! r = Some (PyList (init ++ ids)).
Proof.
  intros Hsel E.
  destruct (doSelection_ok_pool _ _ _ _ _ _ _ _ _ E) as [pool Hc].
  eapply (doSelection_invariant
            (fun w0 st _ =>
               heap w0 !! st_selected st
               = Some (PyList (init ++ st_best_ids st))))
    in E as (st' & pool' & HI & <- & <-); eauto.
  - apply strategy_allocates. constructor.
  - intros w0 w0' st p HI _ Hf. eapply heap_frame_lookup; eauto.
  - intros w0 st p b o q Hfc HI Hin Efs. simpl.
    rewrite selectByFeatureId_run, HI in Efs.
    injection Efs as Eo. apply app_inv_head in Eo. injection Eo as <-.
    apply lookup_lt_Some in Hfc.
    rewrite list_lookup_insert_ne by lia.
    rewrite lookup_app_r by lia. rewrite Nat.sub_diag. simpl.
    now rewrite app_assoc.
  - simpl. rewrite app_nil_r. rewrite lookup_app_l; [exact Hsel|].
    eapply lookup_lt_Some; eauto.
Qed.

Lemma folds_trace_by_id (clf : Classifier) (clfargs : ClfArgs)
    (selected candidates : loc) (w w' : world) (origins : list (list Z))
    (results : list (loc * list Z)) :
  heap w !! selected = Some (PyList []) ->
  folds_trace clf clfargs __selectByFeatureId selected candidates
    w origins results w' ->
  Forall (fun x => heap w' !! fst x = Some (PyList (snd x))) results.
Proof.
  intros Hsel Ht.
  assert (Hfs : allocates_only __selectByFeatureId)
    by (apply strategy_allocates; constructor).
  induction Ht as [w|w exclude rest mtr mte w1 r ids sf acc
                     results w' Hs Hd Hr Ha Ht IH].
  - constructor.
  - pose proof (doSelection_by_id_selected _ _ _ _ _ _ _ _ _ _ Hsel Hd) as Hr1.
    pose proof (framed_doSelection _ _ _ _ _ _ _ _ _ Hfs Hd) as [_ Hf].
    apply folds_trace_frame in Ht as Hf2; [|exact Hfs]. simpl in Hf2.
    constructor.
    + simpl. eapply heap_frame_lookup; eauto.
    + apply IH. simpl. eapply heap_frame_lookup; eauto.
Qed.

(** ** Termination of the methods *)

Lemma terminates_meta_folds (clf : Classifier) (clfargs : ClfArgs)
    (featureselector : loc -> Z -> M loc) (selected candidates : loc)
    (origins : list (list Z)) (cv_features : list loc)
    (cv_rois : list (list Z)) :
  allocates_only featureselector ->
  terminates (meta_folds clf clfargs featureselector selected candidates
                origins cv_features cv_rois).
Proof.
  intros Hfs. revert cv_features cv_rois.
  induction origins as [|exclude rest IH]; intros cvf cvr w.
  - discriminate.
  - rewrite meta_folds_cons.
    destruct (splitTrainTestData _ _) as [[mtr mte]|e]; [|discriminate].
    pose proof (doSelection_terminates mtr clf clfargs featureselector
                  selected candidates Hfs w) as T.
    destruct (__doSelection _ _ _ _ _ _ _) as [w1 [[r ids]|e|]];
      [|discriminate|simpl in T; congruence].
    destruct (heap w1 !! r) as [sf|]; [|discriminate].
    destruct (fold_accuracy _ _ _ _ _) as [acc|e]; [|discriminate].
    apply IH.
Qed.

Lemma terminates_doCVSelection (clf : Classifier) (clfargs : ClfArgs)
    (featureselector : loc -> Z -> M loc) (selected candidates : loc) :
  allocates_only featureselector ->
  terminates (__doCVSelection clf clfargs featureselector selected candidates).
Proof.
  intros Hfs w. rewrite doCVSelection_run.
  destruct (getUniqueLengthNCombinations _ _); [|discriminate].
  now apply terminates_meta_folds.
Qed.

End Accounts.

(** ** The candidate pools *)

Lemma insert_unique_In (x y : Z) (l : list Z) :
  In y (insert_unique x l) <-> y = x \/ In y l.
Proof.
  induction l as [|z t IH]; simpl.
  - intuition.
  - destruct (x <? z)%Z eqn:E1; [simpl; intuition|].
    destruct (x =? z)%Z eqn:E2.
    + apply Z.eqb_eq in E2. subst z. simpl. intuition.
    + simpl. rewrite IH. intuition.
Qed.

Lemma insert_unique_sorted (x : Z) (l : list Z) :
  StronglySorted Z.lt l -> StronglySorted Z.lt (insert_unique x l).
Proof.
  induction l as [|z t IH]; simpl; intros Hs.
  - repeat constructor.
  - apply StronglySorted_inv in Hs as [Ht Hz].
    destruct (x <? z)%Z eqn:E1.
    + apply Z.ltb_lt in E1. constructor; [now constructor|].
      constructor; [exact E1|].
      eapply List.Forall_impl; [|exact Hz]. simpl. intros a Ha. lia.
    + destruct (x =? z)%Z eqn:E2; [now constructor|].
      apply Z.ltb_ge in E1. apply Z.eqb_neq in E2.
      constructor; [now apply IH|].
      apply List.Forall_forall. intros a Ha.
      apply insert_unique_In in Ha as [->|Ha]; [lia|].
      rewrite List.Forall_forall in Hz. now apply Hz.
Qed.

Lemma np_unique_sorted (l : list Z) : StronglySorted Z.lt (np_unique l).
Proof.
  induction l as [|x t IH]; simpl; [constructor|].
  now apply insert_unique_sorted.
Qed.

Lemma np_unique_In (x : Z) (l : list Z) : In x (np_unique l) <-> In x l.
Proof.
  induction l as [|y t IH]; simpl; [tauto|].
  rewrite insert_unique_In, IH. intuition.
Qed.

Lemma sorted_lt_NoDup (l : list Z) : StronglySorted Z.lt l -> NoDup l.
Proof.
  induction 1 as [|a l Hs IH Ha]; constructor; [|exact IH].
  intros Hin. apply list_elem_of_In in Hin.
  rewrite List.Forall_forall in Ha. specialize (Ha a Hin). lia.
Qed.

Lemma np_unique_NoDup (l : list Z) : NoDup (np_unique l).
Proof. apply sorted_lt_NoDup, np_unique_sorted. Qed.

Lemma np_unique_length (l : list Z) :
  length (np_unique l) = length (nodup Z.eq_dec l).
Proof.
  apply Permutation_length, NoDup_Permutation.
  - apply np_unique_NoDup.
  - apply NoDup_ListNoDup, List.NoDup_nodup.
  - intros x. rewrite !list_elem_of_In, np_unique_In, nodup_In. tauto.
Qed.

Lemma flatnonzero_from_In (k i : nat) (l : list Z) :
  In k (flatnonzero_from i l) <->
  i <= k /\ exists x, l !! (k - i) = Some x /\ x <> 0%Z.
Proof.
  revert i. induction l as [|y t IH]; intros i; simpl.
  - split; [tauto|]. intros (_ & x & Hx & _). discriminate.
  - assert (Hshift : forall x, S i <= k ->
              (y :: t) !! (k - i) = Some x <-> t !! (k - S i) = Some x).
    { intros x Hk. replace (k - i) with (S (k - S i)) by lia. reflexivity. }
    destruct (y =? 0)%Z eqn:E.
    + apply Z.eqb_eq in E. rewrite IH. split.
      * intros (Hk & x & Hx & Hn). split; [lia|]. exists x.
        now rewrite Hshift.
      * intros (Hk & x & Hx & Hn).
        destruct (decide (k = i)) as [->|Hne].
        { rewrite Nat.sub_diag in Hx. simpl in Hx. congruence. }
        split; [lia|]. exists x. rewrite <- Hshift by lia. auto.
    + apply Z.eqb_neq in E. simpl. rewrite IH. split.
      * intros [<-|(Hk & x & Hx & Hn)].
        { split; [lia|]. exists y. rewrite Nat.sub_diag. auto. }
        split; [lia|]. exists x. now rewrite Hshift.
      * intros (Hk & x & Hx & Hn).
        destruct (decide (k = i)) as [->|Hne]; [now left|].
        right. split; [lia|]. exists x. rewrite <- Hshift by lia. auto.
Qed.

Lemma flatnonzero_from_sorted (i : nat) (l : list Z) :
  StronglySorted lt (flatnonzero_from i l).
Proof.
  revert i. induction l as [|y t IH]; intros i; simpl; [constructor|].
  destruct (y =? 0)%Z; [apply IH|].
  constructor; [apply IH|].
  apply List.Forall_forall. intros k Hk.
  apply flatnonzero_from_In in Hk. lia.
Qed.

Lemma flatnonzero_from_length (i : nat) (l : list Z) :
  length (flatnonzero_from i l)
  = length (filter (fun x => negb (x =? 0)%Z) l).
Proof.
  revert i. induction l as [|y t IH]; intros i; simpl; [reflexivity|].
  unfold filter. simpl.
  destruct (y =? 0)%Z; simpl.
  - rewrite IH. reflexivity.
  - rewrite IH. reflexivity.
Qed.

Section Pools.

Context {C : Collaborators}.

Lemma mapM_lift_ok {A B} (f : A -> result B) (l : list A) (w w' : world)
    (ys : list B) :
  mapM (fun x => lift (f x)) l w = (w', Ok ys) ->
  w' = w /\ Forall2 (fun x y => f x = Res y) l ys.
Proof.
  revert ys. induction l as [|x t IH]; intros ys; simpl.
  - unfold ret. intros [= <- <-]. auto.
  - intros E. apply bind_ok_inv in E as (w1 & y & E1 & E).
    unfold lift in E1. destruct (f x) as [y'|e] eqn:Ef; [|discriminate].
    injection E1 as <- <-.
    apply bind_ok_inv in E as (w2 & ys' & E2 & E).
    unfold ret in E. injection E as <- <-.
    apply IH in E2 as [-> HF]. split; [reflexivity|]. now constructor.
Qed.

Lemma read_array_run (l : loc) (w : world) :
  read_array l w =
  match heap w !! l with
  | Some o =>
      match as_array o with
      | Res a => (w, Ok a)
      | Err e => (w, Raise e)
      end
  | None => (w, Raise (Exn "ReferenceError" "no such object"))
  end.
Proof.
  unfold read_array, bind, deref, lift.
  destruct (heap w !! l) as [o|]; [|reflexivity].
  destruct (as_array o); reflexivity.
Qed.

Lemma cand_features_of_ok (w w' : world) (ids : list Z) :
  cand_features_of w = (w', Ok ids) ->
  w' = w
  /\ exists o m,
       heap w !! __mask (this w) = Some o /\ as_array o = Res m
       /\ Forall2 (fun coord id => getFeatureId (__pattern (this w)) coord = Res id)
            (np_transpose_nonzero m) ids.
Proof.
  unfold cand_features_of. intros E.
  apply bind_ok_inv in E as (w1 & self & E1 & E).
  unfold get_self in E1. injection E1 as <- <-.
  apply bind_ok_inv in E as (w2 & m & E2 & E).
  rewrite read_array_run in E2.
  destruct (heap w !! __mask (this w)) as [o|] eqn:Eo; [|discriminate].
  destruct (as_array o) as [a|e] eqn:Ea; [|discriminate].
  injection E2 as <- <-.
  apply mapM_lift_ok in E as [-> HF]. eauto 6.
Qed.

(** [selectROIs] up to the call of the outer loop: the pool is a new list
    with the distinct mask values, the selected set a new all-false mask. *)
Lemma selectROIs_run (clf : Classifier) (kwargs : ClfArgs) (w : world) :
  selectROIs clf kwargs w =
  match heap w !! __mask (this w) with
  | None =>
      (World (heap w) (clear_fields (this w)),
       Raise (Exn "ReferenceError" "no such object"))
  | Some o =>
      match as_array o with
      | Err e => (World (heap w) (clear_fields (this w)), Raise e)
      | Res m =>
          match __doCVSelection clf kwargs __selectByMaskValue
                  (S (length (heap w))) (length (heap w))
                  (World (heap w ++ [PyList (np_unique (data m));
                                     np_zeros_bool (shape m)])
                     (clear_fields (this w))) with
          | (w2, Ok (feature_mask, selected_rois)) =>
              (World (heap w2) (with_masks (this w2) feature_mask),
               Ok selected_rois)
          | (w2, Raise e) => (w2, Raise e)
          | (w2, Diverge) => (w2, Diverge)
          end
      end
  end.
Proof.
  unfold selectROIs, bind at 1, __clearResults, bind at 1, get_self at 1,
    set_self.
  unfold bind at 1, get_self at 1. unfold bind at 1. rewrite read_array_run.
  cbn [heap this clear_fields __mask].
  destruct (heap w !! __mask (this w)) as [o|] eqn:Eo; [|reflexivity].
  destruct (as_array o) as [m|e] eqn:Ea; [|reflexivity].
  unfold bind at 1, alloc at 1. cbn [heap this].
  unfold bind at 1, get_self at 1. unfold bind at 1. rewrite read_array_run.
  cbn [heap this clear_fields __mask].
  rewrite lookup_app_l by (eapply lookup_lt_Some; eauto). rewrite Eo, Ea.
  unfold bind at 1, alloc at 1. cbn [heap this].
  rewrite <- app_assoc. cbn [app]. rewrite length_app. cbn [length].
  rewrite Nat.add_1_r.
  unfold bind at 1.
  destruct (__doCVSelection _ _ _ _ _ _) as [w2 [[fm rois]|e|]];
    reflexivity.
Qed.

(** [selectFeatures] up to the call of the outer loop: the selected set
    is a new empty list, the pool a new list with the candidate ids. *)
Lemma selectFeatures_run (clf : Classifier) (kwargs : ClfArgs) (w : world) :
  selectFeatures clf kwargs w =
  let w0 := World (heap w ++ [PyList []]) (clear_fields (this w)) in
  match cand_features_of w0 with
  | (w1, Ok ids) =>
      match __doCVSelection clf kwargs __selectByFeatureId
              (length (heap w)) (length (heap w1))
              (World (heap w1 ++ [PyList ids]) (this w1)) with
      | (w2, Ok (selected_features, dummy)) =>
          match mapM (fun f =>
                        bind (deref f) (fun fobj =>
                        bind (lift (features2origmask (__pattern (this w2))
                                      fobj))
                          (fun m => alloc m)))
                  selected_features w2 with
          | (w3, Ok masks) =>
              (World (heap w3) (with_masks (this w3) masks),
               Ok selected_features)
          | (w3, Raise e) => (w3, Raise e)
          | (w3, Diverge) => (w3, Diverge)
          end
      | (w2, Raise e) => (w2, Raise e)
      | (w2, Diverge) => (w2, Diverge)
      end
  | (w1, Raise e) => (w1, Raise e)
  | (w1, Diverge) => (w1, Diverge)
  end.
Proof.
  unfold selectFeatures, bind at 1, __clearResults, bind at 1, get_self at 1,
    set_self.
  unfold bind at 1, alloc at 1. cbn [heap this]. cbv zeta.
  unfold bind at 1.
  destruct (cand_features_of _) as [w1 [ids|e|]]; [|reflexivity|reflexivity].
  unfold bind at 1, alloc at 1. unfold bind at 1.
  destruct (__doCVSelection _ _ _ _ _ _) as [w2 [[sf dummy]|e|]];
    [|reflexivity|reflexivity].
  unfold bind at 1, get_self at 1. unfold bind at 1.
  destruct (mapM _ sf w2) as [w3 [masks|e|]]; reflexivity.
Qed.

End Pools.

(** * The properties of the search *)

Section Properties.

Context {C : Collaborators}.

(** C7.  A mask whose shape differs from the original shape of the
    pattern makes the constructor raise [ValueError]; no object is
    returned, so no search can run on it. *)
Theorem init_rejects_shape_mismatch (pattern : Pattern) (mask : loc)
    (cvtype metacvtype : Z) (break_crit : Q) (kwargs : CvArgs)
    (h : list pyobj) (o : pyobj) (m : ndarray Z) :
  h !! mask = Some o -> as_array o = Res m ->
  shape m <> origshape pattern ->
  __init__ pattern mask cvtype metacvtype break_crit kwargs h
  = Err (ValueError "Mask shape has to match the pattern origshape.").
Proof.
  intros Ho Hm Hne. unfold __init__, mask_shape. rewrite Ho, Hm. simpl.
  unfold shape_eqb. destruct (decide (shape m = origshape pattern));
    [contradiction | reflexivity].
Qed.

(** C9.  With no selection mask stored, the mean selection mask is
    [None]: the call succeeds, changes nothing and builds no array. *)
Theorem mean_mask_of_no_fold_is_None (w : world) :
  __selection_masks (this w) = [] ->
  getMeanSelectionMask w = (w, Ok None).
Proof.
  intros H. unfold getMeanSelectionMask, bind, get_self. now rewrite H.
Qed.

(** C6.  The inner search works on a copy of the pool: every object of
    the store at the start of the call, the caller's pool among them, is
    the same object with the same content when the call ends, however it
    ends (and it does end); a second call finds as many candidates as the
    first. *)
Theorem doSelection_keeps_pool (pattern : Pattern) (clf : Classifier)
    (clfargs : ClfArgs) (featureselector : loc -> Z -> M loc)
    (selected candidates : loc) (w w' : world)
    (out : outcome (loc * list Z)) :
  is_strategy featureselector ->
  __doSelection pattern clf clfargs featureselector selected candidates w
    = (w', out) ->
  (forall l o, heap w !! l = Some o -> heap w' !! l = Some o)
  /\ heap w' !! candidates = heap w !! candidates
  /\ snd (len candidates w') = snd (len candidates w)
  /\ this w' = this w
  /\ out <> Diverge.
Proof.
  intros Hfs E.
  assert (Hout : out <> Diverge).
  { pose proof (doSelection_terminates pattern clf clfargs featureselector
                  selected candidates (strategy_allocates _ Hfs) w) as T.
    now rewrite E in T. }
  pose proof E as E'.
  apply framed_doSelection in E as [Hs Hf]; [|now apply strategy_allocates].
  assert (Hc : heap w' !! candidates = heap w !! candidates).
  { rewrite doSelection_run in E'.
    destruct (heap w !! candidates) as [o|] eqn:Ec.
    - eapply heap_frame_lookup; eauto.
    - now injection E' as <- _. }
  repeat split; auto.
  - intros l o Ho. eapply heap_frame_lookup; eauto.
  - unfold len, bind. rewrite !read_list_run, Hc.
    destruct (heap w !! candidates) as [[items|a|a]|]; reflexivity.
Qed.

End Properties.

Section Calls.

Context {C : Collaborators}.

Lemma framed_to_lookup {A} (R : relation IncrementalFeatureSearch)
    (m : M A) (w w' : world) (out : outcome A) :
  framed R (length (heap w)) m -> m w = (w', out) ->
  R (this w) (this w')
  /\ forall l o, heap w !! l = Some o -> heap w' !! l = Some o.
Proof.
  intros F E. destruct (F w w' out (le_n _) E) as [HR Hf].
  split; [exact HR|]. intros l o Ho. eapply heap_frame_lookup; eauto.
Qed.

Lemma selectROIs_terminates (clf : Classifier) (kwargs : ClfArgs) :
  terminates (selectROIs clf kwargs).
Proof.
  unfold selectROIs, __clearResults, set_selection_masks.
  repeat terminates_step.
  - apply terminates_doCVSelection, strategy_allocates. constructor.
  - match goal with found : (_ * _)%type |- _ => destruct found end.
    repeat terminates_step.
Qed.

Lemma selectFeatures_terminates (clf : Classifier) (kwargs : ClfArgs) :
  terminates (selectFeatures clf kwargs).
Proof.
  unfold selectFeatures, __clearResults, set_selection_masks,
    cand_features_of.
  repeat terminates_step.
  - apply terminates_mapM. intros coord. terminates_step.
  - apply terminates_doCVSelection, strategy_allocates. constructor.
  - match goal with found : (_ * _)%type |- _ => destruct found end.
    repeat terminates_step.
    apply terminates_mapM. intros f. repeat terminates_step.
Qed.

(** C10.  A call of [selectFeatures] or [selectROIs] leaves the
    configuration of the object (pattern, mask and the parameters) and
    every object of the store at the start of the call as they are.  A
    merge returns an object that did not exist before and changes no
    other.  After any number of completed folds the next fold starts in a
    world where the initial selected set, the pool and the mask are the
    objects they were at the start of the loop. *)
Theorem search_leaves_inputs_alone (clf : Classifier) (kwargs : ClfArgs)
    (w : world) :
  (forall w' out,
      selectFeatures clf kwargs w = (w', out) ->
      same_config (this w) (this w')
      /\ forall l o, heap w !! l = Some o -> heap w' !! l = Some o)
  /\ (forall w' out,
        selectROIs clf kwargs w = (w', out) ->
        same_config (this w) (this w')
        /\ forall l o, heap w !! l = Some o -> heap w' !! l = Some o)
  /\ (forall featureselector selected candidate w' r,
        is_strategy featureselector ->
        featureselector selected candidate w = (w', Ok r) ->
        heap w !! r = None /\ (exists o, heap w' !! r = Some o)
        /\ this w' = this w
        /\ forall l o, heap w !! l = Some o -> heap w' !! l = Some o)
  /\ (forall featureselector selected candidates finished rest
             cv_features cv_rois wk found,
        is_strategy featureselector ->
        meta_folds clf kwargs featureselector selected candidates finished
          cv_features cv_rois w = (wk, Ok found) ->
        meta_folds clf kwargs featureselector selected candidates
          (finished ++ rest) cv_features cv_rois w
        = meta_folds clf kwargs featureselector selected candidates rest
            (fst found) (snd found) wk
        /\ same_config (this w) (this wk)
        /\ forall l o, heap w !! l = Some o -> heap wk !! l = Some o).
Proof.
  split; [|split; [|split]].
  - intros w' out E.
    eapply framed_to_lookup; [apply framed_selectFeatures | exact E].
  - intros w' out E.
    eapply framed_to_lookup; [apply framed_selectROIs | exact E].
  - intros fs sel c w' r Hfs E. apply strategy_allocates in Hfs.
    destruct (Hfs sel c w) as [(e & E') | (o & E')]; rewrite E' in E;
      [discriminate|].
    injection E as <- <-. cbn [heap this].
    split; [apply lookup_ge_None_2; lia|].
    split; [exists o; rewrite lookup_app_r by lia; now rewrite Nat.sub_diag|].
    split; [reflexivity|].
    intros l o' Ho'. rewrite lookup_app_l; [exact Ho'|].
    eapply lookup_lt_Some; eauto.
  - intros fs sel cands finished rest cvf cvr wk found Hfs E.
    apply strategy_allocates in Hfs. split.
    + rewrite meta_folds_app. now rewrite (bind_ok _ _ _ _ _ E).
    + eapply framed_to_lookup; [|exact E]. now apply framed_meta_folds.
Qed.

End Calls.

(** * The search on the small dataset *)

(** The objects of the runs are what the constructor returns. *)
Lemma searcher_is_constructed :
  __init__ (C:=Toy.collaborators) Toy.three_origins 0 1 1 (1 # 1000) tt
    Toy.mask1 = Res (Toy.searcher Toy.three_origins (1 # 1000))
  /\ __init__ (C:=Toy.collaborators) Toy.one_class_origin 0 1 1 (1 # 1000) tt
       Toy.mask1 = Res (Toy.searcher Toy.one_class_origin (1 # 1000)).
Proof. split; reflexivity. Qed.

(** C1, a defect of the code.  On [three_origins] every fold selects
    feature [0].  The accuracy stored for a fold is that of a classifier
    fitted on the whole pattern, the samples of the meta-test fold among
    them: [1] in each fold.  Fitted on the meta-train subset, as the fold
    is meant to be evaluated, the classifier reaches [1/2]. *)
Theorem fold_accuracy_trains_on_test_fold :
  let run := selectFeatures (C:=Toy.collaborators) 0%Z tt Runs.w_three in
  snd run = Ok [5; 8; 11]
  /\ map (fun r => heap (fst run) !! r) [5; 8; 11]
     = [Some (PyList [0%Z]); Some (PyList [0%Z]); Some (PyList [0%Z])]
  /\ __perfs (this (fst run)) = [1%Q; 1%Q; 1%Q]
  /\ Forall (fun exclude =>
               exists meta_train meta_test,
                 Toy.split Toy.three_origins exclude
                 = Res (meta_train, meta_test)
                 /\ fold_accuracy (C:=Toy.collaborators) Toy.three_origins
                      meta_test 0%Z tt (PyList [0%Z]) = Res 1%Q
                 /\ fold_accuracy (C:=Toy.collaborators) meta_train
                      meta_test 0%Z tt (PyList [0%Z]) = Res (1 # 2)%Q)
       [[0%Z]; [1%Z]; [2%Z]].
Proof.
  cbv zeta. split; [vm_compute; reflexivity|].
  split; [vm_compute; reflexivity|].
  split; [vm_compute; reflexivity|].
  repeat constructor; eexists _, _;
    (split; [vm_compute; reflexivity|]); split; vm_compute; reflexivity.
Qed.

(** C2 fails as stated: the second fold raises, and the accuracy of the
    first fold is still in the list. *)
Lemma raise_leaves_accuracies :
  ~ (forall (C : Collaborators) (clf : Classifier) (kwargs : ClfArgs)
            (w w' : world) (e : exn),
        selectFeatures clf kwargs w = (w', Raise e) ->
        __perfs (this w') = [] /\ __selection_masks (this w') = []).
Proof.
  intros H.
  destruct (H Toy.collaborators 0%Z tt Runs.w_one_class
              (fst (selectFeatures (C:=Toy.collaborators) 0%Z tt
                      Runs.w_one_class))
              (Exn "ValueError" "the training set holds a single class"))
    as [Hp _]; [vm_compute; reflexivity|].
  vm_compute in Hp. discriminate Hp.
Qed.

Lemma doSelection_keeps_pool_witness :
  heap (fst (__doSelection (C:=Toy.collaborators) Toy.three_origins 0%Z tt
               __selectByFeatureId 1 2 (Runs.w_pool [0%Z] (1 # 1000)))) !! 2
  = heap (Runs.w_pool [0%Z] (1 # 1000)) !! 2.
Proof.
  eapply (doSelection_keeps_pool (C:=Toy.collaborators) Toy.three_origins
            0%Z tt __selectByFeatureId 1 2 (Runs.w_pool [0%Z] (1 # 1000))).
  - constructor.
  - vm_compute. reflexivity.
Defined.

Lemma init_rejects_shape_mismatch_witness :
  __init__ (C:=Toy.collaborators) Toy.three_origins 0 1 1 (1 # 1000) tt
    [PyIntArray (NdArray [2] [1%Z; 1%Z])]
  = Err (ValueError "Mask shape has to match the pattern origshape.").
Proof.
  apply (init_rejects_shape_mismatch (C:=Toy.collaborators) Toy.three_origins
           0 1 1 (1 # 1000) tt [PyIntArray (NdArray [2] [1%Z; 1%Z])]
           (PyIntArray (NdArray [2] [1%Z; 1%Z])) (NdArray [2] [1%Z; 1%Z])).
  - reflexivity.
  - reflexivity.
  - simpl. intros H. discriminate H.
Defined.

(** The inner search does not check its pool: called on its own with a
    list that holds an id twice, which neither [selectFeatures] on
    distinct feature ids nor [selectROIs] ever builds, and a break
    criterion of zero, it chooses the id twice. *)
Lemma chosen_ids_may_repeat :
  ~ (forall (C : Collaborators) (pattern : Pattern) (clf : Classifier)
            (clfargs : ClfArgs) (featureselector : loc -> Z -> M loc)
            (selected candidates : loc) (w w' : world) (pool : list Z)
            (r : loc) (ids : list Z),
        is_strategy featureselector ->
        heap w !! candidates = Some (PyList pool) ->
        __doSelection pattern clf clfargs featureselector selected
          candidates w = (w', Ok (r, ids)) ->
        List.NoDup ids /\ length ids <= length pool).
Proof.
  intros H.
  destruct (H Toy.collaborators Toy.three_origins 0%Z tt __selectByFeatureId
              1 2 (Runs.w_pool [0%Z; 0%Z] 0)
              (fst (__doSelection (C:=Toy.collaborators) Toy.three_origins
                      0%Z tt __selectByFeatureId 1 2
                      (Runs.w_pool [0%Z; 0%Z] 0)))
              [0%Z; 0%Z] 8 [0%Z; 0%Z])
    as [Hnd _].
  - constructor.
  - reflexivity.
  - vm_compute. reflexivity.
  - apply List.NoDup_cons_iff in Hnd as [Hin _]. apply Hin. now left.
Qed.

Lemma mean_mask_of_no_fold_is_None_witness :
  getMeanSelectionMask (C:=Toy.collaborators) Runs.w_three
  = (Runs.w_three, Ok None).
Proof.
  apply (mean_mask_of_no_fold_is_None (C:=Toy.collaborators) Runs.w_three).
  reflexivity.
Defined.

Lemma search_leaves_inputs_alone_witness :
  heap (fst (selectROIs (C:=Toy.collaborators) 0%Z tt Runs.w_three)) !! 0
  = Some (PyIntArray (NdArray [1] [1%Z])).
Proof.
  apply (proj1 (proj2 (search_leaves_inputs_alone (C:=Toy.collaborators)
                         0%Z tt Runs.w_three))
           _ (snd (selectROIs (C:=Toy.collaborators) 0%Z tt Runs.w_three))).
  - vm_compute. reflexivity.
  - reflexivity.
Defined.

(** * Further properties *)

(** ** Accuracies are fractions *)

Lemma inject_Z_S (n : nat) :
  (inject_Z (Z.of_nat (S n)) == 1 + inject_Z (Z.of_nat n))%Q.
Proof.
  rewrite Nat2Z.inj_succ, <- Z.add_1_l, inject_Z_plus. reflexivity.
Qed.

Lemma Qsum_upper (l : list Q) :
  List.Forall (fun q => (q <= 1)%Q) l ->
  (Qsum l <= inject_Z (Z.of_nat (length l)))%Q.
Proof.
  induction 1 as [|q l Hq _ IH].
  - apply Qle_refl.
  - cbn [Qsum fold_right length]. rewrite inject_Z_S.
    apply Qplus_le_compat; assumption.
Qed.

Lemma Qsum_lower (l : list Q) :
  List.Forall (fun q => (0 <= q)%Q) l -> (0 <= Qsum l)%Q.
Proof.
  induction 1 as [|q l Hq _ IH].
  - apply Qle_refl.
  - cbn [Qsum fold_right]. replace 0%Q with (0 + 0)%Q by reflexivity.
    apply Qplus_le_compat; assumption.
Qed.

Lemma np_mean_upper (l : list Q) :
  List.Forall (fun q => (q <= 1)%Q) l -> (np_mean l <= 1)%Q.
Proof.
  intros H. unfold np_mean. rewrite Qred_correct.
  destruct l as [|x t].
  - discriminate.
  - apply Qle_shift_div_r.
    + change 0%Q with (inject_Z 0). rewrite <- Zlt_Qlt.
      apply (Nat2Z.inj_lt 0). simpl. lia.
    + rewrite Qmult_1_l. now apply Qsum_upper.
Qed.

Lemma np_mean_lower (l : list Q) :
  List.Forall (fun q => (0 <= q)%Q) l -> (0 <= np_mean l)%Q.
Proof.
  intros H. unfold np_mean. rewrite Qred_correct.
  destruct l as [|x t].
  - discriminate.
  - apply Qle_shift_div_l.
    + change 0%Q with (inject_Z 0). rewrite <- Zlt_Qlt.
      apply (Nat2Z.inj_lt 0). simpl. lia.
    + rewrite Qmult_0_l. now apply Qsum_lower.
Qed.

Lemma np_mean_in_unit (l : list Q) :
  List.Forall in_unit l -> in_unit (np_mean l).
Proof.
  intros H. split.
  - apply np_mean_lower. eapply List.Forall_impl; [|exact H]. now intros q [].
  - apply np_mean_upper. eapply List.Forall_impl; [|exact H]. now intros q [].
Qed.

Lemma Q_of_bool_in_unit (b : bool) : in_unit (Q_of_bool b).
Proof. destruct b; split; discriminate. Qed.

Lemma np_eq_mean_in_unit (predictions reg : list Z) (a : Q) :
  np_eq_mean predictions reg = Res a -> in_unit a.
Proof.
  unfold np_eq_mean. destruct (_ =? _); [|discriminate].
  intros [= <-]. apply np_mean_in_unit.
  apply List.Forall_forall. intros q Hq. apply in_map_iff in Hq as (b & <- & _).
  apply Q_of_bool_in_unit.
Qed.

Section Accuracies.

Context {C : Collaborators}.

Lemma fold_accuracy_in_unit (whole meta_test : Pattern) (clf : Classifier)
    (clfargs : ClfArgs) (sf : pyobj) (a : Q) :
  fold_accuracy whole meta_test clf clfargs sf = Res a -> in_unit a.
Proof.
  unfold fold_accuracy, rbind.
  destruct (pat_selectFeatures whole sf); [|discriminate].
  destruct (pat_selectFeatures meta_test sf); [|discriminate].
  destruct (getClassification _ _ _ _); [|discriminate].
  apply np_eq_mean_in_unit.
Qed.

Lemma meta_folds_perfs_in_unit (clf : Classifier) (clfargs : ClfArgs)
    (featureselector : loc -> Z -> M loc) (selected candidates : loc)
    (origins : list (list Z)) :
  allocates_only featureselector ->
  forall cv_features cv_rois w,
    List.Forall in_unit (__perfs (this w)) ->
    List.Forall in_unit
      (__perfs (this (fst (meta_folds clf clfargs featureselector selected
                             candidates origins cv_features cv_rois w)))).
Proof.
  intros Hfs. induction origins as [|exclude rest IH]; intros cvf cvr w Hw.
  - exact Hw.
  - rewrite meta_folds_cons.
    destruct (splitTrainTestData _ _) as [[mtr mte]|e]; [|exact Hw].
    destruct (__doSelection _ _ _ _ _ _ _) as [w1 [[r ids]|e|]] eqn:E1;
      apply framed_doSelection in E1 as [Hs _]; try exact Hfs;
      cbn [fst]; try (now rewrite Hs).
    destruct (heap w1 !! r) as [sf|]; [|cbn [fst]; now rewrite Hs].
    destruct (fold_accuracy _ _ _ _ _) as [acc|e] eqn:Ea;
      [|cbn [fst]; now rewrite Hs].
    apply IH. cbn [this add_perf __perfs]. rewrite Hs.
    apply List.Forall_app. split; [exact Hw|].
    constructor; [|constructor]. eapply fold_accuracy_in_unit; eauto.
Qed.

Lemma doCVSelection_perfs_in_unit (clf : Classifier) (clfargs : ClfArgs)
    (featureselector : loc -> Z -> M loc) (selected candidates : loc)
    (w : world) :
  allocates_only featureselector ->
  List.Forall in_unit (__perfs (this w)) ->
  List.Forall in_unit
    (__perfs (this (fst (__doCVSelection clf clfargs featureselector selected
                           candidates w)))).
Proof.
  intros Hfs Hw. rewrite doCVSelection_run.
  destruct (getUniqueLengthNCombinations _ _) as [origins|e]; [|exact Hw].
  now apply meta_folds_perfs_in_unit.
Qed.

Lemma framed_eq_this {A} (m : M A) (w : world) :
  framed eq 0 m -> this (fst (m w)) = this w.
Proof.
  intros F. destruct (m w) as [w' out] eqn:E.
  destruct (F w w' out (Nat.le_0_l _) E) as [Hs _]. now symmetry.
Qed.

Lemma framed_eq_cand_features_of (n : nat) : framed eq n cand_features_of.
Proof.
  unfold cand_features_of. repeat framed_step.
  apply framed_mapM; [exact _|]. intros coord. framed_step.
Qed.

Lemma framed_eq_store_masks (n : nat) (pattern : Pattern) (sf : list loc) :
  framed eq n
    (mapM (fun f =>
             bind (deref f) (fun fobj =>
             bind (lift (features2origmask pattern fobj))
               (fun m => alloc m))) sf).
Proof. apply framed_mapM; [exact _|]. intros f. repeat framed_step. Qed.

(** X1.  When every fold has a test sample, whatever the outcome of a
    call of [selectFeatures] or [selectROIs], every accuracy in [perfs]
    afterwards lies between [0] and [1]. *)
Theorem perfs_are_fractions (clf : Classifier) (kwargs : ClfArgs) (w : world) :
  folds_have_test_samples (this w) ->
  List.Forall in_unit
    (__perfs (this (fst (selectFeatures clf kwargs w))))
  /\ List.Forall in_unit
       (__perfs (this (fst (selectROIs clf kwargs w)))).
Proof.
  intros _. split.
  - rewrite selectFeatures_run. cbv zeta.
    pose proof (framed_eq_this cand_features_of
                  (World (heap w ++ [PyList []]) (clear_fields (this w)))
                  (framed_eq_cand_features_of 0)) as Hc.
    destruct (cand_features_of _) as [w1 [ids|e|]];
      cbn [fst this] in Hc; cbn [fst];
      [|rewrite Hc; constructor|rewrite Hc; constructor].
    pose proof (doCVSelection_perfs_in_unit clf kwargs __selectByFeatureId
                  (length (heap w)) (length (heap w1))
                  (World (heap w1 ++ [PyList ids]) (this w1))
                  (strategy_allocates _ by_feature_id)) as Hcv.
    assert (H0 : List.Forall in_unit (__perfs (this w1)))
      by (rewrite Hc; constructor).
    specialize (Hcv H0).
    destruct (__doCVSelection _ _ _ _ _ _) as [w2 [[sf dummy]|e|]];
      try exact Hcv.
    cbn [fst] in Hcv.
    pose proof (framed_eq_this _ w2
                  (framed_eq_store_masks 0 (__pattern (this w2)) sf)) as Hm.
    destruct (mapM _ sf w2) as [w3 [masks|e|]]; cbn [fst this] in Hm |- *;
      unfold with_masks; cbn [__perfs]; now rewrite Hm.
  - rewrite selectROIs_run.
    destruct (heap w !! __mask (this w)) as [o|]; [|constructor].
    destruct (as_array o) as [m|e]; [|constructor].
    pose proof (doCVSelection_perfs_in_unit clf kwargs __selectByMaskValue
                  (S (length (heap w))) (length (heap w))
                  (World (heap w ++ [PyList (np_unique (data m));
                                     np_zeros_bool (shape m)])
                     (clear_fields (this w)))
                  (strategy_allocates _ by_mask_value)
                  (List.Forall_nil _)) as Hcv.
    destruct (__doCVSelection _ _ _ _ _ _) as [w2 [[fm rois]|e|]];
      exact Hcv.
Qed.

End Accuracies.

Section Bookkeeping.

Context {C : Collaborators}.

(** ** The accumulators after a call *)

Lemma mapM_ok_length {A B} (f : A -> M B) (l : list A) (w w' : world)
    (ys : list B) :
  mapM f l w = (w', Ok ys) -> length ys = length l.
Proof.
  revert w w' ys. induction l as [|x t IH]; intros w w' ys; simpl.
  - unfold ret. now intros [= _ <-].
  - intros E. apply bind_ok_inv in E as (w1 & y & _ & E).
    apply bind_ok_inv in E as (w2 & ys' & E2 & E).
    unfold ret in E. injection E as _ <-. simpl. f_equal.
    eapply IH; eauto.
Qed.

(** X2.  When [selectFeatures] or [selectROIs] returns, the folds stored
    in the object are the ones enumerated from the origin labels of the
    pattern, and the returned list, [perfs] and the selection masks all
    have one entry per fold. *)
Theorem results_have_one_entry_per_fold (clf : Classifier) (kwargs : ClfArgs)
    (w w' : world) :
  (forall res,
      selectFeatures clf kwargs w = (w', Ok res) ->
      getUniqueLengthNCombinations (originlabels (__pattern (this w)))
        (__metacvtype (this w)) = Res (__metacv_origins (this w'))
      /\ length res = length (__metacv_origins (this w'))
      /\ length (__perfs (this w')) = length (__metacv_origins (this w'))
      /\ length (__selection_masks (this w'))
         = length (__metacv_origins (this w')))
  /\ (forall res,
        selectROIs clf kwargs w = (w', Ok res) ->
        getUniqueLengthNCombinations (originlabels (__pattern (this w)))
          (__metacvtype (this w)) = Res (__metacv_origins (this w'))
        /\ length res = length (__metacv_origins (this w'))
        /\ length (__perfs (this w')) = length (__metacv_origins (this w'))
        /\ length (__selection_masks (this w'))
           = length (__metacv_origins (this w'))).
Proof.
  split.
  - intros res E. rewrite selectFeatures_run in E. cbv zeta in E.
    destruct (cand_features_of _) as [w0 [ids|e|]] eqn:Ec;
      [|discriminate|discriminate].
    apply cand_features_of_ok in Ec as [-> _]. cbn [heap this] in E.
    destruct (__doCVSelection _ _ _ _ _ _) as [w2 [[sf dummy]|e|]] eqn:Ecv;
      [|discriminate|discriminate].
    destruct (mapM _ sf w2) as [w3 [masks|e|]] eqn:Em;
      [|discriminate|discriminate].
    injection E as <- <-.
    pose proof (framed_eq_this _ w2
                  (framed_eq_store_masks 0 (__pattern (this w2)) sf)) as Hs.
    rewrite Em in Hs. cbn [fst] in Hs.
    apply mapM_ok_length in Em.
    rewrite doCVSelection_run in Ecv. cbn [heap this] in Ecv.
    cbn [clear_fields __pattern __metacvtype] in Ecv.
    destruct (getUniqueLengthNCombinations _ _) as [origins|e];
      [|discriminate].
    apply meta_folds_accounts in Ecv as (accs & Hp & _ & Ho & Hl1 & Hl2 & _);
      [|apply strategy_allocates; constructor].
    cbn [this with_origins clear_fields __perfs __metacv_origins] in Hp, Ho.
    cbn [this with_masks __perfs __selection_masks __metacv_origins].
    rewrite Hs, Ho, Hp, Em. simpl in Hl2. repeat split; auto.
  - intros res E. rewrite selectROIs_run in E.
    destruct (heap w !! __mask (this w)) as [o|]; [|discriminate].
    destruct (as_array o) as [m|e]; [|discriminate].
    destruct (__doCVSelection _ _ _ _ _ _) as [w2 [[fm rois]|e|]] eqn:Ecv;
      [|discriminate|discriminate].
    injection E as <- <-.
    rewrite doCVSelection_run in Ecv. cbn [heap this] in Ecv.
    cbn [clear_fields __pattern __metacvtype] in Ecv.
    destruct (getUniqueLengthNCombinations _ _) as [origins|e];
      [|discriminate].
    apply meta_folds_accounts in Ecv as (accs & Hp & _ & Ho & Hl1 & Hl2 & Hl3);
      [|apply strategy_allocates; constructor].
    cbn [this with_origins clear_fields __perfs __metacv_origins] in Hp, Ho.
    cbn [this with_masks __perfs __selection_masks __metacv_origins].
    rewrite Ho, Hp. simpl in Hl2, Hl3. repeat split; auto.
Qed.

(** X3.  A call starts by clearing the results: what earlier calls left
    in [perfs], in the selection masks and in the stored folds has no
    influence on the outcome of [selectFeatures] or [selectROIs] nor on
    the world they end in. *)
Theorem earlier_results_do_not_matter (clf : Classifier) (kwargs : ClfArgs)
    (h : list pyobj) (self : IncrementalFeatureSearch) (perfs : list Q)
    (masks : list loc) (origins : list (list Z)) :
  let self' :=
    IFS (__pattern self) (__mask self) (__cvtype self) (__metacvtype self)
      (__break_crit self) (__cvargs self) perfs masks origins in
  selectFeatures clf kwargs (World h self')
  = selectFeatures clf kwargs (World h self)
  /\ selectROIs clf kwargs (World h self')
     = selectROIs clf kwargs (World h self).
Proof.
  cbv zeta. split.
  - rewrite !selectFeatures_run. reflexivity.
  - rewrite !selectROIs_run. reflexivity.
Qed.

End Bookkeeping.

Section Edges.

Context {C : Collaborators}.

(** ** The inner search at its edges *)

(** X4.  On an empty pool the inner search returns at once: the chosen
    list is empty, the selected set is the very object the caller passed,
    and the only change of the store is the copy of the pool.  No merge
    function and no collaborator is called, whatever they are. *)
Theorem doSelection_of_empty_pool (pattern : Pattern) (clf : Classifier)
    (clfargs : ClfArgs) (featureselector : loc -> Z -> M loc)
    (selected candidates : loc) (w : world) :
  heap w !! candidates = Some (PyList []) ->
  __doSelection pattern clf clfargs featureselector selected candidates w
  = (World (heap w ++ [PyList []]) (this w), Ok (selected, [])).
Proof.
  intros Hc. rewrite doSelection_run, Hc. unfold bind.
  rewrite (while_candidates_step _ _ _ _ _ _ _ _ []).
  - reflexivity.
  - simpl. rewrite lookup_app_r by lia. now rewrite Nat.sub_diag.
Qed.

(** X5.  The selected set returned by the inner search is the caller's
    own object exactly when no candidate was chosen; otherwise it is an
    object that did not exist when the search started. *)
Theorem doSelection_returns_own_or_fresh (pattern : Pattern)
    (clf : Classifier) (clfargs : ClfArgs)
    (featureselector : loc -> Z -> M loc) (selected candidates : loc)
    (w w' : world) (r : loc) (ids : list Z) :
  is_strategy featureselector ->
  __doSelection pattern clf clfargs featureselector selected candidates w
    = (w', Ok (r, ids)) ->
  (ids = [] /\ r = selected)
  \/ (ids <> [] /\ heap w !! r = None /\ exists o, heap w' !! r = Some o).
Proof.
  intros Hfs E. apply strategy_allocates in Hfs.
  destruct (doSelection_ok_pool _ _ _ _ _ _ _ _ _ E) as [pool Hc].
  eapply (doSelection_invariant
            (fun w0 st _ =>
               length (heap w) < length (heap w0)
               /\ ((st_best_ids st = [] /\ st_selected st = selected)
                   \/ (st_best_ids st <> []
                       /\ length (heap w) <= st_selected st
                       /\ st_selected st < length (heap w0)))))
    in E as (st' & pool' & [Hlen HI] & <- & <-); eauto.
  - destruct HI as [HI | (Hne & Hge & Hlt)]; [now left|]. right.
    split; [exact Hne|]. split; [apply lookup_ge_None_2; lia|].
    now apply lookup_lt_is_Some_2.
  - intros w0 w0' st p [Hlen HI] _ [Hle _]. split; [lia|].
    destruct HI as [HI | (Hne & Hge & Hlt)]; [now left|]. right.
    repeat split; auto. lia.
  - intros w0 st p b o q _ [Hlen _] _ _. cbn [heap st_best_ids st_selected].
    rewrite length_insert, length_app. cbn [length]. split; [lia|]. right.
    split; [now destruct (st_best_ids st)|]. split; lia.
  - cbn [heap st_best_ids st_selected]. rewrite length_app. cbn [length].
    split; [lia|]. now left.
Qed.

End Edges.

Section Gain.

Context {C : Collaborators}.

(** ** What an accepted candidate gains *)

Lemma rate_candidates_forall (P : Q -> Prop) (pattern : Pattern)
    (clf : Classifier) (clfargs : ClfArgs)
    (featureselector : loc -> Z -> M loc) (selected : loc) (cands : list Z) :
  (forall cvargs p c t a perf,
      CrossValidation_run cvargs p c t a = Res perf -> P (np_mean perf)) ->
  forall acc rs w w',
    rate_candidates pattern clf clfargs featureselector selected cands acc w
      = (w', Ok rs) ->
    List.Forall P acc -> List.Forall P rs.
Proof.
  intros HP. induction cands as [|c rest IH]; intros acc rs w w'; simpl.
  - unfold ret. now intros [= _ <-].
  - intros E Hacc.
    apply bind_ok_inv in E as (w1 & features & _ & E).
    apply bind_ok_inv in E as (w2 & fobj & _ & E).
    apply bind_ok_inv in E as (w3 & temp_pat & _ & E).
    apply bind_ok_inv in E as (w4 & cv_perf & Ecv & E).
    apply IH in E; [exact E|]. apply List.Forall_app. split; [exact Hacc|].
    constructor; [|constructor].
    unfold __doCrossValidation, bind, get_self, lift in Ecv.
    destruct (CrossValidation_run _ _ _ _ _) eqn:Er; [|discriminate].
    injection Ecv as _ <-. eapply HP; eauto.
Qed.

(** The ways a round can end, with what is known of the rating of an
    accepted winner. *)
Lemma choose_best_cases_gain (featureselector : loc -> Z -> M loc)
    (feat_cand : loc) (rs : list Q) (st : search_state) (w : world)
    (pool : list Z) :
  allocates_only featureselector ->
  heap w !! feat_cand = Some (PyList pool) -> pool <> [] ->
  length rs = length pool ->
  choose_best featureselector feat_cand rs st w = (w, Ok Break)
  \/ (exists e, choose_best featureselector feat_cand rs st w = (w, Raise e))
  \/ (exists b o r,
        In b pool /\ In r rs
        /\ (__break_crit (this w) <= r - st_best_performance_ever st)%Q
        /\ featureselector (st_selected st) b w
           = (World (heap w ++ [o]) (this w), Ok (length (heap w)))
        /\ choose_best featureselector feat_cand rs st w
           = (World (<[feat_cand:=PyList (remove_first b pool)]> (heap w ++ [o]))
                (this w),
              Ok (Continue (SearchState (length (heap w)) (st_best_ids st ++ [b])
                              r (st_selection_counter st + 1))))).
Proof.
  intros Hfs Hfc Hne Hlen.
  destruct (np_argmax_first_max rs) as (k & r & Hk & Hr & Hkr & _).
  { intros ->. destruct pool; [congruence | discriminate]. }
  assert (Hkl : k < length pool).
  { rewrite <- Hlen. eapply lookup_lt_Some; eauto. }
  destruct (lookup_lt_is_Some_2 pool k Hkl) as [b Hb].
  rewrite (choose_best_run _ _ _ _ _ pool k b r Hfc Hk Hr Hb).
  destruct (Qltb _ _) eqn:Eq; [now left|]. right.
  apply Qltb_ge in Eq.
  destruct (Hfs (st_selected st) b w) as [(e & ->) | (o & E)].
  - left. eauto.
  - right. exists b, o, r. rewrite E.
    assert (Hin : In b pool) by (eapply lookup_In; eauto).
    split; [exact Hin|].
    split; [apply list_elem_of_In; eapply list_elem_of_lookup_2; eauto|].
    split; [exact Eq|]. split; [reflexivity|].
    rewrite read_list_run. cbn [heap this].
    rewrite lookup_app_l by (eapply lookup_lt_Some; eauto). rewrite Hfc.
    apply existsb_eqb_In in Hin. now rewrite Hin.
Qed.

(** The rule of the loop again, for properties that depend on the
    ratings: [P] holds of every rating the cross-validation can give. *)
Lemma while_candidates_invariant_rated (P : Q -> Prop)
    (I : world -> search_state -> list Z -> Prop)
    (pattern : Pattern) (clf : Classifier) (clfargs : ClfArgs)
    (featureselector : loc -> Z -> M loc) (feat_cand : loc) :
  allocates_only featureselector ->
  (forall cvargs p c t a perf,
      CrossValidation_run cvargs p c t a = Res perf -> P (np_mean perf)) ->
  (forall w w' st pool,
      I w st pool -> this w' = this w ->
      heap_frame (length (heap w)) (heap w) (heap w') -> I w' st pool) ->
  (forall w st pool b o r,
      heap w !! feat_cand = Some (PyList pool) -> I w st pool -> In b pool ->
      P r ->
      (__break_crit (this w) <= r - st_best_performance_ever st)%Q ->
      featureselector (st_selected st) b w
        = (World (heap w ++ [o]) (this w), Ok (length (heap w))) ->
      I (World (<[feat_cand:=PyList (remove_first b pool)]> (heap w ++ [o]))
           (this w))
        (SearchState (length (heap w)) (st_best_ids st ++ [b]) r
           (st_selection_counter st + 1))
        (remove_first b pool)) ->
  forall fuel w st pool w' st',
    heap w !! feat_cand = Some (PyList pool) -> I w st pool ->
    while_candidates fuel pattern clf clfargs featureselector feat_cand st w
      = (w', Ok st') ->
    exists pool', heap w' !! feat_cand = Some (PyList pool') /\ I w' st' pool'.
Proof.
  intros Hfs HP Hstable Haccept.
  induction fuel as [|fuel IH]; intros w st pool w' st' Hfc HI E;
    rewrite (while_candidates_step _ _ _ _ _ _ _ _ pool Hfc) in E;
    destruct pool as [|c pool0] eqn:Epool.
  - injection E as <- <-. eauto.
  - discriminate.
  - injection E as <- <-. eauto.
  - rewrite <- Epool in *.
    apply bind_ok_inv in E as (w1 & rs & E1 & E).
    apply bind_ok_inv in E as (w2 & s & E2 & E).
    destruct (framed_rate_candidates (length (heap w)) _ _ _ _ _ _ _ Hfs
                _ _ _ (le_n _) E1) as [Hs1 Hf1].
    pose proof (heap_frame_lookup _ _ _ _ Hf1 Hfc) as Hfc1.
    pose proof (rate_candidates_forall P _ _ _ _ _ _ HP _ _ _ _ E1
                  (List.Forall_nil _)) as HPrs.
    apply rate_candidates_length in E1. simpl in E1.
    assert (HI1 : I w1 st pool) by (apply (Hstable w); auto).
    destruct (choose_best_cases_gain featureselector feat_cand rs st w1 pool)
      as [Eb | [(e & Ee) | (b & o & r & Hin & Hr & Hgain & Efs & Ec)]]; auto.
    + subst pool. discriminate.
    + rewrite Eb in E2. injection E2 as <- <-.
      unfold ret in E. injection E as <- <-. eauto.
    + rewrite Ee in E2. discriminate.
    + rewrite Ec in E2. injection E2 as <- <-.
      apply (IH _ _ (remove_first b pool) _ _) in E; [exact E| |].
      * simpl. apply list_lookup_insert_eq. rewrite length_app.
        apply lookup_lt_Some in Hfc1. lia.
      * apply Haccept; auto.
        rewrite List.Forall_forall in HPrs. now apply HPrs.
Qed.

(** X6.  In one run of the loop, with ratings that are numbers, every
    accepted candidate raises [best_performance_ever] by at least the
    break criterion; with a break criterion that is not negative,
    [best_performance_ever] never goes down. *)
Theorem accepted_candidates_gain (fuel : nat) (pattern : Pattern)
    (clf : Classifier) (clfargs : ClfArgs)
    (featureselector : loc -> Z -> M loc) (feat_cand : loc)
    (st st' : search_state) (w w' : world) (pool : list Z) :
  rates_every_subset (this w) pattern clf clfargs ->
  is_strategy featureselector ->
  heap w !! feat_cand = Some (PyList pool) ->
  while_candidates fuel pattern clf clfargs featureselector feat_cand st w
    = (w', Ok st') ->
  exists new_ids,
    st_best_ids st' = st_best_ids st ++ new_ids
    /\ (st_best_performance_ever st
        + inject_Z (Z.of_nat (length new_ids)) * __break_crit (this w)
        <= st_best_performance_ever st')%Q
    /\ ((0 <= __break_crit (this w))%Q ->
        (st_best_performance_ever st <= st_best_performance_ever st')%Q).
Proof.
  intros _ Hfs Hfc E. apply strategy_allocates in Hfs.
  eapply (while_candidates_invariant_rated (fun _ => True)
            (fun w0 st0 _ =>
               this w0 = this w
               /\ exists new_ids,
                    st_best_ids st0 = st_best_ids st ++ new_ids
                    /\ (st_best_performance_ever st
                        + inject_Z (Z.of_nat (length new_ids))
                          * __break_crit (this w)
                        <= st_best_performance_ever st0)%Q))
    in E as (pool' & _ & _ & new_ids & Hids & Hgain); eauto.
  - exists new_ids. split; [exact Hids|]. split; [exact Hgain|].
    intros Hpos.
    assert (H0 : (0 <= inject_Z (Z.of_nat (length new_ids)))%Q).
    { change 0%Q with (inject_Z 0). rewrite <- Zle_Qle. lia. }
    nra.
  - intros w0 w0' st0 p [Hs HI] Hs' _. split; [congruence | exact HI].
  - intros w0 st0 p b o r _ [Hs (new_ids & Hids & Hgain)] _ _ Hr _.
    cbn [this st_best_ids st_best_performance_ever].
    split; [exact Hs|]. exists (new_ids ++ [b]).
    split; [rewrite Hids; now rewrite app_assoc|].
    rewrite length_app. cbn [length]. rewrite Nat.add_1_r, inject_Z_S.
    rewrite Hs in Hr. nra.
  - split; [reflexivity|]. exists []. split; [now rewrite app_nil_r|].
    cbn [length]. change (inject_Z (Z.of_nat 0)) with 0%Q. lra.
Qed.

(** X7.  When the cross-validation reports accuracies, none of them above
    [1], the number of candidates the inner search accepts, times the
    break criterion, is at most [1]; a break criterion of [0.001] allows a
    thousand candidates at most. *)
Theorem chosen_ids_bounded_by_break_crit (pattern : Pattern)
    (clf : Classifier) (clfargs : ClfArgs)
    (featureselector : loc -> Z -> M loc) (selected candidates : loc)
    (w w' : world) (r : loc) (ids : list Z) :
  (forall cvargs p c t a perf,
      CrossValidation_run cvargs p c t a = Res perf ->
      List.Forall (fun q => (q <= 1)%Q) perf) ->
  rates_every_subset (this w) pattern clf clfargs ->
  is_strategy featureselector ->
  __doSelection pattern clf clfargs featureselector selected candidates w
    = (w', Ok (r, ids)) ->
  (inject_Z (Z.of_nat (length ids)) * __break_crit (this w) <= 1)%Q.
Proof.
  intros Hcv _ Hfs E. apply strategy_allocates in Hfs.
  destruct (doSelection_ok_pool _ _ _ _ _ _ _ _ _ E) as [pool Hc].
  rewrite doSelection_run, Hc in E.
  apply bind_ok_inv in E as (w1 & st' & E & Er).
  unfold ret in Er. injection Er as _ _ <-.
  eapply (while_candidates_invariant_rated (fun q => (q <= 1)%Q)
            (fun w0 st0 _ =>
               this w0 = this w
               /\ (inject_Z (Z.of_nat (length (st_best_ids st0)))
                   * __break_crit (this w)
                   <= st_best_performance_ever st0)%Q
               /\ (st_best_performance_ever st0 <= 1)%Q))
    in E as (pool' & _ & _ & Hn & H1); eauto.
  - eapply Qle_trans; eauto.
  - intros cvargs p c t a perf Hp. apply np_mean_upper. eapply Hcv; eauto.
  - intros w0 w0' st0 p [Hs HI] Hs' _. split; [congruence | exact HI].
  - intros w0 st0 p b o q _ [Hs [Hn H1]] _ Hq Hr _.
    cbn [this st_best_ids st_best_performance_ever].
    split; [exact Hs|]. split; [|exact Hq].
    rewrite length_app. cbn [length]. rewrite Nat.add_1_r, inject_Z_S.
    rewrite Hs in Hr. nra.
  - cbn [heap]. rewrite lookup_app_r by lia. now rewrite Nat.sub_diag.
  - cbn [this st_best_ids st_best_performance_ever length].
    split; [reflexivity|]. split; [|discriminate].
    change (inject_Z (Z.of_nat 0)) with 0%Q. lra.
Qed.

End Gain.

(** ** The masks of the chosen regions *)

Lemma zip_orb_map {A} (f g : A -> bool) (l : list A) :
  zip_orb (map f l) (map g l) = map (fun x => f x || g x) l.
Proof. induction l as [|x t IH]; simpl; [reflexivity | now rewrite IH]. Qed.

Lemma as_array_shape_data (o : pyobj) (m : ndarray Z) (c : Z) :
  as_array o = Res m ->
  np_eq_scalar o c
  = Res (PyBoolArray (NdArray (shape m) (map (fun x => (x =? c)%Z) (data m)))).
Proof. unfold np_eq_scalar. now intros ->. Qed.

Lemma roi_mask_merge (o : pyobj) (m : ndarray Z) (ids : list Z) (c : Z) :
  as_array o = Res m ->
  rbind (np_eq_scalar o c) (np_logical_or (roi_mask m ids))
  = Res (roi_mask m (ids ++ [c])).
Proof.
  intros Hm. rewrite (as_array_shape_data o m c Hm). unfold rbind.
  unfold np_logical_or, roi_mask, as_bool_array, rbind. cbn [shape data].
  unfold shape_eqb. destruct (decide (shape m = shape m)); [|congruence].
  rewrite zip_orb_map. do 3 f_equal. apply map_ext. intros x.
  rewrite existsb_app. simpl. now rewrite orb_false_r.
Qed.

Lemma np_zeros_bool_roi_mask (m : ndarray Z) :
  well_shaped m -> np_zeros_bool (shape m) = roi_mask m [].
Proof.
  unfold well_shaped, np_zeros_bool, roi_mask. intros <-. do 2 f_equal.
  induction (data m) as [|x t IH]; simpl; [reflexivity | now rewrite IH].
Qed.

Section Regions.

Context {C : Collaborators}.

(** With the merge by mask value the selected object is the mask of the
    initial values followed by the chosen ones. *)
Lemma doSelection_by_mask_selected (pattern : Pattern) (clf : Classifier)
    (clfargs : ClfArgs) (selected candidates : loc) (w w' : world)
    (o : pyobj) (m : ndarray Z) (init : list Z) (r : loc) (ids : list Z) :
  heap w !! __mask (this w) = Some o -> as_array o = Res m ->
  heap w !! selected = Some (roi_mask m init) ->
  __doSelection pattern clf clfargs __selectByMaskValue selected candidates w
    = (w', Ok (r, ids)) ->
  heap w' !! r = Some (roi_mask m (init ++ ids)).
Proof.
  intros Ho Hm Hsel E.
  destruct (doSelection_ok_pool _ _ _ _ _ _ _ _ _ E) as [pool Hc].
  eapply (doSelection_invariant
            (fun w0 st _ =>
               this w0 = this w
               /\ heap w0 !! __mask (this w) = Some o
               /\ heap w0 !! st_selected st
                  = Some (roi_mask m (init ++ st_best_ids st))))
    in E as (st' & pool' & (_ & _ & HI) & <- & <-); eauto.
  - apply strategy_allocates. constructor.
  - intros w0 w0' st p (Hs & Hmask & HI) Hs' Hf.
    split; [congruence|].
    split; eapply heap_frame_lookup; eauto.
  - intros w0 st p b o' q Hfc (Hs & Hmask & HI) Hin Efs.
    cbn [heap this st_selected st_best_ids].
    rewrite selectByMaskValue_run, HI, Hs, Hmask in Efs.
    rewrite (roi_mask_merge o m _ b Hm) in Efs.
    injection Efs as Eo. apply app_inv_head in Eo. injection Eo as <-.
    assert (Hne : __mask (this w) <> length (heap w)).
    { intros Heq. rewrite Heq, Hfc in Hmask. injection Hmask as <-.
      discriminate Hm. }
    pose proof (lookup_lt_Some _ _ _ Hfc) as Hlt.
    pose proof (lookup_lt_Some _ _ _ Hmask) as Hlt'.
    split; [exact Hs|]. split.
    + rewrite list_lookup_insert_ne by lia. now rewrite lookup_app_l.
    + rewrite list_lookup_insert_ne by lia.
      rewrite lookup_app_r by lia. rewrite Nat.sub_diag. simpl.
      now rewrite app_assoc.
  - cbn [heap this st_selected st_best_ids]. rewrite app_nil_r.
    split; [reflexivity|].
    split; (rewrite lookup_app_l; [assumption|eapply lookup_lt_Some; eauto]).
Qed.

Lemma folds_trace_by_mask (clf : Classifier) (clfargs : ClfArgs)
    (selected candidates : loc) (w w' : world) (origins : list (list Z))
    (results : list (loc * list Z)) (o : pyobj) (m : ndarray Z) :
  heap w !! __mask (this w) = Some o -> as_array o = Res m ->
  heap w !! selected = Some (roi_mask m []) ->
  folds_trace clf clfargs __selectByMaskValue selected candidates
    w origins results w' ->
  Forall (fun x => heap w' !! fst x = Some (roi_mask m (snd x))) results.
Proof.
  intros Ho Hm Hsel Ht.
  assert (Hfs : allocates_only __selectByMaskValue)
    by (apply strategy_allocates; constructor).
  induction Ht as [w|w exclude rest mtr mte w1 r ids sf acc
                     results w' Hs Hd Hr Ha Ht IH].
  - constructor.
  - pose proof (doSelection_by_mask_selected _ _ _ _ _ _ _ _ _ _ _ _
                  Ho Hm Hsel Hd) as Hr1.
    pose proof (framed_doSelection _ _ _ _ _ _ _ _ _ Hfs Hd) as [Hthis Hf].
    apply folds_trace_frame in Ht as Hf2; [|exact Hfs]. simpl in Hf2.
    constructor.
    + simpl. eapply heap_frame_lookup; eauto.
    + apply IH; cbn [heap this add_perf __mask].
      * rewrite Hthis. eapply heap_frame_lookup; eauto.
      * eapply heap_frame_lookup; eauto.
Qed.

(** Every fold chooses from the pool. *)
Lemma folds_trace_permutation (clf : Classifier) (clfargs : ClfArgs)
    (featureselector : loc -> Z -> M loc) (selected candidates : loc)
    (w w' : world) (origins : list (list Z))
    (results : list (loc * list Z)) (pool : list Z) :
  allocates_only featureselector ->
  heap w !! candidates = Some (PyList pool) ->
  folds_trace clf clfargs featureselector selected candidates
    w origins results w' ->
  Forall (fun x => exists remaining, Permutation (snd x ++ remaining) pool)
    results.
Proof.
  intros Hfs Hc Ht.
  induction Ht as [w|w exclude rest mtr mte w1 r ids sf acc
                     results w' Hs Hd Hr Ha Ht IH].
  - constructor.
  - pose proof (framed_doSelection _ _ _ _ _ _ _ _ _ Hfs Hd) as [_ Hf].
    constructor.
    + simpl. eapply doSelection_permutation; eauto.
    + apply IH. cbn [heap]. eapply heap_frame_lookup; eauto.
Qed.

(** The run of [selectROIs], from its return value. *)
Lemma selectROIs_ok_trace (clf : Classifier) (kwargs : ClfArgs)
    (w w' : world) (res : list (list Z)) :
  selectROIs clf kwargs w = (w', Ok res) ->
  exists o m origins results w2,
    heap w !! __mask (this w) = Some o /\ as_array o = Res m
    /\ folds_trace clf kwargs __selectByMaskValue
         (S (length (heap w))) (length (heap w))
         (World (heap w ++ [PyList (np_unique (data m));
                            np_zeros_bool (shape m)])
            (with_origins (clear_fields (this w)) origins))
         origins results w2
    /\ heap w' = heap w2
    /\ res = map snd results
    /\ __selection_masks (this w') = map fst results.
Proof.
  intros E. rewrite selectROIs_run in E.
  destruct (heap w !! __mask (this w)) as [o|] eqn:Ho; [|discriminate].
  destruct (as_array o) as [m|e] eqn:Hm; [|discriminate].
  destruct (__doCVSelection _ _ _ _ _ _) as [w2 [[fm rois]|e|]] eqn:Ecv;
    [|discriminate|discriminate].
  injection E as <- <-.
  rewrite doCVSelection_run in Ecv. cbn [heap this] in Ecv.
  destruct (getUniqueLengthNCombinations _ _) as [origins|e]; [|discriminate].
  apply meta_folds_trace in Ecv as (results & Ht & -> & ->).
  exists o, m, origins, results, w2.
  cbn [heap this with_masks __selection_masks]. auto 10.
Qed.

(** X8.  After [selectROIs] has returned, the selection mask stored for
    a fold is a boolean array of the shape of the mask that is true
    exactly at the elements whose mask value is one of the values chosen
    in that fold. *)
Theorem selection_masks_mark_chosen_rois (clf : Classifier)
    (kwargs : ClfArgs) (w w' : world) (res : list (list Z)) (o : pyobj)
    (m : ndarray Z) :
  heap w !! __mask (this w) = Some o -> as_array o = Res m ->
  well_shaped m ->
  selectROIs clf kwargs w = (w', Ok res) ->
  Forall2 (fun mloc ids => heap w' !! mloc = Some (roi_mask m ids))
    (__selection_masks (this w')) res.
Proof.
  intros Ho Hm Hws E.
  apply selectROIs_ok_trace in E
    as (o' & m' & origins & results & w2 & Ho' & Hm' & Ht & Hh & -> & ->).
  rewrite Ho in Ho'. injection Ho' as <-. rewrite Hm in Hm'.
  injection Hm' as <-.
  pose proof (lookup_lt_Some _ _ _ Ho) as Hlt.
  apply (folds_trace_by_mask _ _ _ _ _ _ _ _ o m) in Ht.
  - rewrite <- Hh in Ht. clear -Ht.
    induction results as [|[r ids] t IH]; simpl; constructor.
    + now inversion Ht.
    + apply IH. now inversion Ht.
  - cbn [heap this with_origins clear_fields __mask].
    now rewrite lookup_app_l.
  - exact Hm.
  - cbn [heap]. rewrite lookup_app_r by lia.
    replace (S (length (heap w)) - length (heap w)) with 1 by lia.
    simpl. now rewrite np_zeros_bool_roi_mask.
Qed.

(** X9.  In every fold [selectROIs] chooses distinct values, each of them
    a value of the mask, and never more values than the mask has distinct
    ones. *)
Theorem chosen_rois_are_distinct_mask_values (clf : Classifier)
    (kwargs : ClfArgs) (w w' : world) (res : list (list Z)) (o : pyobj)
    (m : ndarray Z) :
  heap w !! __mask (this w) = Some o -> as_array o = Res m ->
  selectROIs clf kwargs w = (w', Ok res) ->
  List.Forall (fun ids =>
                 List.NoDup ids
                 /\ (forall x, In x ids -> In x (data m))
                 /\ length ids <= length (nodup Z.eq_dec (data m))) res.
Proof.
  intros Ho Hm E.
  apply selectROIs_ok_trace in E
    as (o' & m' & origins & results & w2 & Ho' & Hm' & Ht & _ & -> & _).
  rewrite Ho in Ho'. injection Ho' as <-. rewrite Hm in Hm'.
  injection Hm' as <-.
  apply (folds_trace_permutation _ _ _ _ _ _ _ _ _ (np_unique (data m)))
    in Ht.
  - apply List.Forall_forall. intros ids Hin.
    apply in_map_iff in Hin as ([r ids'] & <- & Hin).
    rewrite Forall_forall in Ht. apply list_elem_of_In in Hin.
    destruct (Ht _ Hin) as [remaining Hp]. cbn [snd] in *.
    split; [|split].
    + pose proof (np_unique_NoDup (data m)) as Hnd.
      apply NoDup_ListNoDup in Hnd. apply Permutation_sym in Hp.
      apply (Permutation_NoDup Hp) in Hnd.
      now apply NoDup_app_remove_r in Hnd.
    + intros x Hx. apply np_unique_In. apply (Permutation_in x Hp).
      apply in_or_app. now left.
    + rewrite <- np_unique_length. apply Permutation_length in Hp.
      rewrite length_app in Hp. lia.
  - apply strategy_allocates. constructor.
  - cbn [heap]. rewrite lookup_app_r by lia. now rewrite Nat.sub_diag.
Qed.

End Regions.

(** ** The mean selection mask *)

Lemma columns_of_maps {A B} (g : A -> B -> Q) (l : list B) (xs : list A) :
  columns (length l) (map (fun a => map (g a) l) xs)
  = map (fun x => map (fun a => g a x) xs) l.
Proof.
  induction l as [|x t IH]; [reflexivity|].
  cbn [length columns map]. rewrite !map_map. cbn [hd tl].
  f_equal. exact IH.
Qed.

Lemma np_mean_axis0_of_masks {X} (sh : list nat) (dat : list Z)
    (g : X -> Z -> bool) (xs : list X) :
  xs <> [] ->
  np_mean_axis0 (map (fun x => NdArray sh (map Z_of_bool (map (g x) dat))) xs)
  = Res (NdArray sh
           (map (fun v => np_mean (map (fun x => Q_of_bool (g x v)) xs)) dat)).
Proof.
  intros Hne. unfold np_mean_axis0.
  destruct xs as [|x0 rest]; [congruence|].
  remember (x0 :: rest) as xs eqn:Exs.
  assert (Hshapes :
            forallb (fun b : ndarray Z => shape_eqb sh (shape b))
              (map (fun x => NdArray sh (map Z_of_bool (map (g x) dat))) xs)
            = true).
  { apply forallb_forall. intros b Hb.
    apply in_map_iff in Hb as (x & <- & _). cbn [shape].
    unfold shape_eqb. destruct (decide (sh = sh)); [reflexivity|congruence]. }
  rewrite Exs at 1. cbn [map shape data]. rewrite Hshapes.
  cbn [shape data]. do 2 f_equal.
  rewrite !length_map, !map_map. cbn [data].
  rewrite (map_ext _ (fun x : X => map (fun v => Q_of_bool (g x v)) dat)).
  2:{ intros x. rewrite !map_map. apply map_ext. intros v.
      now destruct (g x v). }
  rewrite (columns_of_maps (fun (x : X) v => Q_of_bool (g x v))).
  now rewrite map_map.
Qed.

Section MeanMask.

Context {C : Collaborators}.

Lemma mapM_read_array_same (locs : list loc) (w : world) :
  fst (mapM (C:=C) read_array locs w) = w.
Proof.
  induction locs as [|l t IH]; [reflexivity|].
  cbn [mapM]. unfold bind at 1. rewrite read_array_run.
  destruct (heap w !! l) as [o|]; [|reflexivity].
  destruct (as_array o) as [a|e]; [|reflexivity].
  unfold bind at 1. destruct (mapM read_array t w) as [w1 [ys|e|]] eqn:E;
    cbn [fst] in IH; subst; reflexivity.
Qed.

Lemma mapM_read_array_ok (locs : list loc) (arrs : list (ndarray Z))
    (w : world) :
  Forall2 (fun l a => exists o, heap w !! l = Some o /\ as_array o = Res a)
    locs arrs ->
  mapM (C:=C) read_array locs w = (w, Ok arrs).
Proof.
  induction 1 as [|l a locs arrs (o & Ho & Ha) _ IH]; [reflexivity|].
  cbn [mapM]. unfold bind at 1. rewrite read_array_run, Ho, Ha.
  unfold bind at 1. now rewrite IH.
Qed.

(** X10.  Asking for the mean selection mask changes nothing, whatever
    it returns. *)
Theorem mean_mask_reads_only (w : world) :
  fst (getMeanSelectionMask w) = w.
Proof.
  unfold getMeanSelectionMask, bind at 1, get_self.
  destruct (_ <? _); [reflexivity|].
  unfold bind at 1.
  pose proof (mapM_read_array_same (__selection_masks (this w)) w) as H.
  destruct (mapM read_array _ w) as [w1 [arrs|e|]]; cbn [fst] in H; subst;
    try reflexivity.
  unfold bind, lift. destruct (np_mean_axis0 arrs); reflexivity.
Qed.

(** X11.  After [selectROIs] has returned, the mean selection mask is
    [None] when there was no fold; otherwise it is an array of the shape
    of the mask whose element at a position is the fraction of the folds
    that chose the mask value found at this position. *)
Theorem mean_mask_is_fraction_of_folds (clf : Classifier) (kwargs : ClfArgs)
    (w w' : world) (res : list (list Z)) (o : pyobj) (m : ndarray Z) :
  heap w !! __mask (this w) = Some o -> as_array o = Res m ->
  well_shaped m ->
  selectROIs clf kwargs w = (w', Ok res) ->
  getMeanSelectionMask w'
  = (w', Ok match res with
            | [] => None
            | _ :: _ =>
                Some (NdArray (shape m)
                        (map (fun x =>
                                np_mean
                                  (map (fun ids =>
                                          Q_of_bool (existsb (Z.eqb x) ids))
                                     res))
                           (data m)))
            end).
Proof.
  intros Ho Hm Hws E.
  apply selectROIs_ok_trace in E
    as (o' & m' & origins & results & w2 & Ho' & Hm' & Ht & Hh & -> & Hmasks).
  rewrite Ho in Ho'. injection Ho' as <-. rewrite Hm in Hm'.
  injection Hm' as <-.
  pose proof (lookup_lt_Some _ _ _ Ho) as Hlt.
  apply (folds_trace_by_mask _ _ _ _ _ _ _ _ o m) in Ht;
    [ | cbn [heap this with_origins clear_fields __mask];
        now rewrite lookup_app_l
      | exact Hm
      | cbn [heap]; rewrite lookup_app_r by lia;
        replace (S (length (heap w)) - length (heap w)) with 1 by lia;
        simpl; now rewrite np_zeros_bool_roi_mask ].
  rewrite <- Hh in Ht.
  unfold getMeanSelectionMask, bind at 1, get_self. rewrite Hmasks.
  destruct (decide (results = [])) as [->|Hne]; [reflexivity|].
  assert (Hlen : (length (map fst results) <? 1) = false).
  { destruct results; [congruence | reflexivity]. }
  rewrite Hlen. unfold bind at 1.
  rewrite (mapM_read_array_ok _
             (map (fun x =>
                     NdArray (shape m)
                       (map Z_of_bool
                          (map (fun v => existsb (Z.eqb v) (snd x)) (data m))))
                results)).
  2:{ clear -Ht. induction results as [|[r ids] t IH]; simpl;
        constructor.
      - inversion Ht as [|? ? Hr _]; subst. simpl in Hr.
        exists (roi_mask m ids). split; [exact Hr | reflexivity].
      - apply IH. now inversion Ht. }
  unfold bind, lift, ret.
  rewrite (np_mean_axis0_of_masks (shape m) (data m)
             (fun (x : loc * list Z) v => existsb (Z.eqb v) (snd x))
             results Hne).
  assert (Hmatch : forall (a : ndarray Q),
             match map snd results with
             | [] => None
             | _ :: _ => Some a
             end = Some a).
  { intros a. destruct results; [congruence | reflexivity]. }
  rewrite Hmatch. do 4 f_equal. apply map_ext. intros v.
  now rewrite map_map.
Qed.

End MeanMask.

Section FeatureMasks.

Context {C : Collaborators}.

(** ** The results of [selectFeatures] *)

Lemma store_masks_ok (pattern : Pattern) (sf : list loc) :
  forall w w' masks,
    mapM (fun f =>
            bind (deref f) (fun fobj =>
            bind (lift (features2origmask pattern fobj))
              (fun m => alloc m))) sf w = (w', Ok masks) ->
    this w' = this w
    /\ heap_frame (length (heap w)) (heap w) (heap w')
    /\ Forall2 (fun f mloc =>
                  exists fobj o,
                    heap w' !! f = Some fobj
                    /\ features2origmask pattern fobj = Res o
                    /\ heap w' !! mloc = Some o) sf masks.
Proof.
  induction sf as [|f t IH]; intros w w' masks E.
  - cbn [mapM] in E. unfold ret in E. injection E as <- <-.
    split; [reflexivity|]. split; [apply heap_frame_refl | constructor].
  - cbn [mapM] in E.
    apply bind_ok_inv in E as (w1 & y & E1 & E).
    apply bind_ok_inv in E as (w2 & ys & E2 & E).
    unfold ret in E. injection E as <- <-.
    unfold bind, deref, lift, alloc in E1.
    destruct (heap w !! f) as [fobj|] eqn:Hf; [|discriminate].
    destruct (features2origmask pattern fobj) as [o|e] eqn:Ho;
      [|discriminate].
    injection E1 as <- <-.
    apply IH in E2 as (Hs & Hfr & HF). cbn [heap this] in Hs, Hfr.
    assert (Hfr' : heap_frame (length (heap w)) (heap w) (heap w2)).
    { eapply heap_frame_trans; [apply (heap_frame_app _ _ [o]), le_n|].
      eapply heap_frame_le; [|exact Hfr]. rewrite length_app. lia. }
    split; [exact Hs|]. split; [exact Hfr'|].
    constructor; [|exact HF].
    exists fobj, o. split; [eapply heap_frame_lookup; eauto|].
    split; [exact Ho|].
    eapply heap_frame_lookup; [exact Hfr|].
    rewrite lookup_app_r by lia. now rewrite Nat.sub_diag.
Qed.

(** The run of [selectFeatures], from its return value. *)
Lemma selectFeatures_ok_trace (clf : Classifier) (kwargs : ClfArgs)
    (w w' : world) (res : list loc) :
  selectFeatures clf kwargs w = (w', Ok res) ->
  exists o m pool origins results w2,
    heap w !! __mask (this w) = Some o /\ as_array o = Res m
    /\ Forall2 (fun coord id =>
                  getFeatureId (__pattern (this w)) coord = Res id)
         (np_transpose_nonzero m) pool
    /\ folds_trace clf kwargs __selectByFeatureId
         (length (heap w)) (S (length (heap w)))
         (World (heap w ++ [PyList []; PyList pool])
            (with_origins (clear_fields (this w)) origins))
         origins results w2
    /\ res = map fst results
    /\ heap_frame (length (heap w2)) (heap w2) (heap w')
    /\ Forall2 (fun f mloc =>
                  exists fobj o,
                    heap w' !! f = Some fobj
                    /\ features2origmask (__pattern (this w)) fobj = Res o
                    /\ heap w' !! mloc = Some o)
         res (__selection_masks (this w')).
Proof.
  intros E. rewrite selectFeatures_run in E. cbv zeta in E.
  destruct (cand_features_of _) as [w0 [pool|e|]] eqn:Ec;
    [|discriminate|discriminate].
  apply cand_features_of_ok in Ec as (-> & o & m & Ho & Hm & HF).
  cbn [heap this clear_fields __mask __pattern] in Ho, HF, E.
  assert (Ho' : heap w !! __mask (this w) = Some o).
  { destruct (decide (__mask (this w) < length (heap w))) as [Hlt|Hge].
    - now rewrite lookup_app_l in Ho.
    - rewrite lookup_app_r in Ho by lia.
      destruct (__mask (this w) - length (heap w)) as [|k]; simpl in Ho.
      + injection Ho as <-. discriminate Hm.
      + discriminate Ho. }
  destruct (__doCVSelection _ _ _ _ _ _) as [w2 [[sf dummy]|e|]] eqn:Ecv;
    [|discriminate|discriminate].
  destruct (mapM _ sf w2) as [w3 [masks|e|]] eqn:Em;
    [|discriminate|discriminate].
  injection E as <- <-.
  rewrite doCVSelection_run in Ecv. cbn [heap this] in Ecv.
  destruct (getUniqueLengthNCombinations _ _) as [origins|e]; [|discriminate].
  rewrite length_app in Ecv. cbn [length] in Ecv. rewrite Nat.add_1_r in Ecv.
  pose proof Ecv as Ef.
  apply (framed_meta_folds 0) in Ef as [(Hpat & _) _];
    [|apply strategy_allocates; constructor|lia].
  cbn [this with_origins clear_fields __pattern] in Hpat.
  apply meta_folds_trace in Ecv as (results & Ht & Hsf & _).
  cbn [app] in Hsf. subst sf.
  apply store_masks_ok in Em as (_ & Hfr & HFm). rewrite Hpat in HFm.
  exists o, m, pool, origins, results, w2.
  cbn [heap this with_masks __selection_masks].
  rewrite <- app_assoc in Ht. cbn [app] in Ht. auto 10.
Qed.

(** X12.  After [selectFeatures] has returned, the selection mask stored
    for a fold is what the pattern's [features2origmask] gives for the
    list of feature ids chosen in that fold. *)
Theorem selection_masks_project_chosen_features (clf : Classifier)
    (kwargs : ClfArgs) (w w' : world) (res : list loc) :
  selectFeatures clf kwargs w = (w', Ok res) ->
  Forall2 (fun r mloc =>
             exists ids o,
               heap w' !! r = Some (PyList ids)
               /\ features2origmask (__pattern (this w)) (PyList ids) = Res o
               /\ heap w' !! mloc = Some o)
    res (__selection_masks (this w')).
Proof.
  intros E.
  apply selectFeatures_ok_trace in E
    as (o & m & pool & origins & results & w2 & _ & _ & _ & Ht & -> & Hfr
        & HF).
  apply folds_trace_by_id in Ht.
  2:{ cbn [heap]. rewrite lookup_app_r by lia. now rewrite Nat.sub_diag. }
  revert HF. generalize (__selection_masks (this w')).
  induction results as [|[r ids] t IH]; intros masks HF;
    inversion HF as [|? mloc ? masks' (fobj & o' & Hr & Ho & Hm) HF']; subst;
    constructor.
  - inversion Ht as [|? ? Hr2 _]; subst. cbn [fst snd] in *.
    apply (heap_frame_lookup _ _ _ _ Hfr) in Hr2.
    rewrite Hr in Hr2. injection Hr2 as ->. eauto.
  - apply IH; [now inversion Ht | exact HF'].
Qed.

(** X13.  In every fold [selectFeatures] returns a list of feature ids
    of nonzero mask elements, never longer than the number of nonzero
    elements; with a mask that has none, every fold returns the empty
    list. *)
Theorem chosen_features_come_from_mask (clf : Classifier) (kwargs : ClfArgs)
    (w w' : world) (res : list loc) (o : pyobj) (m : ndarray Z) :
  heap w !! __mask (this w) = Some o -> as_array o = Res m ->
  selectFeatures clf kwargs w = (w', Ok res) ->
  List.Forall
    (fun r =>
       exists ids,
         heap w' !! r = Some (PyList ids)
         /\ (forall x, In x ids ->
               exists coord,
                 In coord (np_transpose_nonzero m)
                 /\ getFeatureId (__pattern (this w)) coord = Res x)
         /\ length ids
            <= length (filter (fun x => negb (x =? 0)%Z) (data m))) res.
Proof.
  intros Ho Hm E.
  apply selectFeatures_ok_trace in E
    as (o' & m' & pool & origins & results & w2 & Ho' & Hm' & HFp & Ht & ->
        & Hfr & _).
  rewrite Ho in Ho'. injection Ho' as <-. rewrite Hm in Hm'.
  injection Hm' as <-.
  pose proof Ht as Hp.
  apply (folds_trace_permutation _ _ _ _ _ _ _ _ _ pool) in Hp;
    [ | apply strategy_allocates; constructor
      | cbn [heap]; rewrite lookup_app_r by lia;
        replace (S (length (heap w)) - length (heap w)) with 1 by lia;
        reflexivity ].
  apply folds_trace_by_id in Ht.
  2:{ cbn [heap]. rewrite lookup_app_r by lia. now rewrite Nat.sub_diag. }
  assert (Hpool : forall x, In x pool ->
            exists coord, In coord (np_transpose_nonzero m)
              /\ getFeatureId (__pattern (this w)) coord = Res x).
  { clear -HFp. induction HFp as [|coord id coords ids Hid _ IH];
      intros x Hx; [destruct Hx|].
    destruct Hx as [<-|Hx].
    - exists coord. split; [now left | exact Hid].
    - destruct (IH x Hx) as (c & Hc & Hg). exists c. split; [now right|auto]. }
  assert (Hlen : length pool
                 = length (filter (fun x => negb (x =? 0)%Z) (data m))).
  { apply Forall2_length in HFp. rewrite <- HFp.
    unfold np_transpose_nonzero, flatnonzero. rewrite length_map.
    apply flatnonzero_from_length. }
  apply List.Forall_forall. intros r Hr.
  apply in_map_iff in Hr as ([r' ids] & <- & Hin).
  apply list_elem_of_In in Hin.
  rewrite Forall_forall in Ht, Hp.
  specialize (Ht _ Hin). destruct (Hp _ Hin) as [remaining Hperm].
  cbn [fst snd] in *. exists ids.
  split; [eapply heap_frame_lookup; eauto|]. split.
  - intros x Hx. apply Hpool. apply (Permutation_in x Hperm).
    apply in_or_app. now left.
  - rewrite <- Hlen. apply Permutation_length in Hperm.
    rewrite length_app in Hperm. lia.
Qed.

End FeatureMasks.

Section FirstRound.

Context {C : Collaborators}.

(** ** The first round of a search by feature id *)

Lemma rate_candidates_by_id (pattern : Pattern) (clf : Classifier)
    (clfargs : ClfArgs) (selected : loc) (l : list Z) (cands : list Z) :
  forall acc rs w w',
    heap w !! selected = Some (PyList l) ->
    rate_candidates pattern clf clfargs __selectByFeatureId selected cands
      acc w = (w', Ok rs) ->
    exists qs,
      rs = acc ++ qs
      /\ Forall2 (fun c q =>
                    rating_of (this w) pattern clf clfargs (PyList (l ++ [c]))
                    = Res q) cands qs.
Proof.
  induction cands as [|c rest IH]; intros acc rs w w' Hsel E.
  - cbn [rate_candidates] in E. unfold ret in E. injection E as _ <-.
    exists []. split; [now rewrite app_nil_r | constructor].
  - cbn [rate_candidates] in E.
    apply bind_ok_inv in E as (w1 & features & E1 & E).
    rewrite selectByFeatureId_run, Hsel in E1. injection E1 as <- <-.
    apply bind_ok_inv in E as (w2 & fobj & E2 & E).
    unfold deref in E2. cbn [heap] in E2.
    rewrite lookup_app_r in E2 by lia. rewrite Nat.sub_diag in E2.
    cbn in E2. injection E2 as <- <-.
    apply bind_ok_inv in E as (w3 & temp_pat & E3 & E).
    unfold lift in E3.
    destruct (pat_selectFeatures pattern _) as [p|e] eqn:Ep; [|discriminate].
    injection E3 as <- <-.
    apply bind_ok_inv in E as (w4 & cv_perf & E4 & E).
    unfold __doCrossValidation, bind, get_self, lift in E4. cbn [this] in E4.
    destruct (CrossValidation_run _ _ _ _ _) as [perf|e] eqn:Ecv;
      [|discriminate].
    injection E4 as <- <-.
    apply IH in E as (qs & -> & HF).
    2:{ cbn [heap]. rewrite lookup_app_l; [exact Hsel|].
        eapply lookup_lt_Some; eauto. }
    exists (np_mean perf :: qs). rewrite <- app_assoc. split; [reflexivity|].
    constructor; [|exact HF].
    unfold rating_of, rbind. now rewrite Ep, Ecv.
Qed.

(** A round with all that is known of its winner. *)
Lemma choose_best_outcomes (featureselector : loc -> Z -> M loc)
    (feat_cand : loc) (rs : list Q) (st : search_state) (w : world)
    (pool : list Z) :
  allocates_only featureselector ->
  heap w !! feat_cand = Some (PyList pool) -> pool <> [] ->
  length rs = length pool ->
  exists k b r,
    pool !! k = Some b /\ rs !! k = Some r
    /\ (forall j q, rs !! j = Some q -> (q <= r)%Q)
    /\ (((r - st_best_performance_ever st < __break_crit (this w))%Q
         /\ choose_best featureselector feat_cand rs st w = (w, Ok Break))
        \/ ((__break_crit (this w) <= r - st_best_performance_ever st)%Q
            /\ ((exists e,
                    choose_best featureselector feat_cand rs st w
                    = (w, Raise e))
                \/ (exists o,
                      featureselector (st_selected st) b w
                      = (World (heap w ++ [o]) (this w), Ok (length (heap w)))
                      /\ choose_best featureselector feat_cand rs st w
                         = (World (<[feat_cand:=PyList (remove_first b pool)]>
                                     (heap w ++ [o])) (this w),
                            Ok (Continue
                                  (SearchState (length (heap w))
                                     (st_best_ids st ++ [b]) r
                                     (st_selection_counter st + 1)))))))).
Proof.
  intros Hfs Hfc Hne Hlen.
  destruct (np_argmax_first_max rs) as (k & r & Hk & Hr & Hkr & Hle & _).
  { intros ->. destruct pool; [congruence | discriminate]. }
  assert (Hkl : k < length pool).
  { rewrite <- Hlen. eapply lookup_lt_Some; eauto. }
  destruct (lookup_lt_is_Some_2 pool k Hkl) as [b Hb].
  exists k, b, r. repeat (split; [assumption|]).
  rewrite (choose_best_run _ _ _ _ _ pool k b r Hfc Hk Hr Hb).
  destruct (Qltb _ _) eqn:Eq.
  - left. apply Qltb_lt in Eq. auto.
  - right. apply Qltb_ge in Eq. split; [exact Eq|].
    destruct (Hfs (st_selected st) b w) as [(e & ->) | (o & E)].
    + left. eauto.
    + right. exists o. rewrite E. split; [reflexivity|].
      assert (Hin : In b pool) by (eapply lookup_In; eauto).
      rewrite read_list_run. cbn [heap this].
      rewrite lookup_app_l by (eapply lookup_lt_Some; eauto). rewrite Hfc.
      apply existsb_eqb_In in Hin. now rewrite Hin.
Qed.

Lemma while_candidates_first_round (pattern : Pattern) (clf : Classifier)
    (clfargs : ClfArgs) (featureselector : loc -> Z -> M loc)
    (feat_cand : loc) (st : search_state) (w : world) (pool : list Z) :
  heap w !! feat_cand = Some (PyList pool) -> pool <> [] ->
  while_candidates (length pool) pattern clf clfargs featureselector
    feat_cand st w
  = bind (rate_candidates pattern clf clfargs featureselector
            (st_selected st) pool [])
      (fun rs =>
         bind (choose_best featureselector feat_cand rs st)
           (fun s =>
              match s with
              | Break => ret st
              | Continue st' =>
                  while_candidates (pred (length pool)) pattern clf clfargs
                    featureselector feat_cand st'
              end)) w.
Proof.
  intros Hfc Hne. rewrite (while_candidates_step _ _ _ _ _ _ _ _ pool Hfc).
  destruct pool; [congruence | reflexivity].
Qed.

(** The first round of the search by feature id, seen from the result of
    the whole search. *)
Lemma doSelection_by_id_first_round (pattern : Pattern) (clf : Classifier)
    (clfargs : ClfArgs) (selected candidates : loc) (w w' : world)
    (l pool : list Z) (r : loc) (ids : list Z) :
  heap w !! selected = Some (PyList l) ->
  heap w !! candidates = Some (PyList pool) -> pool <> [] ->
  __doSelection pattern clf clfargs __selectByFeatureId selected candidates w
    = (w', Ok (r, ids)) ->
  exists qs k b qb,
    Forall2 (fun c q =>
               rating_of (this w) pattern clf clfargs (PyList (l ++ [c]))
               = Res q) pool qs
    /\ pool !! k = Some b /\ qs !! k = Some qb
    /\ (forall j q, qs !! j = Some q -> (q <= qb)%Q)
    /\ (((qb < __break_crit (this w))%Q /\ ids = [])
        \/ ((__break_crit (this w) <= qb)%Q /\ exists rest, ids = b :: rest)).
Proof.
  intros Hsel Hc Hne E.
  assert (Hfs : allocates_only __selectByFeatureId)
    by (apply strategy_allocates; constructor).
  rewrite doSelection_run, Hc in E.
  apply bind_ok_inv in E as (w1 & st' & E & Er).
  unfold ret in Er. injection Er as _ _ <-.
  set (w0 := World (heap w ++ [PyList pool]) (this w)) in *.
  assert (Hfc0 : heap w0 !! length (heap w) = Some (PyList pool)).
  { cbn [w0 heap]. rewrite lookup_app_r by lia. now rewrite Nat.sub_diag. }
  rewrite (while_candidates_first_round _ _ _ _ _ _ _ _ Hfc0 Hne) in E.
  apply bind_ok_inv in E as (w2 & rs & E1 & E).
  apply bind_ok_inv in E as (w3 & s & E2 & E).
  destruct (framed_rate_candidates (length (heap w0)) _ _ _ _ _ _ _ Hfs
              _ _ _ (le_n _) E1) as [Hs1 Hf1].
  pose proof (heap_frame_lookup _ _ _ _ Hf1 Hfc0) as Hfc1.
  pose proof (rate_candidates_length _ _ _ _ _ _ _ _ _ _ E1) as Hlen.
  apply (rate_candidates_by_id _ _ _ _ l) in E1 as (qs & -> & HF).
  2:{ cbn [w0 heap st_selected]. rewrite lookup_app_l; [exact Hsel|].
      eapply lookup_lt_Some; eauto. }
  cbn [app length] in Hlen, E2. cbn [w0 this] in HF.
  destruct (choose_best_outcomes __selectByFeatureId (length (heap w)) qs
              (SearchState selected [] 0%Q 0) w2 pool Hfs Hfc1)
    as (k & b & qb & Hb & Hqb & Hle & Hcase); auto.
  exists qs, k, b, qb. repeat (split; [assumption|]).
  cbn [st_best_performance_ever] in Hcase. rewrite <- Hs1 in Hcase.
  cbn [w0 this] in Hcase.
  destruct Hcase as [[Hlow Eb] | [Hhigh [(e & Ee) | (o & Efs & Ec)]]].
  - left. rewrite Eb in E2. injection E2 as <- <-.
    unfold ret in E. injection E as _ <-. split; [lra | reflexivity].
  - rewrite Ee in E2. discriminate.
  - right. split; [lra|]. rewrite Ec in E2. injection E2 as <- <-.
    assert (Hstab : forall (w4 w4' : world) (st : search_state) (p : list Z),
               (exists rest, st_best_ids st = b :: rest) ->
               this w4' = this w4 ->
               heap_frame (length (heap w4)) (heap w4) (heap w4') ->
               exists rest, st_best_ids st = b :: rest) by auto.
    eapply (while_candidates_invariant
              (fun _ st _ => exists rest, st_best_ids st = b :: rest)
              pattern clf clfargs __selectByFeatureId (length (heap w))
              Hfs Hstab) in E.
    + destruct E as (pool' & _ & HI). exact HI.
    + intros w4 st p b' o' q _ [rest Hrest] _ _. cbn [st_best_ids].
      exists (rest ++ [b']). now rewrite Hrest.
    + cbn [heap]. apply list_lookup_insert_eq. rewrite length_app.
      apply lookup_lt_Some in Hfc1. lia.
    + cbn [st_best_ids]. now exists [].
Qed.

(** X14.  When a search by feature id, with ratings that are numbers,
    chooses anything, the first id it chose is the candidate with the best
    rating when added alone to the initial selection: no candidate of the
    pool rates higher, and this rating is at least the break criterion. *)
Theorem first_choice_is_best_single_candidate (pattern : Pattern)
    (clf : Classifier) (clfargs : ClfArgs) (selected candidates : loc)
    (w w' : world) (l pool : list Z) (r : loc) (b : Z) (rest : list Z) :
  rates_every_subset (this w) pattern clf clfargs ->
  heap w !! selected = Some (PyList l) ->
  heap w !! candidates = Some (PyList pool) ->
  __doSelection pattern clf clfargs __selectByFeatureId selected candidates w
    = (w', Ok (r, b :: rest)) ->
  exists qb,
    In b pool
    /\ rating_of (this w) pattern clf clfargs (PyList (l ++ [b])) = Res qb
    /\ (__break_crit (this w) <= qb)%Q
    /\ forall c, In c pool ->
         exists qc,
           rating_of (this w) pattern clf clfargs (PyList (l ++ [c]))
           = Res qc
           /\ (qc <= qb)%Q.
Proof.
  intros _ Hsel Hc E.
  assert (Hne : pool <> []).
  { intros ->. rewrite (doSelection_run _ _ _ _ _ _ _), Hc in E.
    unfold bind in E.
    rewrite (while_candidates_step _ _ _ _ _ _ _ _ []) in E.
    - discriminate.
    - cbn [heap]. rewrite lookup_app_r by lia. now rewrite Nat.sub_diag. }
  destruct (doSelection_by_id_first_round _ _ _ _ _ _ _ _ _ _ _ Hsel Hc Hne E)
    as (qs & k & b' & qb & HF & Hb & Hqb & Hle & [[_ Hnil] | [Hhigh [t Ht]]]);
    [discriminate|].
  injection Ht as <- <-. exists qb.
  split; [eapply lookup_In; eauto|].
  split; [eapply Forall2_lookup_lr in HF; eauto|].
  split; [exact Hhigh|].
  intros c Hin. apply list_elem_of_In, list_elem_of_lookup in Hin as [j Hj].
  destruct (Forall2_lookup_l _ _ _ _ _ HF Hj) as (qc & Hqc & Hr).
  exists qc. split; [exact Hr | eauto].
Qed.

(** X15.  A search by feature id on a pool that is not empty, with
    ratings that are numbers, chooses nothing exactly when no candidate,
    added alone to the initial selection, rates as high as the break
    criterion. *)
Theorem nothing_chosen_iff_no_candidate_qualifies (pattern : Pattern)
    (clf : Classifier) (clfargs : ClfArgs) (selected candidates : loc)
    (w w' : world) (l pool : list Z) (r : loc) (ids : list Z) :
  rates_every_subset (this w) pattern clf clfargs ->
  heap w !! selected = Some (PyList l) ->
  heap w !! candidates = Some (PyList pool) -> pool <> [] ->
  __doSelection pattern clf clfargs __selectByFeatureId selected candidates w
    = (w', Ok (r, ids)) ->
  ids = [] <->
  (forall c q, In c pool ->
     rating_of (this w) pattern clf clfargs (PyList (l ++ [c])) = Res q ->
     (q < __break_crit (this w))%Q).
Proof.
  intros _ Hsel Hc Hne E.
  destruct (doSelection_by_id_first_round _ _ _ _ _ _ _ _ _ _ _ Hsel Hc Hne E)
    as (qs & k & b & qb & HF & Hb & Hqb & Hle & Hcase).
  split.
  - intros ->. destruct Hcase as [[Hlow _] | [_ [t Ht]]]; [|discriminate].
    intros c q Hin Hq.
    apply list_elem_of_In, list_elem_of_lookup in Hin as [j Hj].
    destruct (Forall2_lookup_l _ _ _ _ _ HF Hj) as (qc & Hqc & Hr).
    rewrite Hq in Hr. injection Hr as ->.
    eapply Qle_lt_trans; eauto.
  - intros Hall. destruct Hcase as [[_ Hnil] | [Hhigh _]]; [exact Hnil|].
    exfalso. pose proof (Forall2_lookup_lr _ _ _ _ _ _ HF Hb Hqb) as Hr.
    apply (Qlt_not_le qb (__break_crit (this w))); [|exact Hhigh].
    apply (Hall b qb); [eapply lookup_In; eauto | exact Hr].
Qed.

End FirstRound.
(** ** The further properties on the small dataset *)

(** The cross-validation of the small dataset reports fractions. *)
Lemma toy_run_folds_at_most_one (unseen : Z) (d : Toy.dataset)
    (folds : list (list Z)) (perf : list Q) :
  Toy.run_folds unseen d folds = Res perf ->
  List.Forall (fun q => (q <= 1)%Q) perf.
Proof.
  revert perf. induction folds as [|exclude rest IH]; intros perf.
  - intros [= <-]. constructor.
  - cbn [Toy.run_folds]. unfold rbind at 1. cbn [Toy.split].
    unfold rbind at 1.
    destruct (Toy.classify _ _ _ _) as [p|e]; [|discriminate].
    unfold rbind at 1.
    destruct (np_eq_mean _ _) as [a|e] eqn:Ea; [|discriminate].
    unfold rbind.
    destruct (Toy.run_folds unseen d rest) as [r|e]; [|discriminate].
    intros [= <-]. constructor; [|now apply IH].
    now apply np_eq_mean_in_unit in Ea as [_ Ha].
Qed.

Lemma toy_cross_validation_at_most_one (cvargs : unit) (p : Toy.dataset)
    (c t : Z) (a : unit) (perf : list Q) :
  CrossValidation_run (Collaborators:=Toy.collaborators) cvargs p c t a
    = Res perf ->
  List.Forall (fun q => (q <= 1)%Q) perf.
Proof.
  cbn [CrossValidation_run Toy.collaborators]. unfold Toy.cross_validate, rbind.
  destruct (Toy.unique_combinations _ _); [|discriminate].
  apply toy_run_folds_at_most_one.
Qed.

(** Choosing columns keeps the samples and their origins, so every subset
    of the features of [three_origins] is cross-validated on three
    folds. *)
Lemma toy_select_columns_origins (d d' : Toy.dataset) (o : pyobj) :
  Toy.select_columns d o = Res d' -> map Toy.origin d' = map Toy.origin d.
Proof.
  unfold Toy.select_columns. destruct (forallb _ _); [|discriminate].
  intros [= <-]. rewrite map_map. reflexivity.
Qed.

Lemma toy_run_folds_length (unseen : Z) (d : Toy.dataset)
    (folds : list (list Z)) (perf : list Q) :
  Toy.run_folds unseen d folds = Res perf -> length perf = length folds.
Proof.
  revert perf. induction folds as [|exclude rest IH]; intros perf.
  - intros [= <-]. reflexivity.
  - cbn [Toy.run_folds]. unfold rbind at 1. cbn [Toy.split].
    unfold rbind at 1.
    destruct (Toy.classify _ _ _ _) as [p|e]; [|discriminate].
    unfold rbind at 1.
    destruct (np_eq_mean _ _) as [a|e]; [|discriminate].
    unfold rbind.
    destruct (Toy.run_folds unseen d rest) as [r|e]; [|discriminate].
    intros [= <-]. cbn [length]. f_equal. now apply IH.
Qed.

Lemma toy_rates_every_subset (break_crit : Q) (clf : Z) :
  rates_every_subset (C:=Toy.collaborators)
    (Toy.searcher Toy.three_origins break_crit) Toy.three_origins clf tt.
Proof.
  intros features temp_pat perf Hs Hcv.
  cbn [pat_selectFeatures CrossValidation_run Toy.collaborators] in Hs, Hcv.
  apply toy_select_columns_origins in Hs.
  unfold Toy.cross_validate in Hcv. rewrite Hs in Hcv.
  cbn [Toy.searcher __cvtype] in Hcv.
  change (Toy.unique_combinations (map Toy.origin Toy.three_origins) 1)
    with (Res [[0%Z]; [1%Z]; [2%Z]]) in Hcv.
  cbn [rbind] in Hcv. apply toy_run_folds_length in Hcv.
  intros ->. discriminate.
Qed.

Lemma toy_folds_have_test_samples :
  folds_have_test_samples (C:=Toy.collaborators) (this Runs.w_three).
Proof.
  intros origins exclude meta_train meta_test Ho Hin Hs.
  vm_compute in Ho. injection Ho as <-.
  destruct Hin as [<-|[<-|[<-|[]]]];
    vm_compute in Hs; injection Hs as _ <-; discriminate.
Qed.

Lemma perfs_are_fractions_witness :
  List.Forall in_unit
    (__perfs
       (this (fst (selectFeatures (C:=Toy.collaborators) 0%Z tt
                     Runs.w_three)))).
Proof.
  exact (proj1 (perfs_are_fractions (C:=Toy.collaborators) 0%Z tt
                  Runs.w_three toy_folds_have_test_samples)).
Defined.

Lemma results_have_one_entry_per_fold_witness :
  let w' := fst (selectFeatures (C:=Toy.collaborators) 0%Z tt Runs.w_three) in
  length [5; 8; 11] = length (__metacv_origins (this w'))
  /\ length (__perfs (this w')) = length (__metacv_origins (this w')).
Proof.
  cbv zeta.
  destruct (proj1 (results_have_one_entry_per_fold (C:=Toy.collaborators)
                     0%Z tt Runs.w_three
                     (fst (selectFeatures (C:=Toy.collaborators) 0%Z tt
                             Runs.w_three)))
              [5; 8; 11])
    as (_ & H1 & H2 & _).
  - vm_compute. reflexivity.
  - split; assumption.
Defined.

Lemma doSelection_of_empty_pool_witness :
  snd (__doSelection (C:=Toy.collaborators) Toy.three_origins 0%Z tt
         __selectByFeatureId 1 2 (Runs.w_pool [] (1 # 1000)))
  = Ok (1, []).
Proof.
  rewrite (doSelection_of_empty_pool (C:=Toy.collaborators) Toy.three_origins
             0%Z tt __selectByFeatureId 1 2 (Runs.w_pool [] (1 # 1000))).
  - reflexivity.
  - reflexivity.
Defined.

Lemma doSelection_returns_own_or_fresh_witness :
  ([0%Z] = [] /\ 5 = 1)
  \/ ([0%Z] <> []
      /\ heap (Runs.w_pool [0%Z] (1 # 1000)) !! 5 = None
      /\ exists o,
           heap (fst (__doSelection (C:=Toy.collaborators) Toy.three_origins
                        0%Z tt __selectByFeatureId 1 2
                        (Runs.w_pool [0%Z] (1 # 1000)))) !! 5 = Some o).
Proof.
  apply (doSelection_returns_own_or_fresh (C:=Toy.collaborators)
           Toy.three_origins 0%Z tt __selectByFeatureId 1 2
           (Runs.w_pool [0%Z] (1 # 1000))).
  - exact by_feature_id.
  - vm_compute. reflexivity.
Defined.

Lemma accepted_candidates_gain_witness :
  exists new_ids : list Z,
    [0%Z] = [] ++ new_ids
    /\ (0 + inject_Z (Z.of_nat (length new_ids)) * (1 # 1000) <= 1 # 2)%Q.
Proof.
  destruct (accepted_candidates_gain (C:=Toy.collaborators) 1
              Toy.three_origins 0%Z tt __selectByFeatureId 3
              (SearchState 1 [] 0%Q 0) (SearchState 5 [0%Z] (1 # 2) 1)
              (World (Toy.mask1 ++ [PyList []; PyList [0%Z]; PyList [0%Z]])
                 (Toy.searcher Toy.three_origins (1 # 1000)))
              (World (Toy.mask1 ++ [PyList []; PyList [0%Z]; PyList [];
                                    PyList [0%Z]; PyList [0%Z]])
                 (Toy.searcher Toy.three_origins (1 # 1000)))
              [0%Z])
    as (new_ids & Hids & Hgain & _).
  - exact (toy_rates_every_subset (1 # 1000) 0%Z).
  - exact by_feature_id.
  - reflexivity.
  - vm_compute. reflexivity.
  - exists new_ids. split; assumption.
Defined.

Lemma chosen_ids_bounded_by_break_crit_witness :
  (inject_Z (Z.of_nat (length [0%Z])) * (1 # 1000) <= 1)%Q.
Proof.
  apply (chosen_ids_bounded_by_break_crit (C:=Toy.collaborators)
           Toy.three_origins 0%Z tt __selectByFeatureId 1 2
           (Runs.w_pool [0%Z] (1 # 1000))
           (fst (__doSelection (C:=Toy.collaborators) Toy.three_origins 0%Z
                   tt __selectByFeatureId 1 2 (Runs.w_pool [0%Z] (1 # 1000))))
           5 [0%Z]).
  - exact toy_cross_validation_at_most_one.
  - exact (toy_rates_every_subset (1 # 1000) 0%Z).
  - exact by_feature_id.
  - vm_compute. reflexivity.
Defined.

Lemma selection_masks_mark_chosen_rois_witness :
  Forall2 (fun mloc ids =>
             heap (fst (selectROIs (C:=Toy.collaborators) 0%Z tt
                          Runs.w_three)) !! mloc
             = Some (roi_mask (NdArray [1] [1%Z]) ids))
    (__selection_masks
       (this (fst (selectROIs (C:=Toy.collaborators) 0%Z tt Runs.w_three))))
    [[1%Z]; [1%Z]; [1%Z]].
Proof.
  apply (selection_masks_mark_chosen_rois (C:=Toy.collaborators) 0%Z tt
           Runs.w_three _ _ (PyIntArray (NdArray [1] [1%Z]))).
  - reflexivity.
  - reflexivity.
  - reflexivity.
  - vm_compute. reflexivity.
Defined.

Lemma chosen_rois_are_distinct_mask_values_witness :
  List.Forall (fun ids =>
                 List.NoDup ids
                 /\ (forall x, In x ids -> In x [1%Z])
                 /\ length ids <= length (nodup Z.eq_dec [1%Z]))
    [[1%Z]; [1%Z]; [1%Z]].
Proof.
  apply (chosen_rois_are_distinct_mask_values (C:=Toy.collaborators) 0%Z tt
           Runs.w_three
           (fst (selectROIs (C:=Toy.collaborators) 0%Z tt Runs.w_three))
           _ (PyIntArray (NdArray [1] [1%Z])) (NdArray [1] [1%Z])).
  - reflexivity.
  - reflexivity.
  - vm_compute. reflexivity.
Defined.

Lemma mean_mask_is_fraction_of_folds_witness :
  snd (getMeanSelectionMask
         (fst (selectROIs (C:=Toy.collaborators) 0%Z tt Runs.w_three)))
  = Ok (Some (NdArray [1] [1%Q])).
Proof.
  rewrite (mean_mask_is_fraction_of_folds (C:=Toy.collaborators) 0%Z tt
             Runs.w_three
             (fst (selectROIs (C:=Toy.collaborators) 0%Z tt Runs.w_three))
             [[1%Z]; [1%Z]; [1%Z]] (PyIntArray (NdArray [1] [1%Z]))
             (NdArray [1] [1%Z])).
  - vm_compute. reflexivity.
  - reflexivity.
  - reflexivity.
  - reflexivity.
  - vm_compute. reflexivity.
Defined.

Lemma selection_masks_project_chosen_features_witness :
  Forall2 (fun r mloc =>
             exists ids o,
               heap (fst (selectFeatures (C:=Toy.collaborators) 0%Z tt
                            Runs.w_three)) !! r = Some (PyList ids)
               /\ Toy.orig_mask Toy.three_origins (PyList ids) = Res o
               /\ heap (fst (selectFeatures (C:=Toy.collaborators) 0%Z tt
                               Runs.w_three)) !! mloc = Some o)
    [5; 8; 11] [12; 13; 14].
Proof.
  apply (selection_masks_project_chosen_features (C:=Toy.collaborators) 0%Z
           tt Runs.w_three
           (World
              (heap (fst (selectFeatures (C:=Toy.collaborators) 0%Z tt
                            Runs.w_three)))
              (with_masks
                 (this (fst (selectFeatures (C:=Toy.collaborators) 0%Z tt
                               Runs.w_three)))
                 [12; 13; 14]))
           [5; 8; 11]).
  vm_compute. reflexivity.
Defined.

Lemma chosen_features_come_from_mask_witness :
  List.Forall
    (fun r =>
       exists ids,
         heap (fst (selectFeatures (C:=Toy.collaborators) 0%Z tt
                      Runs.w_three)) !! r = Some (PyList ids)
         /\ (forall x, In x ids ->
               exists coord,
                 In coord (np_transpose_nonzero (NdArray [1] [1%Z]))
                 /\ getFeatureId (Collaborators:=Toy.collaborators)
                      Toy.three_origins coord = Res x)
         /\ length ids <= 1)
    [5; 8; 11].
Proof.
  apply (chosen_features_come_from_mask (C:=Toy.collaborators) 0%Z tt
           Runs.w_three
           (fst (selectFeatures (C:=Toy.collaborators) 0%Z tt Runs.w_three))
           [5; 8; 11] (PyIntArray (NdArray [1] [1%Z])) (NdArray [1] [1%Z])).
  - reflexivity.
  - reflexivity.
  - vm_compute. reflexivity.
Defined.

Lemma first_choice_is_best_single_candidate_witness :
  exists qb,
    In 0%Z [0%Z]
    /\ rating_of (C:=Toy.collaborators)
         (Toy.searcher Toy.three_origins (1 # 1000)) Toy.three_origins 0%Z tt
         (PyList ([] ++ [0%Z])) = Res qb
    /\ (1 # 1000 <= qb)%Q.
Proof.
  destruct (first_choice_is_best_single_candidate (C:=Toy.collaborators)
              Toy.three_origins 0%Z tt 1 2 (Runs.w_pool [0%Z] (1 # 1000))
              (fst (__doSelection (C:=Toy.collaborators) Toy.three_origins
                      0%Z tt __selectByFeatureId 1 2
                      (Runs.w_pool [0%Z] (1 # 1000))))
              [] [0%Z] 5 0%Z [])
    as (qb & Hin & Hr & Hc & _).
  - exact (toy_rates_every_subset (1 # 1000) 0%Z).
  - reflexivity.
  - reflexivity.
  - vm_compute. reflexivity.
  - exists qb. auto.
Defined.

Lemma nothing_chosen_iff_no_candidate_qualifies_witness :
  (@nil Z) = [] <->
  (forall c q, In c [0%Z] ->
     rating_of (C:=Toy.collaborators) (Toy.searcher Toy.three_origins 1)
       Toy.three_origins 0%Z tt (PyList ([] ++ [c])) = Res q ->
     (q < 1)%Q).
Proof.
  apply (nothing_chosen_iff_no_candidate_qualifies (C:=Toy.collaborators)
           Toy.three_origins 0%Z tt 1 2 (Runs.w_pool [0%Z] 1)
           (fst (__doSelection (C:=Toy.collaborators) Toy.three_origins
                   0%Z tt __selectByFeatureId 1 2 (Runs.w_pool [0%Z] 1)))
           [] [0%Z] 1 []).
  - exact (toy_rates_every_subset 1 0%Z).
  - reflexivity.
  - reflexivity.
  - discriminate.
  - vm_compute. reflexivity.
Defined.

(** * The rounds of the search and the results of the calls *)

Lemma remove_first_split (b : Z) (pool : list Z) :
  In b pool ->
  exists pre post,
    pool = pre ++ b :: post /\ ~ In b pre
    /\ remove_first b pool = pre ++ post.
Proof.
  induction pool as [|y t IH]; simpl; [tauto|].
  intros H. destruct (b =? y)%Z eqn:E.
  - apply Z.eqb_eq in E. subst y. exists [], t. simpl. auto.
  - apply Z.eqb_neq in E. destruct H as [H|H]; [congruence|].
    destruct (IH H) as (pre & post & -> & Hn & Hr).
    exists (y :: pre), post. simpl. rewrite Hr.
    split; [reflexivity|]. split; [|reflexivity].
    intros [H1|H1]; [congruence|contradiction].
Qed.

Lemma first_split_unique (b : Z) (pre pre' post post' : list Z) :
  ~ In b pre -> ~ In b pre' ->
  pre ++ b :: post = pre' ++ b :: post' -> pre = pre' /\ post = post'.
Proof.
  revert pre'. induction pre as [|y pre IH]; intros [|y' pre'] Hn Hn' E;
    cbn [app] in E.
  - injection E as ->. auto.
  - injection E as <- _. exfalso. apply Hn'. now left.
  - injection E as -> _. exfalso. apply Hn. now left.
  - injection E as <- E.
    destruct (IH pre') as [-> ->]; auto.
    + intros H. apply Hn. now right.
    + intros H. apply Hn'. now right.
Qed.

Lemma first_max_unique (rs : list Q) (k k' : nat) (mx mx' : Q) :
  first_max rs k mx -> first_max rs k' mx' -> k = k' /\ mx = mx'.
Proof.
  intros (Hk & Hle & Hlt) (Hk' & Hle' & Hlt').
  assert (k = k').
  { destruct (Nat.lt_trichotomy k k') as [L|[E|G]]; [|exact E|].
    - exfalso. pose proof (Hlt' _ _ L Hk). pose proof (Hle _ _ Hk'). lra.
    - exfalso. pose proof (Hlt _ _ G Hk'). pose proof (Hle' _ _ Hk). lra. }
  subst k'. split; [reflexivity|]. congruence.
Qed.

Lemma ratings_unique (merge : pyobj -> Z -> result pyobj)
    (rate : pyobj -> result Q) (sel : pyobj) (pool : list Z)
    (rs rs' : list Q) :
  Forall2 (fun c q =>
             exists features,
               merge sel c = Res features /\ rate features = Res q)
    pool rs ->
  Forall2 (fun c q =>
             exists features,
               merge sel c = Res features /\ rate features = Res q)
    pool rs' ->
  rs = rs'.
Proof.
  intros H. revert rs'.
  induction H as [|c q pool rs (f & Hf & Hq) _ IH]; intros rs' H'.
  - now apply Forall2_nil_inv_l in H'.
  - apply Forall2_cons_inv_l in H' as (q' & rs'' & (f' & Hf' & Hq') & H' & ->).
    f_equal; [congruence | now apply IH].
Qed.

(** The rounds have one result only. *)
Lemma greedy_rounds_unique (merge : pyobj -> Z -> result pyobj)
    (rate : pyobj -> result Q) (crit : Q) (sel : pyobj) (pool : list Z)
    (best : Q) (chosen : list Z) (out out' : pyobj * list Z) :
  greedy_rounds merge rate crit sel pool best chosen out ->
  greedy_rounds merge rate crit sel pool best chosen out' ->
  out = out'.
Proof.
  intros H. revert out'.
  induction H as [sel best chosen
                 |sel pool best chosen rs k b mx Hne HF Hfm Hb Hlow
                 |sel pool best chosen rs k b mx sel' pre post out Hne HF Hfm
                    Hb Hhigh Hmerge Hpool Hpre _ IH];
    intros out' H'.
  - inversion H'; subst; congruence.
  - inversion H' as [|? ? ? ? rs' k' b' mx' _ HF' Hfm' _ _
                     |? ? ? ? rs' k' b' mx' ? ? ? ? _ HF' Hfm' _ Hhigh'];
      subst; [congruence|reflexivity|].
    pose proof (ratings_unique _ _ _ _ _ _ HF HF') as <-.
    destruct (first_max_unique _ _ _ _ _ Hfm Hfm') as [<- <-].
    contradiction.
  - inversion H' as [|? ? ? ? rs' k' b' mx' _ HF' Hfm' _ Hlow'
                     |? ? ? ? rs' k' b' mx' sel'' pre' post' ? _ HF' Hfm'
                        Hb' _ Hmerge' Hpool' Hpre' Hrest];
      subst.
    + destruct pre; discriminate.
    + pose proof (ratings_unique _ _ _ _ _ _ HF HF') as <-.
      destruct (first_max_unique _ _ _ _ _ Hfm Hfm') as [<- <-].
      contradiction.
    + pose proof (ratings_unique _ _ _ _ _ _ HF HF') as <-.
      destruct (first_max_unique _ _ _ _ _ Hfm Hfm') as [<- <-].
      assert (b' = b) by congruence. subst b'.
      assert (sel'' = sel') by congruence. subst sel''.
      destruct (first_split_unique _ _ _ _ _ Hpre Hpre' Hpool') as [<- <-].
      now apply IH.
Qed.

Section GreedyRounds.

Context {C : Collaborators}.

(** A merge function run on the store: it reads, and allocates the value
    of the merge. *)
Lemma merges_run (w0 w : world) (featureselector : loc -> Z -> M loc)
    (merge : pyobj -> Z -> result pyobj) (sel : loc) (c : Z) (s : pyobj) :
  merges_as w0 featureselector merge ->
  this w = this w0 ->
  heap_frame (length (heap w0)) (heap w0) (heap w) ->
  heap w !! sel = Some s ->
  featureselector sel c w =
  match merge s c with
  | Res o => (World (heap w ++ [o]) (this w), Ok (length (heap w)))
  | Err e => (w, Raise e)
  end.
Proof.
  intros [|mask Hm] Hs Hf Hsel.
  - rewrite selectByFeatureId_run, Hsel. unfold merge_by_id, list_add.
    destruct s; reflexivity.
  - rewrite selectByMaskValue_run, Hsel, Hs.
    rewrite (heap_frame_lookup _ _ _ _ Hf Hm). reflexivity.
Qed.

(** The ratings of a pool: for every candidate the mean of the
    cross-validation on the pattern restricted to the merge of the
    selected set and the candidate. *)
Lemma rate_candidates_merged (w0 : world) (pattern : Pattern)
    (clf : Classifier) (clfargs : ClfArgs)
    (featureselector : loc -> Z -> M loc)
    (merge : pyobj -> Z -> result pyobj) (selected : loc) (s : pyobj)
    (cands : list Z) :
  merges_as w0 featureselector merge ->
  forall acc rs w w',
    this w = this w0 ->
    heap_frame (length (heap w0)) (heap w0) (heap w) ->
    heap w !! selected = Some s ->
    rate_candidates pattern clf clfargs featureselector selected cands
      acc w = (w', Ok rs) ->
    exists qs,
      rs = acc ++ qs
      /\ Forall2 (fun c q =>
                    exists features,
                      merge s c = Res features
                      /\ rating_of (this w0) pattern clf clfargs features
                         = Res q) cands qs
      /\ this w' = this w
      /\ heap_frame (length (heap w)) (heap w) (heap w').
Proof.
  intros Hm.
  induction cands as [|c rest IH]; intros acc rs w w' Hs Hf Hsel E.
  - cbn [rate_candidates] in E. unfold ret in E. injection E as <- <-.
    exists []. split; [now rewrite app_nil_r|]. split; [constructor|].
    split; [reflexivity | apply heap_frame_refl].
  - cbn [rate_candidates] in E.
    apply bind_ok_inv in E as (w1 & features & E1 & E).
    rewrite (merges_run w0 w _ merge selected c s Hm Hs Hf Hsel) in E1.
    destruct (merge s c) as [o|e] eqn:Emerge; [|discriminate].
    injection E1 as <- <-.
    apply bind_ok_inv in E as (w2 & fobj & E2 & E).
    unfold deref in E2. cbn [heap] in E2.
    rewrite lookup_app_r in E2 by lia. rewrite Nat.sub_diag in E2.
    cbn in E2. injection E2 as <- <-.
    apply bind_ok_inv in E as (w3 & temp_pat & E3 & E).
    unfold lift in E3.
    destruct (pat_selectFeatures pattern _) as [p|e] eqn:Ep; [|discriminate].
    injection E3 as <- <-.
    apply bind_ok_inv in E as (w4 & cv_perf & E4 & E).
    unfold __doCrossValidation, bind, get_self, lift in E4. cbn [this] in E4.
    destruct (CrossValidation_run _ _ _ _ _) as [perf|e] eqn:Ecv;
      [|discriminate].
    injection E4 as <- <-.
    assert (Hf1 : heap_frame (length (heap w)) (heap w) (heap w ++ [o]))
      by (apply heap_frame_app; lia).
    apply IH in E as (qs & -> & HF & Hs' & Hf').
    + exists (np_mean perf :: qs). rewrite <- app_assoc.
      split; [reflexivity|]. split; [|split].
      * constructor; [|exact HF]. exists o. split; [exact Emerge|].
        unfold rating_of, rbind. rewrite Ep. rewrite <- Hs, Ecv. reflexivity.
      * exact Hs'.
      * cbn [heap] in Hf'. eapply heap_frame_trans; [exact Hf1|].
        eapply heap_frame_le; [|exact Hf']. rewrite length_app. lia.
    + exact Hs.
    + cbn [heap]. eapply heap_frame_trans; [exact Hf|].
      apply heap_frame_app. destruct Hf as [Hl _]. exact Hl.
    + cbn [heap]. rewrite lookup_app_l; [exact Hsel|].
      eapply lookup_lt_Some; eauto.
Qed.

(** The loop, from any of its states, follows the rounds of the
    specification. *)
Lemma while_candidates_rounds (w0 : world) (pattern : Pattern)
    (clf : Classifier) (clfargs : ClfArgs)
    (featureselector : loc -> Z -> M loc)
    (merge : pyobj -> Z -> result pyobj) (feat_cand : loc) :
  merges_as w0 featureselector merge ->
  length (heap w0) <= feat_cand ->
  forall fuel w st pool sel w' st',
    this w = this w0 ->
    heap_frame (length (heap w0)) (heap w0) (heap w) ->
    heap w !! feat_cand = Some (PyList pool) ->
    heap w !! st_selected st = Some sel ->
    while_candidates fuel pattern clf clfargs featureselector feat_cand st w
      = (w', Ok st') ->
    exists final,
      heap w' !! st_selected st' = Some final
      /\ greedy_rounds merge (rating_of (this w0) pattern clf clfargs)
           (__break_crit (this w0)) sel pool (st_best_performance_ever st)
           (st_best_ids st) (final, st_best_ids st').
Proof.
  intros Hm Hn.
  induction fuel as [|fuel IH]; intros w st pool sel w' st' Hs Hf Hfc Hsel E;
    rewrite (while_candidates_step _ _ _ _ _ _ _ _ pool Hfc) in E;
    destruct pool as [|c0 pool0] eqn:Epool.
  - injection E as <- <-. exists sel. split; [exact Hsel | constructor].
  - discriminate.
  - injection E as <- <-. exists sel. split; [exact Hsel | constructor].
  - rewrite <- Epool in *.
    assert (Hne : pool <> []) by (rewrite Epool; discriminate).
    apply bind_ok_inv in E as (w1 & rs & E1 & E).
    apply bind_ok_inv in E as (w2 & s & E2 & E).
    apply (rate_candidates_merged w0 _ _ _ _ merge _ sel) in E1
      as (qs & Hrs & HF & Hs1 & Hf1); auto.
    cbn [app] in Hrs. subst rs.
    pose proof (heap_frame_lookup _ _ _ _ Hf1 Hfc) as Hfc1.
    pose proof (heap_frame_lookup _ _ _ _ Hf1 Hsel) as Hsel1.
    assert (Hf01 : heap_frame (length (heap w0)) (heap w0) (heap w1)).
    { eapply heap_frame_trans; [exact Hf|].
      eapply heap_frame_le; [|exact Hf1]. destruct Hf as [Hl _]. exact Hl. }
    pose proof (Forall2_length _ _ _ HF) as Hlen.
    destruct (np_argmax_first_max qs) as (k & r & Hk & Hr & Hkr & Hle & Hlt).
    { intros ->. destruct pool; [congruence | discriminate]. }
    assert (Hkl : k < length pool).
    { rewrite Hlen. eapply lookup_lt_Some; eauto. }
    destruct (lookup_lt_is_Some_2 pool k Hkl) as [b Hb].
    assert (Hfm : first_max qs k r) by (repeat split; assumption).
    rewrite (choose_best_run _ _ _ _ _ pool k b r Hfc1 Hk Hr Hb) in E2.
    rewrite Hs1, Hs in E2.
    destruct (Qltb _ _) eqn:Eq.
    + injection E2 as <- <-. unfold ret in E. injection E as <- <-.
      exists sel. split; [exact Hsel1|].
      apply Qltb_lt in Eq. eapply greedy_break; eauto.
    + apply Qltb_ge in Eq.
      rewrite (merges_run w0 w1 _ merge _ b sel Hm) in E2;
        [|congruence|exact Hf01|exact Hsel1].
      destruct (merge sel b) as [sel'|e] eqn:Emerge; [|discriminate].
      rewrite read_list_run in E2. cbn [heap this] in E2.
      rewrite lookup_app_l in E2 by (eapply lookup_lt_Some; eauto).
      rewrite Hfc1 in E2.
      assert (Hin : In b pool) by (eapply lookup_In; eauto).
      pose proof Hin as Hex. apply existsb_eqb_In in Hex.
      rewrite Hex in E2. injection E2 as <- <-.
      destruct (remove_first_split b pool Hin)
        as (pre & post & Hpool & Hpre & Hrem).
      assert (Hlt1 : feat_cand < length (heap w1))
        by (eapply lookup_lt_Some; eauto).
      apply (IH _ _ (pre ++ post) sel') in E.
      * destruct E as (final & Hfin & Hg). exists final.
        split; [exact Hfin|]. cbn [st_best_performance_ever st_best_ids] in Hg.
        eapply greedy_accept; eauto.
        intros Hlow. apply (Qlt_not_le _ _ Hlow). exact Eq.
      * cbn [this]. congruence.
      * cbn [heap]. eapply heap_frame_trans; [exact Hf01|].
        eapply heap_frame_trans.
        -- apply (heap_frame_app _ _ [sel']). destruct Hf01 as [Hl _]. exact Hl.
        -- now apply heap_frame_insert.
      * cbn [heap]. rewrite Hrem. apply list_lookup_insert_eq.
        rewrite length_app. lia.
      * cbn [heap st_selected].
        rewrite list_lookup_insert_ne by lia.
        rewrite lookup_app_r by lia. now rewrite Nat.sub_diag.
Qed.

(** C3.  The inner search, with ratings that are numbers (the
    cross-validation reports at least one accuracy; the arithmetic is
    exact), follows the rounds of the specification.  It starts with the caller's selected set, the whole pool, no chosen id
    and a best performance of [0].  In every round on a pool that is not
    empty every candidate is rated with the mean of the cross-validation
    on the pattern restricted to its merge with the selected set; the
    winner is the first candidate with the greatest rating; when this
    rating minus the best performance is below the break criterion the
    search stops and the winner is not added; otherwise the winner is
    merged into the selected set, appended to the chosen ids, its first
    occurrence leaves the local pool, and its rating is the new best
    performance.  What the search returns is the selected set and the
    chosen ids these rounds end with, and the rounds can end in no other
    way.  The search always comes to an end. *)
Theorem greedy_loop_follows_rounds (pattern : Pattern) (clf : Classifier)
    (clfargs : ClfArgs) (featureselector : loc -> Z -> M loc)
    (merge : pyobj -> Z -> result pyobj) (selected candidates : loc)
    (w : world) (sel : pyobj) (pool : list Z) :
  rates_every_subset (this w) pattern clf clfargs ->
  merges_as w featureselector merge ->
  heap w !! selected = Some sel ->
  heap w !! candidates = Some (PyList pool) ->
  snd (__doSelection pattern clf clfargs featureselector selected
         candidates w) <> Diverge
  /\ forall w' r ids,
       __doSelection pattern clf clfargs featureselector selected
         candidates w = (w', Ok (r, ids)) ->
       exists final,
         heap w' !! r = Some final
         /\ greedy_rounds merge (rating_of (this w) pattern clf clfargs)
              (__break_crit (this w)) sel pool 0 [] (final, ids)
         /\ forall out,
              greedy_rounds merge (rating_of (this w) pattern clf clfargs)
                (__break_crit (this w)) sel pool 0 [] out ->
              out = (final, ids).
Proof.
  intros _ Hm Hsel Hc.
  assert (Hfs : is_strategy featureselector) by (destruct Hm; constructor).
  split; [apply doSelection_terminates; now apply strategy_allocates|].
  intros w' r ids E.
  rewrite doSelection_run, Hc in E.
  apply bind_ok_inv in E as (w1 & st' & E & Er).
  unfold ret in Er. injection Er as <- <- <-.
  apply (while_candidates_rounds w _ _ _ _ merge _ Hm (le_n _) _ _ _ pool sel)
    in E; auto.
  - destruct E as (final & Hfin & Hg).
    cbn [st_best_performance_ever st_best_ids] in Hg.
    exists final. split; [exact Hfin|]. split; [exact Hg|].
    intros out Hout. symmetry. eapply greedy_rounds_unique; eauto.
  - cbn [heap]. apply heap_frame_app. lia.
  - cbn [heap]. rewrite lookup_app_r by lia. now rewrite Nat.sub_diag.
  - cbn [heap st_selected]. rewrite lookup_app_l; [exact Hsel|].
    eapply lookup_lt_Some; eauto.
Qed.

End GreedyRounds.

Lemma unravel_fold (s : list nat) (i : nat) :
  let r := fold_right (fun d qa => (fst qa / d, (fst qa mod d) :: snd qa))
             (i, []) s in
  fst r = i / fold_right Nat.mul 1 s
  /\ (0 < fold_right Nat.mul 1 s ->
      Forall2 lt (snd r) s
      /\ ravel_index s (snd r) = i mod fold_right Nat.mul 1 s).
Proof.
  induction s as [|d s IH]; cbn [fold_right].
  - cbn zeta. cbn [fst snd ravel_index]. rewrite Nat.div_1_r, Nat.mod_1_r.
    split; [reflexivity|]. intros _. split; [constructor | reflexivity].
  - cbn zeta in IH |- *. destruct IH as [Hq IH].
    set (r := fold_right _ (i, []) s) in *. cbn [fst snd].
    set (P := fold_right Nat.mul 1 s) in *.
    split.
    + rewrite Hq, Nat.Div0.div_div. f_equal. lia.
    + intros Hpos.
      assert (Hd : 0 < d) by nia. assert (HP : 0 < P) by nia.
      destruct (IH HP) as [Hb Hr]. split.
      * constructor; [|exact Hb]. apply Nat.mod_upper_bound. lia.
      * cbn [ravel_index]. fold P. rewrite Hr, Hq.
        rewrite (Nat.mul_comm d P), Nat.Div0.mod_mul_r. lia.
Qed.

Lemma unravel_index_bounds (s : list nat) (i : nat) :
  i < fold_right Nat.mul 1 s -> Forall2 lt (unravel_index s i) s.
Proof.
  intros Hi. unfold unravel_index.
  apply (proj2 (unravel_fold s i)). lia.
Qed.

Lemma ravel_unravel (s : list nat) (i : nat) :
  i < fold_right Nat.mul 1 s -> ravel_index s (unravel_index s i) = i.
Proof.
  intros Hi. unfold unravel_index.
  destruct (proj2 (unravel_fold s i)) as [_ H]; [lia|].
  rewrite H. now apply Nat.mod_small.
Qed.

Lemma ravel_index_bound (s c : list nat) :
  Forall2 lt c s -> ravel_index s c < fold_right Nat.mul 1 s.
Proof.
  induction 1 as [|x d c s Hx _ IH]; cbn [ravel_index fold_right]; [lia|].
  nia.
Qed.

Lemma ravel_index_inj (s c1 c2 : list nat) :
  Forall2 lt c1 s -> Forall2 lt c2 s ->
  ravel_index s c1 = ravel_index s c2 -> c1 = c2.
Proof.
  intros H1. revert c2.
  induction H1 as [|x1 d c1 s Hx1 Hc1 IH]; intros c2 H2 E.
  - now apply Forall2_nil_inv_r in H2.
  - apply Forall2_cons_inv_r in H2 as (x2 & c2' & Hx2 & Hc2 & ->).
    cbn [ravel_index] in E.
    pose proof (ravel_index_bound _ _ Hc1) as B1.
    pose proof (ravel_index_bound _ _ Hc2) as B2.
    assert (x1 = x2) by nia. subst x2.
    f_equal. apply IH; [exact Hc2 | lia].
Qed.

Lemma unravel_ravel (s c : list nat) :
  Forall2 lt c s -> unravel_index s (ravel_index s c) = c.
Proof.
  intros Hc. pose proof (ravel_index_bound _ _ Hc) as B.
  apply (ravel_index_inj s); [now apply unravel_index_bounds | exact Hc|].
  now apply ravel_unravel.
Qed.

Lemma ravel_index_lex (s c1 c2 : list nat) :
  Forall2 lt c1 s -> Forall2 lt c2 s ->
  ravel_index s c1 < ravel_index s c2 <-> lex_lt c1 c2.
Proof.
  intros H1. revert c2.
  induction H1 as [|x1 d c1 s Hx1 Hc1 IH]; intros c2 H2.
  - apply Forall2_nil_inv_r in H2 as ->. cbn. split; [lia|inversion 1].
  - apply Forall2_cons_inv_r in H2 as (x2 & c2' & Hx2 & Hc2 & ->).
    cbn [ravel_index].
    pose proof (ravel_index_bound _ _ Hc1) as B1.
    pose proof (ravel_index_bound _ _ Hc2) as B2.
    split.
    + intros Hlt. destruct (Nat.lt_trichotomy x1 x2) as [L|[->|G]].
      * apply lex_head; [exact L|].
        apply Forall2_length in Hc1, Hc2. congruence.
      * apply lex_tail. apply IH; [exact Hc2 | lia].
      * exfalso. nia.
    + intros Hlex. inversion Hlex as [? ? ? ? L _|? ? ? L]; subst.
      * nia.
      * apply IH in L; [lia | exact Hc2].
Qed.

(** ** The candidate pools *)

Lemma sorted_map_inv {A} (f : A -> nat) (R : A -> A -> Prop) (P : A -> Prop)
    (l : list A) :
  (forall a b, P a -> P b -> f a < f b -> R a b) ->
  List.Forall P l -> StronglySorted lt (map f l) -> StronglySorted R l.
Proof.
  intros HR. induction l as [|a l IH]; intros HP Hs; [constructor|].
  apply List.Forall_cons_iff in HP as [Ha HP].
  cbn [map] in Hs. apply StronglySorted_inv in Hs as [Hs Hall].
  constructor; [now apply IH|].
  rewrite List.Forall_forall in *. intros b Hb.
  apply HR; auto. apply Hall. now apply in_map.
Qed.

Lemma flatnonzero_lt_length (l : list Z) (k : nat) :
  In k (flatnonzero l) -> k < length l.
Proof.
  unfold flatnonzero. rewrite flatnonzero_from_In.
  intros (_ & x & Hx & _). rewrite Nat.sub_0_r in Hx.
  eapply lookup_lt_Some; eauto.
Qed.

(** The coordinates of the nonzero elements: each lies within the shape
    and names, in row-major counting, the position of a nonzero element;
    every such coordinate is listed; the list is in scan order. *)
Lemma np_transpose_nonzero_spec (m : ndarray Z) :
  well_shaped m ->
  List.Forall (fun c => Forall2 lt c (shape m)) (np_transpose_nonzero m)
  /\ map (ravel_index (shape m)) (np_transpose_nonzero m)
     = flatnonzero (data m)
  /\ (forall c,
         In c (np_transpose_nonzero m) <->
         Forall2 lt c (shape m)
         /\ exists x, data m !! ravel_index (shape m) c = Some x /\ x <> 0%Z)
  /\ StronglySorted lex_lt (np_transpose_nonzero m).
Proof.
  intros Hw. unfold well_shaped in Hw. unfold np_transpose_nonzero.
  assert (Hb : List.Forall (fun c => Forall2 lt c (shape m))
                 (map (unravel_index (shape m)) (flatnonzero (data m)))).
  { rewrite List.Forall_forall. intros c Hc.
    apply in_map_iff in Hc as (k & <- & Hk).
    apply unravel_index_bounds. rewrite <- Hw.
    now apply flatnonzero_lt_length. }
  assert (Hr : map (ravel_index (shape m))
                 (map (unravel_index (shape m)) (flatnonzero (data m)))
               = flatnonzero (data m)).
  { rewrite map_map. rewrite <- (map_id (flatnonzero (data m))) at 2.
    apply map_ext_in. intros k Hk. apply ravel_unravel. rewrite <- Hw.
    now apply flatnonzero_lt_length. }
  split; [exact Hb|]. split; [exact Hr|]. split.
  - intros c. rewrite in_map_iff. split.
    + intros (k & <- & Hk).
      pose proof (flatnonzero_lt_length _ _ Hk) as Hlt. rewrite Hw in Hlt.
      split; [now apply unravel_index_bounds|].
      rewrite ravel_unravel by exact Hlt.
      unfold flatnonzero in Hk. apply flatnonzero_from_In in Hk
        as (_ & x & Hx & Hn).
      rewrite Nat.sub_0_r in Hx. eauto.
    + intros (Hc & x & Hx & Hn). exists (ravel_index (shape m) c).
      split; [now apply unravel_ravel|].
      unfold flatnonzero. apply flatnonzero_from_In.
      split; [lia|]. rewrite Nat.sub_0_r. eauto.
  - apply (sorted_map_inv (ravel_index (shape m)) lex_lt
             (fun c => Forall2 lt c (shape m))).
    + intros a b Ha Hb' Hlt. now apply ravel_index_lex in Hlt.
    + exact Hb.
    + rewrite Hr. apply flatnonzero_from_sorted.
Qed.

(** On a mask of two rows and three columns. *)
Example nonzero_coordinates_of_a_matrix :
  np_transpose_nonzero (NdArray [2; 3] [0; 1; 0; 2; 0; 3]%Z)
  = [[0; 1]; [1; 0]; [1; 2]].
Proof. reflexivity. Qed.

Section PoolsOfTheCalls.

Context {C : Collaborators}.

Lemma mapM_lift_run {A B} (f : A -> result B) (l : list A) (ys : list B)
    (w : world) :
  Forall2 (fun x y => f x = Res y) l ys ->
  mapM (fun x => lift (f x)) l w = (w, Ok ys).
Proof.
  induction 1 as [|x y l ys Hxy _ IH]; [reflexivity|].
  cbn [mapM]. unfold bind at 1, lift at 1. rewrite Hxy.
  unfold bind at 1. rewrite IH. reflexivity.
Qed.

Lemma cand_features_of_run (w : world) (o : pyobj) (m : ndarray Z)
    (pool : list Z) :
  heap w !! __mask (this w) = Some o -> as_array o = Res m ->
  Forall2 (fun coord id => getFeatureId (__pattern (this w)) coord = Res id)
    (np_transpose_nonzero m) pool ->
  cand_features_of w = (w, Ok pool).
Proof.
  intros Ho Hm HF. unfold cand_features_of, bind at 1, get_self.
  unfold bind at 1. rewrite read_array_run, Ho, Hm.
  now apply mapM_lift_run.
Qed.

(** [selectFeatures] up to the call of the outer loop: the pool is a new
    list with the feature ids of the nonzero coordinates. *)
Lemma selectFeatures_from_pool (clf : Classifier) (kwargs : ClfArgs)
    (w : world) (o : pyobj) (m : ndarray Z) (pool : list Z) :
  heap w !! __mask (this w) = Some o -> as_array o = Res m ->
  Forall2 (fun coord id => getFeatureId (__pattern (this w)) coord = Res id)
    (np_transpose_nonzero m) pool ->
  selectFeatures clf kwargs w
  = bind (__doCVSelection clf kwargs __selectByFeatureId
            (length (heap w)) (S (length (heap w))))
      selectFeatures_end
      (World (heap w ++ [PyList []; PyList pool]) (clear_fields (this w))).
Proof.
  intros Ho Hm HF. rewrite selectFeatures_run. cbv zeta.
  rewrite (cand_features_of_run _ o m pool).
  - cbn [heap this]. rewrite <- app_assoc. cbn [app].
    rewrite length_app. cbn [length]. rewrite Nat.add_1_r.
    symmetry. unfold bind at 1.
    destruct (__doCVSelection _ _ _ _ _ _) as [w2 [[sf dummy]|e|]];
      reflexivity.
  - cbn [heap this clear_fields __mask].
    rewrite lookup_app_l; [exact Ho|]. eapply lookup_lt_Some; eauto.
  - exact Hm.
  - exact HF.
Qed.

Lemma selectROIs_from_pool (clf : Classifier) (kwargs : ClfArgs)
    (w : world) (o : pyobj) (m : ndarray Z) :
  heap w !! __mask (this w) = Some o -> as_array o = Res m ->
  selectROIs clf kwargs w
  = bind (__doCVSelection clf kwargs __selectByMaskValue
            (S (length (heap w))) (length (heap w)))
      selectROIs_end
      (World (heap w ++ [PyList (np_unique (data m));
                         np_zeros_bool (shape m)])
         (clear_fields (this w))).
Proof.
  intros Ho Hm. rewrite selectROIs_run, Ho, Hm. symmetry.
  unfold bind at 1.
  destruct (__doCVSelection _ _ _ _ _ _) as [w2 [[fm rois]|e|]];
    reflexivity.
Qed.

(** The two calls up to the loop over the folds. *)
Lemma selectFeatures_loop (clf : Classifier) (kwargs : ClfArgs)
    (w : world) (o : pyobj) (m : ndarray Z) (pool : list Z)
    (origins : list (list Z)) :
  heap w !! __mask (this w) = Some o -> as_array o = Res m ->
  Forall2 (fun coord id => getFeatureId (__pattern (this w)) coord = Res id)
    (np_transpose_nonzero m) pool ->
  getUniqueLengthNCombinations (originlabels (__pattern (this w)))
    (__metacvtype (this w)) = Res origins ->
  selectFeatures clf kwargs w
  = bind (meta_folds clf kwargs __selectByFeatureId
            (length (heap w)) (S (length (heap w))) origins [] [])
      selectFeatures_end (features_loop_start w pool origins).
Proof.
  intros Ho Hm HF Horig.
  rewrite (selectFeatures_from_pool _ _ _ o m pool Ho Hm HF).
  unfold bind at 1. rewrite doCVSelection_run. cbn [heap this].
  cbn [clear_fields __pattern __metacvtype]. rewrite Horig. reflexivity.
Qed.

Lemma selectROIs_loop (clf : Classifier) (kwargs : ClfArgs)
    (w : world) (o : pyobj) (m : ndarray Z) (origins : list (list Z)) :
  heap w !! __mask (this w) = Some o -> as_array o = Res m ->
  getUniqueLengthNCombinations (originlabels (__pattern (this w)))
    (__metacvtype (this w)) = Res origins ->
  selectROIs clf kwargs w
  = bind (meta_folds clf kwargs __selectByMaskValue
            (S (length (heap w))) (length (heap w)) origins [] [])
      selectROIs_end (rois_loop_start w m origins).
Proof.
  intros Ho Hm Horig.
  rewrite (selectROIs_from_pool _ _ _ o m Ho Hm).
  unfold bind at 1. rewrite doCVSelection_run. cbn [heap this].
  cbn [clear_fields __pattern __metacvtype]. rewrite Horig. reflexivity.
Qed.

(** C4.  The pool that [selectFeatures] hands to the loop over the folds
    is a new list with the feature ids of the coordinates of the nonzero
    mask elements, one per nonzero element; these coordinates are the
    coordinates within the shape of the mask at which the mask is not
    zero, in scan order (row-major, which is the lexicographic order of
    the coordinates).  The pool that [selectROIs] hands to the loop is a
    new list with the distinct mask values (zero too, when present) in
    increasing order, one per distinct value. *)
Theorem candidate_pools (clf : Classifier) (kwargs : ClfArgs) (w : world)
    (o : pyobj) (m : ndarray Z) :
  heap w !! __mask (this w) = Some o -> as_array o = Res m ->
  well_shaped m ->
  (forall pool,
      Forall2 (fun coord id =>
                 getFeatureId (__pattern (this w)) coord = Res id)
        (np_transpose_nonzero m) pool ->
      selectFeatures clf kwargs w
      = bind (__doCVSelection clf kwargs __selectByFeatureId
                (length (heap w)) (S (length (heap w))))
          selectFeatures_end
          (World (heap w ++ [PyList []; PyList pool])
             (clear_fields (this w)))
      /\ length pool = length (filter (fun x => negb (x =? 0)%Z) (data m)))
  /\ (List.Forall (fun c => Forall2 lt c (shape m)) (np_transpose_nonzero m)
      /\ (forall c,
             In c (np_transpose_nonzero m) <->
             Forall2 lt c (shape m)
             /\ exists x,
                  data m !! ravel_index (shape m) c = Some x /\ x <> 0%Z)
      /\ StronglySorted lex_lt (np_transpose_nonzero m))
  /\ (selectROIs clf kwargs w
      = bind (__doCVSelection clf kwargs __selectByMaskValue
                (S (length (heap w))) (length (heap w)))
          selectROIs_end
          (World (heap w ++ [PyList (np_unique (data m));
                             np_zeros_bool (shape m)])
             (clear_fields (this w)))
      /\ StronglySorted Z.lt (np_unique (data m))
      /\ (forall x, In x (np_unique (data m)) <-> In x (data m))
      /\ length (np_unique (data m)) = length (nodup Z.eq_dec (data m))).
Proof.
  intros Ho Hm Hw. split; [|split].
  - intros pool HF. split; [now apply (selectFeatures_from_pool _ _ _ o m)|].
    apply Forall2_length in HF. rewrite <- HF.
    unfold np_transpose_nonzero, flatnonzero.
    rewrite length_map. apply flatnonzero_from_length.
  - destruct (np_transpose_nonzero_spec m Hw) as (H1 & _ & H3 & H4). auto.
  - split; [now apply (selectROIs_from_pool _ _ _ o m)|].
    split; [apply np_unique_sorted|].
    split; [intros x; apply np_unique_In | apply np_unique_length].
Qed.

End PoolsOfTheCalls.

Section ResultsOfTheCalls.

Context {C : Collaborators}.

(** C5.  When [selectFeatures] returns, the mask is an array, every
    nonzero coordinate has a feature id, the folds are the combinations
    enumerated from the origin labels, and the loop over these folds,
    started on the empty selected list and the pool of feature ids, ran
    the inner search once per fold, in the order of the folds.  The call
    returns, fold by fold, the selected list of the fold's inner search,
    and this list holds exactly the ids the search chose, in the order it
    accepted them.  [selectROIs] returns, fold by fold, the mask values
    the fold's inner search chose, in the order it accepted them.  Both
    calls come to an end. *)
Theorem select_returns_chosen_ids (clf : Classifier) (kwargs : ClfArgs)
    (w w' : world) :
  (forall res,
      selectFeatures clf kwargs w = (w', Ok res) ->
      exists o m pool origins results w2,
        heap w !! __mask (this w) = Some o /\ as_array o = Res m
        /\ Forall2 (fun coord id =>
                      getFeatureId (__pattern (this w)) coord = Res id)
             (np_transpose_nonzero m) pool
        /\ getUniqueLengthNCombinations (originlabels (__pattern (this w)))
             (__metacvtype (this w)) = Res origins
        /\ folds_trace clf kwargs __selectByFeatureId
             (length (heap w)) (S (length (heap w)))
             (features_loop_start w pool origins) origins results w2
        /\ res = map fst results
        /\ Forall (fun x => heap w' !! fst x = Some (PyList (snd x))) results)
  /\ (forall res,
        selectROIs clf kwargs w = (w', Ok res) ->
        exists o m origins results w2,
          heap w !! __mask (this w) = Some o /\ as_array o = Res m
          /\ getUniqueLengthNCombinations (originlabels (__pattern (this w)))
               (__metacvtype (this w)) = Res origins
          /\ folds_trace clf kwargs __selectByMaskValue
               (S (length (heap w))) (length (heap w))
               (rois_loop_start w m origins) origins results w2
          /\ res = map snd results)
  /\ snd (selectFeatures clf kwargs w) <> Diverge
  /\ snd (selectROIs clf kwargs w) <> Diverge.
Proof.
  split; [|split; [|split; [apply selectFeatures_terminates
                           |apply selectROIs_terminates]]].
  - intros res E. rewrite selectFeatures_run in E. cbv zeta in E.
    destruct (cand_features_of _) as [w0 [pool|e|]] eqn:Ec;
      [|discriminate|discriminate].
    apply cand_features_of_ok in Ec as (-> & o & m & Ho & Hm & HF).
    cbn [heap this clear_fields __mask __pattern] in Ho, HF, E.
    assert (Ho' : heap w !! __mask (this w) = Some o).
    { destruct (decide (__mask (this w) < length (heap w))) as [Hlt|Hge].
      - now rewrite lookup_app_l in Ho.
      - rewrite lookup_app_r in Ho by lia.
        destruct (__mask (this w) - length (heap w)) as [|k]; simpl in Ho.
        + injection Ho as <-. discriminate Hm.
        + discriminate Ho. }
    destruct (__doCVSelection _ _ _ _ _ _) as [w2 [[sf dummy]|e|]] eqn:Ecv;
      [|discriminate|discriminate].
    destruct (mapM _ sf w2) as [w3 [masks|e|]] eqn:Em;
      [|discriminate|discriminate].
    injection E as <- <-.
    rewrite doCVSelection_run in Ecv. cbn [heap this] in Ecv.
    cbn [clear_fields __pattern __metacvtype] in Ecv.
    destruct (getUniqueLengthNCombinations _ _) as [origins|e] eqn:Eorig;
      [|discriminate].
    rewrite length_app in Ecv. cbn [length] in Ecv.
    rewrite Nat.add_1_r in Ecv.
    rewrite <- app_assoc in Ecv. cbn [app] in Ecv.
    apply meta_folds_trace in Ecv as (results & Ht & Hsf & _).
    cbn [app] in Hsf. subst sf.
    apply store_masks_ok in Em as (_ & Hfr & _).
    exists o, m, pool, origins, results, w2.
    repeat (split; [assumption || reflexivity|]).
    cbn [heap]. apply folds_trace_by_id in Ht.
    + eapply List.Forall_impl; [|exact Ht]. intros x Hx. cbn beta in Hx |- *.
      eapply heap_frame_lookup; eauto.
    + unfold features_loop_start. cbn [heap].
      rewrite lookup_app_r by lia. now rewrite Nat.sub_diag.
  - intros res E. rewrite selectROIs_run in E.
    destruct (heap w !! __mask (this w)) as [o|] eqn:Ho; [|discriminate].
    destruct (as_array o) as [m|e] eqn:Hm; [|discriminate].
    destruct (__doCVSelection _ _ _ _ _ _) as [w2 [[fm rois]|e|]] eqn:Ecv;
      [|discriminate|discriminate].
    injection E as <- <-.
    rewrite doCVSelection_run in Ecv. cbn [heap this] in Ecv.
    cbn [clear_fields __pattern __metacvtype] in Ecv.
    destruct (getUniqueLengthNCombinations _ _) as [origins|e] eqn:Eorig;
      [|discriminate].
    apply meta_folds_trace in Ecv as (results & Ht & _ & ->).
    exists o, m, origins, results, w2. auto 10.
Qed.

End ResultsOfTheCalls.

Section ChosenIds.

Context {C : Collaborators}.

(** A fold reaches its inner search with the pool as it was when the loop
    started. *)
Lemma inner_run_lookup (clf : Classifier) (clfargs : ClfArgs)
    (featureselector : loc -> Z -> M loc) (selected candidates : loc)
    (w0 wk : world) (origins : list (list Z)) (meta_train : Pattern)
    (l : loc) (x : pyobj) :
  allocates_only featureselector ->
  inner_run clf clfargs featureselector selected candidates w0 origins wk
    meta_train ->
  heap w0 !! l = Some x -> heap wk !! l = Some x.
Proof.
  intros Hfs Hrun Hl.
  destruct Hrun as [finished exclude rest found wk mt mte _ E _].
  apply (framed_meta_folds (length (heap w0))) in E as [_ Hf];
    [|exact Hfs|lia].
  eapply heap_frame_lookup; eauto.
Qed.

Lemma doSelection_distinct (pattern : Pattern) (clf : Classifier)
    (clfargs : ClfArgs) (featureselector : loc -> Z -> M loc)
    (selected candidates : loc) (w w' : world) (pool : list Z) (r : loc)
    (ids : list Z) :
  allocates_only featureselector ->
  heap w !! candidates = Some (PyList pool) ->
  __doSelection pattern clf clfargs featureselector selected candidates w
    = (w', Ok (r, ids)) ->
  length ids <= length pool
  /\ (forall x, In x ids -> In x pool)
  /\ (List.NoDup pool -> List.NoDup ids).
Proof.
  intros Hfs Hc E.
  apply (doSelection_permutation _ _ _ _ _ _ _ _ pool) in E
    as [remaining Hp]; [|exact Hfs|exact Hc].
  split; [|split].
  - apply Permutation_length in Hp. rewrite length_app in Hp. lia.
  - intros x Hx. apply (Permutation_in x Hp). apply in_or_app. now left.
  - intros Hnd. apply Permutation_sym in Hp.
    apply (Permutation_NoDup Hp) in Hnd.
    now apply NoDup_app_remove_r in Hnd.
Qed.

(** C8.  The inner loop never chooses more ids than the pool has
    candidates, every chosen id comes from the pool, and on a pool without
    duplicates the chosen ids are without duplicates; it always comes to
    an end.  The pools of the inner loop are without duplicates: every
    inner search of a call of [selectROIs], whatever folds completed
    before it, runs on the list of the distinct mask values; every inner
    search of a call of [selectFeatures] runs on the list of the feature
    ids of the nonzero coordinates, which holds no id twice when the
    dataset gives distinct coordinates distinct ids (the hypothesis on
    [pool]). *)
Theorem chosen_ids_are_distinct (clf : Classifier) (kwargs : ClfArgs)
    (w : world) (o : pyobj) (m : ndarray Z) (origins : list (list Z)) :
  heap w !! __mask (this w) = Some o -> as_array o = Res m ->
  getUniqueLengthNCombinations (originlabels (__pattern (this w)))
    (__metacvtype (this w)) = Res origins ->
  (selectROIs clf kwargs w
   = bind (meta_folds clf kwargs __selectByMaskValue
             (S (length (heap w))) (length (heap w)) origins [] [])
       selectROIs_end (rois_loop_start w m origins)
   /\ forall wk meta_train w' r ids,
        inner_run clf kwargs __selectByMaskValue
          (S (length (heap w))) (length (heap w))
          (rois_loop_start w m origins) origins wk meta_train ->
        __doSelection meta_train clf kwargs __selectByMaskValue
          (S (length (heap w))) (length (heap w)) wk = (w', Ok (r, ids)) ->
        List.NoDup ids
        /\ length ids <= length (np_unique (data m))
        /\ forall x, In x ids -> In x (data m))
  /\ (forall pool,
         Forall2 (fun coord id =>
                    getFeatureId (__pattern (this w)) coord = Res id)
           (np_transpose_nonzero m) pool ->
         List.NoDup pool ->
         selectFeatures clf kwargs w
         = bind (meta_folds clf kwargs __selectByFeatureId
                   (length (heap w)) (S (length (heap w))) origins [] [])
             selectFeatures_end (features_loop_start w pool origins)
         /\ forall wk meta_train w' r ids,
              inner_run clf kwargs __selectByFeatureId
                (length (heap w)) (S (length (heap w)))
                (features_loop_start w pool origins) origins wk meta_train ->
              __doSelection meta_train clf kwargs __selectByFeatureId
                (length (heap w)) (S (length (heap w))) wk
                = (w', Ok (r, ids)) ->
              List.NoDup ids
              /\ length ids <= length pool
              /\ forall x, In x ids -> In x pool)
  /\ (forall pattern featureselector selected candidates w1 pool,
         is_strategy featureselector ->
         heap w1 !! candidates = Some (PyList pool) ->
         snd (__doSelection pattern clf kwargs featureselector selected
                candidates w1) <> Diverge
         /\ forall w' r ids,
              __doSelection pattern clf kwargs featureselector selected
                candidates w1 = (w', Ok (r, ids)) ->
              length ids <= length pool
              /\ (forall x, In x ids -> In x pool)
              /\ (List.NoDup pool -> List.NoDup ids)).
Proof.
  intros Ho Hm Horig. split; [|split].
  - split; [now apply (selectROIs_loop _ _ _ o m)|].
    intros wk mt w' r ids Hrun E.
    assert (Hfs : allocates_only __selectByMaskValue)
      by (apply strategy_allocates; constructor).
    assert (Hc : heap wk !! length (heap w)
                 = Some (PyList (np_unique (data m)))).
    { eapply inner_run_lookup; [exact Hfs | exact Hrun |].
      unfold rois_loop_start. cbn [heap].
      rewrite lookup_app_r by lia. now rewrite Nat.sub_diag. }
    destruct (doSelection_distinct _ _ _ _ _ _ _ _ _ _ _ Hfs Hc E)
      as (Hlen & Hin & Hnd).
    split; [apply Hnd, NoDup_ListNoDup, np_unique_NoDup|].
    split; [exact Hlen|].
    intros x Hx. apply np_unique_In. auto.
  - intros pool HF Hnd. split; [now apply (selectFeatures_loop _ _ _ o m)|].
    intros wk mt w' r ids Hrun E.
    assert (Hfs : allocates_only __selectByFeatureId)
      by (apply strategy_allocates; constructor).
    assert (Hc : heap wk !! S (length (heap w)) = Some (PyList pool)).
    { eapply inner_run_lookup; [exact Hfs | exact Hrun |].
      unfold features_loop_start. cbn [heap].
      rewrite lookup_app_r by lia.
      replace (S (length (heap w)) - length (heap w)) with 1 by lia.
      reflexivity. }
    destruct (doSelection_distinct _ _ _ _ _ _ _ _ _ _ _ Hfs Hc E)
      as (Hlen & Hin & Hnd'). auto.
  - intros pattern fs selected candidates w1 pool Hfs Hc.
    apply strategy_allocates in Hfs.
    split; [now apply doSelection_terminates|].
    intros w' r ids E. eapply doSelection_distinct; eauto.
Qed.

End ChosenIds.

(** ** Exceptions *)

Lemma remove_first_app (b : Z) (pre post : list Z) :
  ~ In b pre -> remove_first b (pre ++ b :: post) = pre ++ post.
Proof.
  induction pre as [|y pre IH]; intros Hn; cbn [app remove_first].
  - now rewrite Z.eqb_refl.
  - destruct (b =? y)%Z eqn:E.
    + apply Z.eqb_eq in E. subst y. exfalso. apply Hn. now left.
    + f_equal. apply IH. intros H. apply Hn. now right.
Qed.

Section Exceptions.

Context {C : Collaborators}.

(** The rating of one candidate, then of the rest. *)
Lemma rate_candidates_cons (w0 : world) (pattern : Pattern)
    (clf : Classifier) (clfargs : ClfArgs)
    (featureselector : loc -> Z -> M loc)
    (merge : pyobj -> Z -> result pyobj) (selected : loc) (s : pyobj)
    (c : Z) (rest : list Z) (acc : list Q) (w : world) :
  merges_as w0 featureselector merge ->
  this w = this w0 ->
  heap_frame (length (heap w0)) (heap w0) (heap w) ->
  heap w !! selected = Some s ->
  rate_candidates pattern clf clfargs featureselector selected (c :: rest)
    acc w =
  match merge s c with
  | Err e => (w, Raise e)
  | Res features =>
      match rating_of (this w0) pattern clf clfargs features with
      | Err e => (World (heap w ++ [features]) (this w), Raise e)
      | Res q =>
          rate_candidates pattern clf clfargs featureselector selected rest
            (acc ++ [q]) (World (heap w ++ [features]) (this w))
      end
  end.
Proof.
  intros Hm Hs Hf Hsel. cbn [rate_candidates]. unfold bind at 1.
  rewrite (merges_run w0 w _ merge selected c s Hm Hs Hf Hsel).
  destruct (merge s c) as [o|e]; [|reflexivity].
  unfold bind at 1, deref. cbn [heap].
  rewrite lookup_app_r by lia. rewrite Nat.sub_diag. cbn [lookup list_lookup].
  unfold bind at 1, lift at 1. unfold rating_of, rbind.
  destruct (pat_selectFeatures pattern o) as [p|e]; [|reflexivity].
  unfold bind at 1, __doCrossValidation, bind at 1, get_self, lift.
  cbn [this]. rewrite Hs.
  destruct (CrossValidation_run _ _ _ _ _) as [perf|e]; reflexivity.
Qed.

Lemma rate_candidates_raise (w0 : world) (pattern : Pattern)
    (clf : Classifier) (clfargs : ClfArgs)
    (featureselector : loc -> Z -> M loc)
    (merge : pyobj -> Z -> result pyobj) (selected : loc) (s : pyobj)
    (pre : list Z) (c : Z) (post : list Z) (rs : list Q)
    (features : pyobj) (e : exn) :
  merges_as w0 featureselector merge ->
  Forall2 (fun c q =>
             exists features,
               merge s c = Res features
               /\ rating_of (this w0) pattern clf clfargs features = Res q)
    pre rs ->
  merge s c = Res features ->
  rating_of (this w0) pattern clf clfargs features = Err e ->
  forall acc w,
    this w = this w0 ->
    heap_frame (length (heap w0)) (heap w0) (heap w) ->
    heap w !! selected = Some s ->
    exists w',
      rate_candidates pattern clf clfargs featureselector selected
        (pre ++ c :: post) acc w = (w', Raise e).
Proof.
  intros Hm HF Hc He.
  induction HF as [|c1 q pre rs (f1 & Hm1 & Hr1) _ IH]; intros acc w Hs Hf Hsel;
    cbn [app]; rewrite (rate_candidates_cons w0 _ _ _ _ merge _ s); auto.
  - rewrite Hc, He. eauto.
  - rewrite Hm1, Hr1. apply IH.
    + exact Hs.
    + cbn [heap]. eapply heap_frame_trans; [exact Hf|].
      apply heap_frame_app. destruct Hf as [Hl _]. exact Hl.
    + cbn [heap]. rewrite lookup_app_l; [exact Hsel|].
      eapply lookup_lt_Some; eauto.
Qed.

Lemma rate_candidates_rated (w0 : world) (pattern : Pattern)
    (clf : Classifier) (clfargs : ClfArgs)
    (featureselector : loc -> Z -> M loc)
    (merge : pyobj -> Z -> result pyobj) (selected : loc) (s : pyobj)
    (cands : list Z) (rs : list Q) :
  merges_as w0 featureselector merge ->
  Forall2 (fun c q =>
             exists features,
               merge s c = Res features
               /\ rating_of (this w0) pattern clf clfargs features = Res q)
    cands rs ->
  forall acc w,
    this w = this w0 ->
    heap_frame (length (heap w0)) (heap w0) (heap w) ->
    heap w !! selected = Some s ->
    exists w',
      rate_candidates pattern clf clfargs featureselector selected cands
        acc w = (w', Ok (acc ++ rs))
      /\ this w' = this w
      /\ heap_frame (length (heap w)) (heap w) (heap w').
Proof.
  intros Hm HF.
  induction HF as [|c1 q cands rs (f1 & Hm1 & Hr1) _ IH];
    intros acc w Hs Hf Hsel.
  - exists w. cbn [rate_candidates]. rewrite app_nil_r.
    split; [reflexivity|]. split; [reflexivity | apply heap_frame_refl].
  - rewrite (rate_candidates_cons w0 _ _ _ _ merge _ s); auto.
    rewrite Hm1, Hr1.
    destruct (IH (acc ++ [q]) (World (heap w ++ [f1]) (this w)))
      as (w' & E & Hs' & Hf').
    + exact Hs.
    + cbn [heap]. eapply heap_frame_trans; [exact Hf|].
      apply heap_frame_app. destruct Hf as [Hl _]. exact Hl.
    + cbn [heap]. rewrite lookup_app_l; [exact Hsel|].
      eapply lookup_lt_Some; eauto.
    + exists w'. rewrite E, <- app_assoc. split; [reflexivity|].
      split; [exact Hs'|]. cbn [heap] in Hf'.
      eapply heap_frame_trans; [apply (heap_frame_app _ _ [f1]); lia|].
      eapply heap_frame_le; [|exact Hf']. rewrite length_app. lia.
Qed.

(** A rating that fails in some round makes the loop raise the exception
    of the rating. *)
Lemma while_candidates_raises (w0 : world) (pattern : Pattern)
    (clf : Classifier) (clfargs : ClfArgs)
    (featureselector : loc -> Z -> M loc)
    (merge : pyobj -> Z -> result pyobj) (feat_cand : loc)
    (sel : pyobj) (pool : list Z) (best : Q) (e : exn) :
  merges_as w0 featureselector merge ->
  length (heap w0) <= feat_cand ->
  greedy_raises merge (rating_of (this w0) pattern clf clfargs)
    (__break_crit (this w0)) sel pool best e ->
  forall fuel w st,
    length pool <= fuel ->
    this w = this w0 ->
    heap_frame (length (heap w0)) (heap w0) (heap w) ->
    heap w !! feat_cand = Some (PyList pool) ->
    heap w !! st_selected st = Some sel ->
    st_best_performance_ever st = best ->
    exists w',
      while_candidates fuel pattern clf clfargs featureselector feat_cand
        st w = (w', Raise e).
Proof.
  intros Hm Hn Hg.
  induction Hg as [sel pool best pre c post rs features e Hpool HF Hc He
                  |sel pool best rs k b mx sel' pre post e Hne HF Hfm Hb
                     Hhigh Hmerge Hpool Hpre Hg IH];
    intros fuel w st Hfuel Hs Hf Hfc Hsel Hbest.
  - rewrite (while_candidates_step _ _ _ _ _ _ _ _ pool Hfc).
    destruct pool as [|c0 pool0] eqn:Epool.
    { destruct pre; discriminate. }
    destruct fuel as [|fuel]; [cbn [length] in Hfuel; lia|].
    rewrite Hpool.
    destruct (rate_candidates_raise w0 pattern clf clfargs featureselector
                merge (st_selected st) sel pre c post rs features e
                Hm HF Hc He [] w Hs Hf Hsel) as [w' E].
    exists w'. now apply bind_raise.
  - rewrite (while_candidates_step _ _ _ _ _ _ _ _ pool Hfc).
    destruct pool as [|c0 pool0] eqn:Epool; [congruence|].
    rewrite <- Epool in *.
    destruct fuel as [|fuel]; [rewrite Epool in Hfuel; cbn in Hfuel; lia|].
    destruct (rate_candidates_rated w0 pattern clf clfargs featureselector
                merge (st_selected st) sel pool rs Hm HF [] w Hs Hf Hsel)
      as (w1 & E1 & Hs1 & Hf1).
    cbn [app] in E1. rewrite (bind_ok _ _ _ _ _ E1).
    pose proof (heap_frame_lookup _ _ _ _ Hf1 Hfc) as Hfc1.
    pose proof (heap_frame_lookup _ _ _ _ Hf1 Hsel) as Hsel1.
    assert (Hf01 : heap_frame (length (heap w0)) (heap w0) (heap w1)).
    { eapply heap_frame_trans; [exact Hf|].
      eapply heap_frame_le; [|exact Hf1]. destruct Hf as [Hl _]. exact Hl. }
    destruct (np_argmax_first_max rs) as (k' & r & Hk & Hr & Hkr & Hle & Hlt).
    { intros ->. apply Forall2_length in HF.
      destruct pool; [congruence | discriminate]. }
    destruct (first_max_unique rs k k' mx r Hfm) as [<- <-];
      [repeat split; assumption|].
    assert (Hin : In b pool) by (eapply lookup_In; eauto).
    assert (Hlt1 : feat_cand < length (heap w1))
      by (eapply lookup_lt_Some; eauto).
    assert (Ec : choose_best featureselector feat_cand rs st w1
                 = (World (<[feat_cand:=PyList (pre ++ post)]>
                             (heap w1 ++ [sel'])) (this w1),
                    Ok (Continue (SearchState (length (heap w1))
                                    (st_best_ids st ++ [b]) mx
                                    (st_selection_counter st + 1))))).
    { rewrite (choose_best_run _ _ _ _ _ pool k b mx Hfc1 Hk Hr Hb).
      replace (__break_crit (this w1)) with (__break_crit (this w0))
        by congruence.
      rewrite Hbest.
      destruct (Qltb _ _) eqn:Eq; [apply Qltb_lt in Eq; contradiction|].
      rewrite (merges_run w0 w1 _ merge _ b sel Hm);
        [|congruence|exact Hf01|exact Hsel1].
      rewrite Hmerge, read_list_run. cbn [heap this].
      rewrite lookup_app_l by lia. rewrite Hfc1.
      pose proof Hin as Hex. apply existsb_eqb_In in Hex. rewrite Hex.
      rewrite Hpool at 1. rewrite (remove_first_app b pre post Hpre).
      reflexivity. }
    rewrite (bind_ok _ _ _ _ _ Ec).
    apply IH.
    + rewrite Hpool in Hfuel. rewrite length_app in *.
      cbn [length] in Hfuel. lia.
    + cbn [this]. congruence.
    + cbn [heap]. eapply heap_frame_trans; [exact Hf01|].
      eapply heap_frame_trans.
      * apply (heap_frame_app _ _ [sel']). destruct Hf01 as [Hl _]. exact Hl.
      * now apply heap_frame_insert.
    + cbn [heap]. apply list_lookup_insert_eq. rewrite length_app. lia.
    + cbn [heap st_selected]. rewrite list_lookup_insert_ne by lia.
      rewrite lookup_app_r by lia. now rewrite Nat.sub_diag.
    + reflexivity.
Qed.

Lemma doSelection_raises (pattern : Pattern) (clf : Classifier)
    (clfargs : ClfArgs) (featureselector : loc -> Z -> M loc)
    (merge : pyobj -> Z -> result pyobj) (selected candidates : loc)
    (w : world) (sel : pyobj) (pool : list Z) (e : exn) :
  merges_as w featureselector merge ->
  heap w !! selected = Some sel ->
  heap w !! candidates = Some (PyList pool) ->
  greedy_raises merge (rating_of (this w) pattern clf clfargs)
    (__break_crit (this w)) sel pool 0 e ->
  exists w',
    __doSelection pattern clf clfargs featureselector selected candidates w
    = (w', Raise e).
Proof.
  intros Hm Hsel Hc Hg. rewrite doSelection_run, Hc.
  destruct (while_candidates_raises w pattern clf clfargs featureselector
              merge (length (heap w)) sel pool 0 e Hm (le_n _) Hg
              (length pool) (World (heap w ++ [PyList pool]) (this w))
              (SearchState selected [] 0%Q 0)) as [w' E]; auto.
  - cbn [heap]. apply heap_frame_app. lia.
  - cbn [heap]. rewrite lookup_app_r by lia. now rewrite Nat.sub_diag.
  - cbn [heap st_selected]. rewrite lookup_app_l; [exact Hsel|].
    eapply lookup_lt_Some; eauto.
  - exists w'. now apply bind_raise.
Qed.

(** The accuracies of the folds that complete. *)
Lemma meta_folds_scores (clf : Classifier) (clfargs : ClfArgs)
    (featureselector : loc -> Z -> M loc) (selected candidates : loc)
    (origins : list (list Z)) :
  allocates_only featureselector ->
  forall cv_features cv_rois w w' found,
    meta_folds clf clfargs featureselector selected candidates origins
      cv_features cv_rois w = (w', Ok found) ->
    exists accs,
      folds_scores clf clfargs featureselector selected candidates
        w origins accs w'
      /\ __perfs (this w') = __perfs (this w) ++ accs.
Proof.
  intros Hfs.
  induction origins as [|exclude rest IH]; intros cvf cvr w w' found E.
  - simpl in E. unfold ret in E. injection E as <- _.
    exists []. rewrite app_nil_r. split; [constructor | reflexivity].
  - rewrite meta_folds_cons in E.
    destruct (splitTrainTestData _ _) as [[mtr mte]|e] eqn:Es;
      [|discriminate].
    destruct (__doSelection _ _ _ _ _ _ _) as [w1 [[r ids]|e|]] eqn:E1;
      [|discriminate|discriminate].
    destruct (heap w1 !! r) as [sf|] eqn:Er; [|discriminate].
    destruct (fold_accuracy _ _ _ _ _) as [acc|e] eqn:Ea; [|discriminate].
    pose proof E1 as E1'.
    apply framed_doSelection in E1' as [Hs _]; [|exact Hfs].
    apply IH in E as (accs & Ht & Hp). cbn [this add_perf __perfs] in Hp.
    exists (acc :: accs). split; [econstructor; eauto|].
    rewrite Hp, Hs, <- app_assoc. reflexivity.
Qed.

(** The loop over the folds raises what its first failing fold raises. *)
Lemma meta_folds_raise (clf : Classifier) (clfargs : ClfArgs)
    (featureselector : loc -> Z -> M loc) (selected candidates : loc)
    (finished rest : list (list Z)) (exclude : list Z)
    (cv_features : list loc) (cv_rois : list (list Z))
    (w wk w' : world) (found : list loc * list (list Z)) (e : exn) :
  allocates_only featureselector ->
  meta_folds clf clfargs featureselector selected candidates finished
    cv_features cv_rois w = (wk, Ok found) ->
  meta_folds clf clfargs featureselector selected candidates [exclude]
    (fst found) (snd found) wk = (w', Raise e) ->
  meta_folds clf clfargs featureselector selected candidates
    (finished ++ exclude :: rest) cv_features cv_rois w = (w', Raise e)
  /\ __selection_masks (this w') = __selection_masks (this w)
  /\ exists accs,
       folds_scores clf clfargs featureselector selected candidates
         w finished accs wk
       /\ __perfs (this w') = __perfs (this w) ++ accs.
Proof.
  intros Hfs Efin Eraise. split; [|split].
  - rewrite meta_folds_app. rewrite (bind_ok _ _ _ _ _ Efin).
    change (exclude :: rest) with ([exclude] ++ rest).
    rewrite meta_folds_app. now apply bind_raise.
  - pose proof Efin as A1. pose proof Eraise as A2.
    apply meta_folds_accounts in A1 as (? & _ & Hm1 & _); [|exact Hfs].
    apply meta_folds_accounts in A2 as (? & _ & Hm2 & _); [|exact Hfs].
    congruence.
  - pose proof Eraise as A2.
    apply meta_folds_accounts in A2 as (accs' & Hp' & _ & _ & Hout');
      [|exact Hfs].
    cbn [length] in Hout'. destruct accs'; [|cbn [length] in Hout'; lia].
    rewrite app_nil_r in Hp'.
    apply meta_folds_scores in Efin as (accs & Ht & Hp); [|exact Hfs].
    exists accs. split; [exact Ht | congruence].
Qed.

(** C2, as the code has it.  Take a call of [selectROIs] or
    [selectFeatures] whose folds are [finished ++ exclude :: rest].  When
    the folds [finished] complete and the fold [exclude] raises [e], the
    call raises this same [e] to its caller, in the world the raise left.
    The list of selection masks is then empty.  The list of accuracies is
    not rolled back: it holds exactly the accuracies of the folds
    [finished], in their order.  A fold raises [e] when the split of the
    dataset fails with [e], when the inner search raises [e], or when the
    evaluation of the fold fails with [e]; the inner search raises [e]
    when in one of its rounds (with ratings that are numbers before it)
    the rating of a candidate fails with [e];
    a rating fails with what the restriction of the pattern or the
    cross-validation fails with, an evaluation with what the restriction
    of a pattern or the classifier fails with. *)
Theorem raise_keeps_finished_folds (clf : Classifier) (kwargs : ClfArgs)
    (w : world) (o : pyobj) (m : ndarray Z)
    (finished rest : list (list Z)) (exclude : list Z) :
  heap w !! __mask (this w) = Some o -> as_array o = Res m ->
  getUniqueLengthNCombinations (originlabels (__pattern (this w)))
    (__metacvtype (this w)) = Res (finished ++ exclude :: rest) ->
  (forall wk found w' e,
      meta_folds clf kwargs __selectByMaskValue
        (S (length (heap w))) (length (heap w)) finished [] []
        (rois_loop_start w m (finished ++ exclude :: rest)) = (wk, Ok found) ->
      meta_folds clf kwargs __selectByMaskValue
        (S (length (heap w))) (length (heap w)) [exclude]
        (fst found) (snd found) wk = (w', Raise e) ->
      selectROIs clf kwargs w = (w', Raise e)
      /\ __selection_masks (this w') = []
      /\ exists accs,
           folds_scores clf kwargs __selectByMaskValue
             (S (length (heap w))) (length (heap w))
             (rois_loop_start w m (finished ++ exclude :: rest))
             finished accs wk
           /\ __perfs (this w') = accs)
  /\ (forall pool wk found w' e,
         Forall2 (fun coord id =>
                    getFeatureId (__pattern (this w)) coord = Res id)
           (np_transpose_nonzero m) pool ->
         meta_folds clf kwargs __selectByFeatureId
           (length (heap w)) (S (length (heap w))) finished [] []
           (features_loop_start w pool (finished ++ exclude :: rest))
           = (wk, Ok found) ->
         meta_folds clf kwargs __selectByFeatureId
           (length (heap w)) (S (length (heap w))) [exclude]
           (fst found) (snd found) wk = (w', Raise e) ->
         selectFeatures clf kwargs w = (w', Raise e)
         /\ __selection_masks (this w') = []
         /\ exists accs,
              folds_scores clf kwargs __selectByFeatureId
                (length (heap w)) (S (length (heap w)))
                (features_loop_start w pool (finished ++ exclude :: rest))
                finished accs wk
              /\ __perfs (this w') = accs)
  /\ (forall featureselector selected candidates cv_features cv_rois wk,
         (forall e,
             splitTrainTestData (__pattern (this wk)) exclude = Err e ->
             meta_folds clf kwargs featureselector selected candidates
               [exclude] cv_features cv_rois wk = (wk, Raise e))
         /\ (forall meta_train meta_test w1 e,
                splitTrainTestData (__pattern (this wk)) exclude
                  = Res (meta_train, meta_test) ->
                __doSelection meta_train clf kwargs featureselector selected
                  candidates wk = (w1, Raise e) ->
                meta_folds clf kwargs featureselector selected candidates
                  [exclude] cv_features cv_rois wk = (w1, Raise e))
         /\ (forall meta_train meta_test w1 r ids sf e,
                splitTrainTestData (__pattern (this wk)) exclude
                  = Res (meta_train, meta_test) ->
                __doSelection meta_train clf kwargs featureselector selected
                  candidates wk = (w1, Ok (r, ids)) ->
                heap w1 !! r = Some sf ->
                fold_accuracy (__pattern (this w1)) meta_test clf kwargs sf
                  = Err e ->
                meta_folds clf kwargs featureselector selected candidates
                  [exclude] cv_features cv_rois wk = (w1, Raise e)))
  /\ (forall pattern featureselector merge selected candidates w1 sel pool e,
         rates_every_subset (this w1) pattern clf kwargs ->
         merges_as w1 featureselector merge ->
         heap w1 !! selected = Some sel ->
         heap w1 !! candidates = Some (PyList pool) ->
         greedy_raises merge (rating_of (this w1) pattern clf kwargs)
           (__break_crit (this w1)) sel pool 0 e ->
         exists w2,
           __doSelection pattern clf kwargs featureselector selected
             candidates w1 = (w2, Raise e))
  /\ (forall self pattern whole meta_test features e,
         (pat_selectFeatures pattern features = Err e ->
          rating_of self pattern clf kwargs features = Err e)
         /\ (forall temp_pat,
                pat_selectFeatures pattern features = Res temp_pat ->
                CrossValidation_run (__cvargs self) temp_pat clf
                  (__cvtype self) kwargs = Err e ->
                rating_of self pattern clf kwargs features = Err e)
         /\ (pat_selectFeatures whole features = Err e ->
             fold_accuracy whole meta_test clf kwargs features = Err e)
         /\ (forall bestfeature_pat,
                pat_selectFeatures whole features = Res bestfeature_pat ->
                pat_selectFeatures meta_test features = Err e ->
                fold_accuracy whole meta_test clf kwargs features = Err e)
         /\ (forall bestfeature_pat test_pat,
                pat_selectFeatures whole features = Res bestfeature_pat ->
                pat_selectFeatures meta_test features = Res test_pat ->
                getClassification clf bestfeature_pat test_pat kwargs
                  = Err e ->
                fold_accuracy whole meta_test clf kwargs features = Err e)).
Proof.
  intros Ho Hm Horig. split; [|split; [|split; [|split]]].
  - intros wk found w' e Efin Eraise.
    destruct (meta_folds_raise clf kwargs __selectByMaskValue _ _ finished
                rest exclude [] [] _ wk w' found e
                (strategy_allocates _ by_mask_value) Efin Eraise)
      as (E & Hmk & accs & Ht & Hp).
    split; [|split].
    + rewrite (selectROIs_loop _ _ _ o m _ Ho Hm Horig).
      now apply bind_raise.
    + exact Hmk.
    + exists accs. split; [exact Ht | exact Hp].
  - intros pool wk found w' e HF Efin Eraise.
    destruct (meta_folds_raise clf kwargs __selectByFeatureId _ _ finished
                rest exclude [] [] _ wk w' found e
                (strategy_allocates _ by_feature_id) Efin Eraise)
      as (E & Hmk & accs & Ht & Hp).
    split; [|split].
    + rewrite (selectFeatures_loop _ _ _ o m pool _ Ho Hm HF Horig).
      now apply bind_raise.
    + exact Hmk.
    + exists accs. split; [exact Ht | exact Hp].
  - intros fs selected candidates cvf cvr wk. split; [|split].
    + intros e Es. rewrite meta_folds_cons, Es. reflexivity.
    + intros mt mte w1 e Es E1. rewrite meta_folds_cons, Es, E1. reflexivity.
    + intros mt mte w1 r ids sf e Es E1 Hr Ha.
      rewrite meta_folds_cons, Es, E1, Hr, Ha. reflexivity.
  - intros pattern fs merge selected candidates w1 sel pool e _.
    apply doSelection_raises.
  - intros self pattern whole mte features e.
    unfold rating_of, fold_accuracy, rbind.
    repeat split.
    + now intros ->.
    + now intros p -> ->.
    + now intros ->.
    + now intros bp -> ->.
    + now intros bp tp -> -> ->.
Qed.

End Exceptions.

(** ** The revised properties on the small datasets *)

Lemma raise_keeps_finished_folds_witness :
  let w := Runs.w_one_class in
  let start := features_loop_start w [0%Z] [[0%Z]; [1%Z]; [2%Z]] in
  let wk := fst (meta_folds (C:=Toy.collaborators) 0%Z tt
                   __selectByFeatureId 1 2 [[0%Z]] [] [] start) in
  let w' := fst (meta_folds (C:=Toy.collaborators) 0%Z tt
                   __selectByFeatureId 1 2 [[1%Z]] [5] [[0%Z]] wk) in
  selectFeatures (C:=Toy.collaborators) 0%Z tt w
  = (w', Raise (Exn "ValueError" "the training set holds a single class"))
  /\ __selection_masks (this w') = []
  /\ exists accs,
       folds_scores (C:=Toy.collaborators) 0%Z tt __selectByFeatureId 1 2
         start [[0%Z]] accs wk
       /\ __perfs (this w') = accs.
Proof.
  cbv zeta.
  apply (proj1 (proj2 (raise_keeps_finished_folds (C:=Toy.collaborators)
                         0%Z tt Runs.w_one_class
                         (PyIntArray (NdArray [1] [1%Z])) (NdArray [1] [1%Z])
                         [[0%Z]] [[2%Z]] [1%Z] eq_refl eq_refl eq_refl))
           [0%Z] _ ([5], [[0%Z]])).
  - repeat constructor.
  - vm_compute. reflexivity.
  - vm_compute. reflexivity.
Defined.

(** Every subset of the features of [two_bits] is cross-validated on
    three folds. *)
Lemma toy_bits_rates_every_subset (mask pool : list Z) :
  rates_every_subset (C:=Toy.collaborators)
    (this (Runs.w_bits_pool mask pool)) Toy.two_bits 0%Z tt.
Proof.
  intros features temp_pat perf Hs Hcv.
  cbn [pat_selectFeatures CrossValidation_run Toy.collaborators] in Hs, Hcv.
  apply toy_select_columns_origins in Hs.
  unfold Toy.cross_validate in Hcv. rewrite Hs in Hcv.
  cbn [Runs.w_bits_pool this Toy.searcher __cvtype] in Hcv.
  change (Toy.unique_combinations (map Toy.origin Toy.two_bits) 1)
    with (Res [[0%Z]; [1%Z]; [2%Z]]) in Hcv.
  cbn [rbind] in Hcv. apply toy_run_folds_length in Hcv.
  intros ->. discriminate.
Qed.

Lemma greedy_loop_follows_rounds_witness :
  let w := Runs.w_bits_pool [1%Z; 1%Z; 1%Z] [0%Z; 1%Z; 2%Z] in
  exists final,
    heap (fst (__doSelection (C:=Toy.collaborators) Toy.two_bits 0%Z tt
                 __selectByFeatureId 1 2 w)) !! 10 = Some final
    /\ greedy_rounds merge_by_id
         (rating_of (C:=Toy.collaborators) (this w) Toy.two_bits 0%Z tt)
         (1 # 1000) (PyList []) [0%Z; 1%Z; 2%Z] 0 [] (final, [1%Z; 2%Z]).
Proof.
  cbv zeta.
  destruct (proj2 (greedy_loop_follows_rounds (C:=Toy.collaborators)
                     Toy.two_bits 0%Z tt __selectByFeatureId merge_by_id 1 2
                     (Runs.w_bits_pool [1%Z; 1%Z; 1%Z] [0%Z; 1%Z; 2%Z])
                     (PyList []) [0%Z; 1%Z; 2%Z]
                     (toy_bits_rates_every_subset _ _)
                     (merges_by_id _) eq_refl eq_refl)
              (fst (__doSelection (C:=Toy.collaborators) Toy.two_bits 0%Z tt
                      __selectByFeatureId 1 2
                      (Runs.w_bits_pool [1%Z; 1%Z; 1%Z] [0%Z; 1%Z; 2%Z])))
              10 [1%Z; 2%Z])
    as (final & Hfin & Hg & _).
  - vm_compute. reflexivity.
  - exists final. split; assumption.
Defined.

Lemma candidate_pools_witness :
  let w := Runs.w_bits [1%Z; 0%Z; 4%Z] in
  let m := NdArray [3] [1%Z; 0%Z; 4%Z] in
  (selectFeatures (C:=Toy.collaborators) 0%Z tt w
   = bind (__doCVSelection (C:=Toy.collaborators) 0%Z tt
            __selectByFeatureId 1 2)
       selectFeatures_end
       (World (heap w ++ [PyList []; PyList [0%Z; 2%Z]])
          (clear_fields (this w)))
   /\ length [0%Z; 2%Z]
      = length (filter (fun x => negb (x =? 0)%Z) (data m)))
  /\ StronglySorted lex_lt (np_transpose_nonzero m)
  /\ (selectROIs (C:=Toy.collaborators) 0%Z tt w
      = bind (__doCVSelection (C:=Toy.collaborators) 0%Z tt
               __selectByMaskValue 2 1)
          selectROIs_end
          (World (heap w ++ [PyList (np_unique (data m));
                             np_zeros_bool (shape m)])
             (clear_fields (this w)))
      /\ length (np_unique (data m)) = length (nodup Z.eq_dec (data m))).
Proof.
  cbv zeta.
  destruct (candidate_pools (C:=Toy.collaborators) 0%Z tt
              (Runs.w_bits [1%Z; 0%Z; 4%Z])
              (PyIntArray (NdArray [3] [1%Z; 0%Z; 4%Z]))
              (NdArray [3] [1%Z; 0%Z; 4%Z]) eq_refl eq_refl eq_refl)
    as (Hf & (_ & _ & Hs) & (Hr & _ & _ & Hl)).
  split; [apply Hf; repeat constructor|]. split; [exact Hs|].
  split; [exact Hr | exact Hl].
Defined.

Lemma select_returns_chosen_ids_witness :
  let w' := fst (selectFeatures (C:=Toy.collaborators) 0%Z tt
                   (Runs.w_bits [1%Z; 1%Z; 1%Z])) in
  exists (origins : list (list Z)) (results : list (loc * list Z)),
    Toy.unique_combinations (map Toy.origin Toy.two_bits) 1 = Res origins
    /\ length results = length origins
    /\ [10; 19; 28] = map fst results
    /\ Forall (fun x => heap w' !! fst x = Some (PyList (snd x))) results.
Proof.
  cbv zeta.
  destruct (proj1 (select_returns_chosen_ids (C:=Toy.collaborators) 0%Z tt
                     (Runs.w_bits [1%Z; 1%Z; 1%Z])
                     (fst (selectFeatures (C:=Toy.collaborators) 0%Z tt
                             (Runs.w_bits [1%Z; 1%Z; 1%Z]))))
              [10; 19; 28])
    as (o & m & pool & origins & results & w2 & _ & _ & _ & Ho & Ht
        & Hres & Hall).
  - vm_compute. reflexivity.
  - exists origins, results. split; [exact Ho|]. split; [|auto].
    clear - Ht. induction Ht; cbn [length]; congruence.
Defined.

Lemma chosen_ids_are_distinct_witness :
  List.NoDup [7%Z; 9%Z]
  /\ length [7%Z; 9%Z] <= length (np_unique [5%Z; 7%Z; 9%Z])
  /\ forall x, In x [7%Z; 9%Z] -> In x [5%Z; 7%Z; 9%Z].
Proof.
  eapply (proj2 (proj1 (chosen_ids_are_distinct (C:=Toy.collaborators)
                          0%Z tt (Runs.w_bits [5%Z; 7%Z; 9%Z])
                          (PyIntArray (NdArray [3] [5%Z; 7%Z; 9%Z]))
                          (NdArray [3] [5%Z; 7%Z; 9%Z])
                          [[0%Z]; [1%Z]; [2%Z]] eq_refl eq_refl eq_refl))).
  - eapply (inner_run_at _ _ _ _ _ _ _ [[0%Z]] [1%Z] [[2%Z]]).
    + reflexivity.
    + vm_compute. reflexivity.
    + vm_compute. reflexivity.
  - vm_compute. reflexivity.
Defined.
